(** * The resilient paginated-fetch engine of comprehensive_city_scraper.py

    A shallow embedding of the scraping core of class
    [ComprehensiveCityScraper]: the payload extraction
    ([extract_properties_from_html]), the per-page retry loop
    ([fetch_single_page]), the batch loop of [scrape_city_property_type]
    with its checkpoint calls, and the interrupt handler.

    Python integers are [Z]; the literal [999] is the source's marker for
    a total page count that is not known. *)

From Stdlib Require Import ZArith List Bool Lia String Ascii.
From Stdlib Require Import Permutation Sorted.
From Stdlib Require Decimal DecimalString DecimalZ DecimalPos.
Import ListNotations.
Local Open Scope Z_scope.
Set Warnings "-register-all".

(** ** Python values and exceptions *)

(** The values [json.loads] can produce.  A [str] is a Rocq [string], one
    [ascii] per code point; a [dict] is its item list, looked up by the
    first matching key; a [float] is kept as the bits of the double, the
    code never computes with one. *)
Inductive pyval : Type :=
| PNone
| PBool (b : bool)
| PInt (n : Z)
| PFloat (bits : Z)
| PStr (s : string)
| PList (l : list pyval)
| PDict (d : list (string * pyval)).

(** The subclasses of [Exception] that the extraction can meet. *)
Inductive pyexn : Type :=
| TypeError
| AttributeError
| KeyError
| JSONDecodeError.

Inductive exc (A : Type) : Type :=
| Ok (a : A)
| Raise (e : pyexn).
Arguments Ok {A} a.
Arguments Raise {A} e.

Definition bind {A B : Type} (m : exc A) (k : A -> exc B) : exc B :=
  match m with
  | Ok a => k a
  | Raise e => Raise e
  end.

Notation "x <- m ;; k" := (bind m (fun x => k))
  (at level 61, m at next level, right associativity).

(** [try: body except Exception: pass], followed by the code after the
    [try] statement.  [body] yields [Some r] when it executed [return r]
    and [None] when it fell through. *)
Definition try_except {A : Type} (body : exc (option A)) (after : exc A) : exc A :=
  match body with
  | Ok (Some r) => Ok r
  | Ok None => after
  | Raise _ => after
  end.

Module Py.

Fixpoint dict_lookup (k : string) (d : list (string * pyval)) : option pyval :=
  match d with
  | [] => None
  | (k', v) :: rest => if String.eqb k k' then Some v else dict_lookup k rest
  end.

Fixpoint is_prefix (p s : string) : bool :=
  match p, s with
  | EmptyString, _ => true
  | String a p', String b s' => Ascii.eqb a b && is_prefix p' s'
  | String _ _, EmptyString => false
  end.

Fixpoint is_substring (p s : string) : bool :=
  is_prefix p s ||
  match s with
  | EmptyString => false
  | String _ s' => is_substring p s'
  end.

Definition is_str (k : string) (v : pyval) : bool :=
  match v with
  | PStr s => String.eqb k s
  | _ => false
  end.

(** [k in v] for a string [k]. *)
Definition contains (k : string) (v : pyval) : exc bool :=
  match v with
  | PDict d => Ok (match dict_lookup k d with Some _ => true | None => false end)
  | PList l => Ok (existsb (is_str k) l)
  | PStr s => Ok (is_substring k s)
  | _ => Raise TypeError
  end.

(** [v[k]] for a string [k]. *)
Definition getitem (k : string) (v : pyval) : exc pyval :=
  match v with
  | PDict d => match dict_lookup k d with Some x => Ok x | None => Raise KeyError end
  | _ => Raise TypeError
  end.

(** [v.get(k, default)]: only a dict has the method. *)
Definition get (k : string) (default : pyval) (v : pyval) : exc pyval :=
  match v with
  | PDict d => Ok (match dict_lookup k d with Some x => x | None => default end)
  | _ => Raise AttributeError
  end.

Definition len (v : pyval) : exc Z :=
  match v with
  | PList l => Ok (Z.of_nat (List.length l))
  | PDict d => Ok (Z.of_nat (List.length d))
  | PStr s => Ok (Z.of_nat (String.length s))
  | _ => Raise TypeError
  end.

(** Truth value of a value, as [if v:] takes it. *)
Definition truthy (v : pyval) : bool :=
  match v with
  | PNone => false
  | PBool b => b
  | PInt n => negb (n =? 0)
  | PFloat bits => negb ((bits =? 0) || (bits =? 2 ^ 63))
  | PStr s => negb (String.eqb s EmptyString)
  | PList l => match l with [] => false | _ => true end
  | PDict d => match d with [] => false | _ => true end
  end.

Definition is_None (v : pyval) : bool :=
  match v with
  | PNone => true
  | _ => false
  end.

End Py.

(** ** Extraction of one payload *)

(** What [extract_properties_from_html] returns:
    [(properties, current_page, total_pages)]. *)
Definition extraction : Type := (pyval * pyval * pyval)%type.

Section Extraction.

(** [re.search(pattern, html, re.DOTALL)] with the pattern of the source:
    [group(1)] of the match, or [None] when there is none. *)
Variable re_search : string -> option string.

(** [json.loads]: the parsed value, or [JSONDecodeError]. *)
Variable json_loads : string -> option pyval.

(** Lines 323-347, for a parsed [data]. *)
Definition extract_from_data (data : pyval) : exc (option extraction) :=
  has_srp <- Py.contains "srp" data ;;
  has_page_data <-
    (if has_srp
     then srp <- Py.getitem "srp" data ;; Py.contains "pageData" srp
     else Ok false) ;;
  has_properties <-
    (if has_page_data
     then srp <- Py.getitem "srp" data ;;
          page_data <- Py.getitem "pageData" srp ;;
          Py.contains "properties" page_data
     else Ok false) ;;
  if has_properties then
    srp <- Py.getitem "srp" data ;;
    page_data <- Py.getitem "pageData" srp ;;
    properties <- Py.getitem "properties" page_data ;;
    srp' <- Py.get "srp" (PDict []) data ;;
    page_data' <- Py.get "pageData" (PDict []) srp' ;;
    pagination <- Py.get "pagination" (PDict []) page_data' ;;
    total_pages <- Py.get "totalPages" PNone pagination ;;
    current_page <- Py.get "currentPage" (PInt 1) pagination ;;
    total_pages <-
      (if Py.is_None total_pages then
         srp'' <- Py.get "srp" (PDict []) data ;;
         alt_pagination <- Py.get "pagination" (PDict []) srp'' ;;
         total_pages <- Py.get "totalPages" PNone alt_pagination ;;
         if Py.is_None total_pages
         then Py.get "total_pages" PNone alt_pagination
         else Ok total_pages
       else Ok total_pages) ;;
    total_pages <-
      (if Py.is_None total_pages then
         n <- Py.len properties ;;
         if n >=? 25 then Ok (PInt 999) else Ok (PInt 1)
       else Ok total_pages) ;;
    Ok (Some (properties, current_page, total_pages))
  else Ok None.

Definition extract_properties_from_html (html : string) : exc extraction :=
  try_except
    (match re_search html with
     | Some data_str =>
         data <- (match json_loads data_str with
                  | Some v => Ok v
                  | None => Raise JSONDecodeError
                  end) ;;
         extract_from_data data
     | None => Ok None
     end)
    (Ok (PList [], PInt 1, PInt 1)).

(** The value at [data['srp']['pageData']['properties']] of the payload,
    when the payload has one: the property data that can be parsed from
    [html]. *)
Definition payload_properties (html : string) : option pyval :=
  match re_search html with
  | None => None
  | Some data_str =>
      match json_loads data_str with
      | Some (PDict d) =>
          match Py.dict_lookup "srp" d with
          | Some (PDict srp) =>
              match Py.dict_lookup "pageData" srp with
              | Some (PDict page_data) => Py.dict_lookup "properties" page_data
              | _ => None
              end
          | _ => None
          end
      | _ => None
      end
  end.

(** ** One page, with its retries *)

(** What [fetch_single_page] returns:
    [(page_num, properties, current_page, total_pages)]. *)
Definition page_tuple : Type := (Z * pyval * pyval * pyval)%type.

Definition max_retries_per_page : Z := 5.

(** The [n]-th call of [fetch_with_retry] for the page (counted from 0):
    the text of a response with status 200, or [None]. *)
Variable fetch_with_retry : nat -> option string.

(** The [while page_retry_count < max_retries_per_page] loop of lines
    401-427.  [calls] counts the calls of [fetch_with_retry] made so far
    and is returned with the result; [fuel] is the number of passes still
    allowed by the loop test, [max_retries_per_page - page_retry_count]. *)
Fixpoint fetch_loop (fuel : nat) (page_num page_retry_count : Z) (calls : nat)
  : exc (page_tuple * nat) :=
  match fuel with
  | O => Ok ((page_num, PList [], PInt 1, PInt 1), calls)
  | S fuel' =>
      match fetch_with_retry calls with
      | None =>
          let page_retry_count := page_retry_count + 1 in
          if page_retry_count <? max_retries_per_page
          then fetch_loop fuel' page_num page_retry_count (S calls)
          else Ok ((page_num, PList [], PInt 1, PInt 1), S calls)
      | Some text =>
          r <- extract_properties_from_html text ;;
          let '(properties, current_page, total_pages) := r in
          if Py.truthy properties
          then Ok ((page_num, properties, current_page, total_pages), S calls)
          else
            let page_retry_count := page_retry_count + 1 in
            if page_retry_count <? max_retries_per_page
            then fetch_loop fuel' page_num page_retry_count (S calls)
            else Ok ((page_num, PList [], current_page, total_pages), S calls)
      end
  end.

Definition fetch_single_page (page_num : Z) : exc (page_tuple * nat) :=
  fetch_loop (Z.to_nat max_retries_per_page) page_num 0 0.

(** What the [n]-th attempt observes: the extraction of the response, or
    nothing when the fetch failed. *)
Definition attempt (n : nat) : option extraction :=
  match fetch_with_retry n with
  | None => None
  | Some text =>
      match extract_properties_from_html text with
      | Ok r => Some r
      | Raise _ => None
      end
  end.

Definition yields_records (n : nat) : bool :=
  match attempt n with
  | Some (properties, _, _) => Py.truthy properties
  | None => false
  end.

(** The pagination fields returned when no attempt yields a record:
    those of the fifth attempt, [1, 1] when its fetch failed. *)
Definition exhausted_metadata : pyval * pyval :=
  match attempt 4 with
  | Some (_, current_page, total_pages) => (current_page, total_pages)
  | None => (PInt 1, PInt 1)
  end.

(** The outcome of the loop when it is entered before attempt [calls]. *)
Definition fetch_outcome (page_num : Z) (calls : nat) (t : page_tuple) (n : nat) : Prop :=
  (exists i props cur tot,
      (calls <= i < 5)%nat
      /\ (forall j, (calls <= j < i)%nat -> yields_records j = false)
      /\ attempt i = Some (props, cur, tot)
      /\ Py.truthy props = true
      /\ n = S i
      /\ t = (page_num, props, cur, tot))
  \/ ((forall j, (calls <= j < 5)%nat -> yields_records j = false)
      /\ n = 5%nat
      /\ t = (page_num, PList [], fst exhausted_metadata,
              snd exhausted_metadata)).

End Extraction.

(** ** The batch loop of [scrape_city_property_type]

    The loop is modelled on well-typed page results: the property list of
    a page is a list of opaque records, the page counters are integers. *)

Section Engine.

(** A property dictionary; the engine only moves them around. *)
Variable Rec : Type.

(** The key of a harvest: [(city_id, city_name, property_type)]. *)
Variable Category : Type.

(** One element of [batch_results]. *)
Record PageResult : Type := mkPageResult {
  page_num : Z;
  properties : list Rec;
  reported_current_page : Z;
  total_pages : Z
}.

(** The constructor arguments that the loop reads. *)
Record Config : Type := mkConfig {
  test_mode : bool;
  max_pages : option Z;
  start_page : Z
}.

(** The constructor defaults: no test mode, no page ceiling, start at
    page 1. *)
Definition default_config : Config := mkConfig false None 1.

(** [self.start_page = start_page or 1]. *)
Definition start_page_or_1 (arg : option Z) : Z :=
  match arg with
  | Some n => if n =? 0 then 1 else n
  | None => 1
  end.

Inductive Event : Type :=
| EvDispatch (pages : list Z)
    (* one ThreadPoolExecutor block: every page of the list submitted *)
| EvSaveProgress (key : option Category) (current_page total_properties : Z)
    (* save_progress overwrites output/scraping_progress.json *)
| EvSaveIntermediate (key : option Category) (props : list Rec)
                     (first_page end_page : Z)
    (* save_intermediate_data writes a new file under output/json_files *)
| EvDisplayProgress (current_page total_properties : Z)
| EvRaiseKeyboardInterrupt.

(** The instance attributes and the locals of the running harvest, with
    the number of batches dispatched so far and the log of effects. *)
Record State : Type := mkState {
  interrupted : bool;
  current_key : option Category;
  current_properties : list Rec;
  current_page : Z;
  all_properties : list Rec;
  page : Z;
  consecutive_empty_batches : Z;
  total_pages_estimate : Z;
  dispatches : nat;
  trace : list Event
}.

Definition concurrent_pages : Z := 5.
Definition max_consecutive_empty_batches : Z := 2.
Definition max_batch_retries : Z := 2.

Definition emit (evs : list Event) (st : State) : State :=
  mkState (interrupted st) (current_key st) (current_properties st)
          (current_page st) (all_properties st) (page st)
          (consecutive_empty_batches st) (total_pages_estimate st)
          (dispatches st) (trace st ++ evs).

(** ** Saving *)

Definition save_intermediate_data (key : option Category) (props : list Rec)
           (first_page end_page : Z) : list Event :=
  match props with
  | [] => []
  | _ => [EvSaveIntermediate key props first_page end_page]
  end.

Definition save_progress (key : option Category)
           (current_page total_properties : Z) : list Event :=
  [EvSaveProgress key current_page total_properties].

Definition len (l : list Rec) : Z := Z.of_nat (List.length l).

Definition save_on_interrupt (cfg : Config) (st : State) : list Event :=
  match current_properties st with
  | [] => []
  | _ =>
      save_intermediate_data (current_key st) (current_properties st)
                             (start_page cfg) (current_page st)
      ++ save_progress (current_key st) (current_page st)
                       (len (current_properties st))
  end.

(** The handler installed for SIGINT and SIGTERM: its last step raises
    [KeyboardInterrupt] in the interrupted code. *)
Definition signal_handler (cfg : Config) (st : State) : State :=
  let st1 :=
    mkState true (current_key st) (current_properties st)
            (current_page st) (all_properties st) (page st)
            (consecutive_empty_batches st) (total_pages_estimate st)
            (dispatches st) (trace st) in
  emit (save_on_interrupt cfg st1 ++ [EvRaiseKeyboardInterrupt]) st1.

(** ** Candidate pages of a batch *)

Definition max_pages_exceeded (cfg : Config) (p : Z) : bool :=
  match max_pages cfg with
  | Some m => negb (m =? 0) && (p >? m)
  | None => false
  end.

(** The [for i in range(concurrent_pages)] loop of lines 463-474, over
    the remaining values [offsets] of [i]. *)
Fixpoint pages_from (cfg : Config) (estimate page : Z) (offsets : list Z) : list Z :=
  match offsets with
  | [] => []
  | i :: rest =>
      let current_page := page + i in
      if max_pages_exceeded cfg current_page then []
      else if (estimate <? 999) && (current_page >? estimate) then []
      else current_page :: pages_from cfg estimate page rest
  end.

Definition range5 : list Z := [0; 1; 2; 3; 4].

Definition pages_to_scrape (cfg : Config) (estimate page : Z) : list Z :=
  pages_from cfg estimate page range5.

(** ** One dispatch of a batch *)

(** [fetcher d p]: what [fetch_single_page] returns for page [p] in the
    [d]-th dispatch, without the page number it echoes; [None] when the
    future raised. *)
Variable fetcher : nat -> Z -> option (list Rec * Z * Z).

(** [completion d]: the order in which [as_completed] hands over the
    results of the [d]-th dispatch, given in submission order. *)
Variable completion : nat -> list PageResult -> list PageResult.

Definition future_result (d : nat) (p : Z) : PageResult :=
  match fetcher d p with
  | Some (props, cur, tot) => mkPageResult p props cur tot
  | None => mkPageResult p [] 1 1
  end.

Definition dispatch (d : nat) (pages : list Z) : list PageResult :=
  completion d (map (future_result d) pages).

(** [batch_results.sort(key=lambda x: x[0])]: a stable sort. *)
Fixpoint insert_by_page (r : PageResult) (l : list PageResult) : list PageResult :=
  match l with
  | [] => [r]
  | x :: rest =>
      if page_num r <=? page_num x then r :: x :: rest
      else x :: insert_by_page r rest
  end.

Fixpoint sort_by_page (l : list PageResult) : list PageResult :=
  match l with
  | [] => []
  | r :: rest => insert_by_page r (sort_by_page rest)
  end.

(** The locals of the result loop, lines 514-529. *)
Record BatchAcc : Type := mkBatchAcc {
  batch_properties : list Rec;
  empty_pages_in_batch : Z;
  pages_with_properties : Z;
  estimate : Z
}.

Definition is_empty (l : list Rec) : bool :=
  match l with
  | [] => true
  | _ => false
  end.

Definition process_result (acc : BatchAcc) (r : PageResult) : BatchAcc :=
  if is_empty (properties r)
  then mkBatchAcc (batch_properties acc) (empty_pages_in_batch acc + 1)
                  (pages_with_properties acc) (estimate acc)
  else mkBatchAcc (batch_properties acc ++ properties r)
                  (empty_pages_in_batch acc)
                  (pages_with_properties acc + 1)
                  (if (estimate acc =? 999) && (total_pages r <? 999)
                   then total_pages r else estimate acc).

Definition process_results (est : Z) (batch_results : list PageResult) : BatchAcc :=
  fold_left process_result batch_results (mkBatchAcc [] 0 0 est).

(** ** The batch retry loop, lines 487-545 *)

(** One pass of the [while] body and the passes after it.  [fuel] bounds
    the passes that may follow; the loop test allows at most
    [max_batch_retries] of them.  Returns the state with the
    [batch_results] and [empty_pages_in_batch] of the last pass. *)
Fixpoint batch_loop (fuel : nat) (batch_retry_count : Z) (pages : list Z)
         (st : State) : State * list PageResult * Z :=
  let d := dispatches st in
  let batch_results := sort_by_page (dispatch d pages) in
  let acc := process_results (total_pages_estimate st) batch_results in
  if (pages_with_properties acc >? 0) || (page st >? 100) then
    let all := all_properties st ++ batch_properties acc in
    (mkState (interrupted st) (current_key st) all
             (page st + concurrent_pages - 1) all (page st)
             (consecutive_empty_batches st) (estimate acc)
             (S d) (trace st ++ [EvDispatch pages]),
     batch_results, empty_pages_in_batch acc)
  else
    let st1 :=
      mkState (interrupted st) (current_key st) (current_properties st)
              (current_page st) (all_properties st) (page st)
              (consecutive_empty_batches st) (estimate acc)
              (S d) (trace st ++ [EvDispatch pages]) in
    let batch_retry_count := batch_retry_count + 1 in
    if batch_retry_count <=? max_batch_retries then
      match fuel with
      | O => (st1, batch_results, empty_pages_in_batch acc)
      | S fuel' => batch_loop fuel' batch_retry_count pages st1
      end
    else (st1, batch_results, empty_pages_in_batch acc).

(** ** One pass of the [while True] loop, lines 455-587 *)

Inductive Control : Type :=
| Continue (st : State)
| Break (st : State).

Definition set_consecutive (c : Z) (st : State) : State :=
  mkState (interrupted st) (current_key st) (current_properties st)
          (current_page st) (all_properties st) (page st)
          c (total_pages_estimate st) (dispatches st) (trace st).

Definition set_page (p : Z) (st : State) : State :=
  mkState (interrupted st) (current_key st) (current_properties st)
          (current_page st) (all_properties st) p
          (consecutive_empty_batches st) (total_pages_estimate st)
          (dispatches st) (trace st).

Definition should_break (cfg : Config) (st : State) : bool :=
  if test_mode cfg then true
  else if match max_pages cfg with
          | Some m => negb (m =? 0) && (page st + concurrent_pages >? m)
          | None => false
          end then true
  else if (total_pages_estimate st <? 999)
          && (page st + concurrent_pages >? total_pages_estimate st) then true
  else false.

(** Lines 576-587: the move to the next batch, with the checkpoint. *)
Definition advance (cfg : Config) (st2 : State) : State :=
  let st3 := set_page (page st2 + concurrent_pages) st2 in
  let st4 :=
    emit (save_progress (current_key st3)
                        (page st3 + concurrent_pages - 1)
                        (len (all_properties st3))) st3 in
  let batch_number := (page st4 - start_page cfg) / concurrent_pages in
  if (batch_number >? 0) && (batch_number mod 5 =? 0)
  then emit [EvDisplayProgress (page st4 + concurrent_pages - 1)
                               (len (all_properties st4))] st4
  else st4.

(** Lines 547-587: what follows the retry loop in a pass, given the
    [batch_results] and [empty_pages_in_batch] it left. *)
Definition after_batch (cfg : Config) (st1 : State)
           (batch_results : list PageResult) (empty_pages : Z) : Control :=
  let all_empty := empty_pages =? Z.of_nat (List.length batch_results) in
  let st2 :=
    if all_empty
    then set_consecutive (consecutive_empty_batches st1 + 1) st1
    else set_consecutive 0 st1 in
  if all_empty
     && (consecutive_empty_batches st2 >=? max_consecutive_empty_batches)
  then Break st2
  else if should_break cfg st2 then Break st2
  else Continue (advance cfg st2).

Definition loop_body (cfg : Config) (st : State) : Control :=
  if interrupted st then Break st
  else
    let pages := pages_to_scrape cfg (total_pages_estimate st) (page st) in
    match pages with
    | [] => Break st
    | _ :: _ =>
        let '(st1, batch_results, empty_pages) :=
          batch_loop (Z.to_nat max_batch_retries) 0 pages st in
        after_batch cfg st1 batch_results empty_pages
    end.

(** The [while True] loop: [None] when [fuel] passes did not reach a
    [break]. *)
Fixpoint scrape_loop (fuel : nat) (cfg : Config) (st : State) : option State :=
  match fuel with
  | O => None
  | S fuel' =>
      match loop_body cfg st with
      | Break st' => Some st'
      | Continue st' => scrape_loop fuel' cfg st'
      end
  end.

(** Lines 436-449: the state in which the loop is entered.  [flag] is
    [self.interrupted], [d] and [log] the dispatches and effects so far. *)
Definition enter (cfg : Config) (key : Category) (flag : bool)
           (d : nat) (log : list Event) : State :=
  mkState flag (Some key) [] (start_page cfg) [] (start_page cfg) 0 999 d log.

(** Lines 589-598: the final save. *)
Definition final_save (cfg : Config) (st : State) : State :=
  match all_properties st with
  | [] => st
  | _ =>
      let final_page :=
        if page st >? start_page cfg
        then page st + concurrent_pages - 1 else start_page cfg in
      emit (save_intermediate_data (current_key st) (all_properties st)
                                   (start_page cfg) final_page
            ++ save_progress (current_key st) final_page
                             (len (all_properties st))) st
  end.

(** The function returns [all_properties]; the final state is kept with
    it so that the effects can be read off. *)
Definition scrape_city_property_type (fuel : nat) (cfg : Config)
           (key : Category) (flag : bool) : option (list Rec * State) :=
  match scrape_loop fuel cfg (enter cfg key flag 0 []) with
  | Some st => let st' := final_save cfg st in Some (all_properties st', st')
  | None => None
  end.

(** ** Notions used to state the properties of the loop *)

Definition has_records (r : PageResult) : bool :=
  negb (is_empty (properties r)).

(** One update of the belief about the total page count by a reported
    total: the first total below 999 is kept. *)
Definition observe (est reported : Z) : Z :=
  if (est =? 999) && (reported <? 999) then reported else est.

(** The belief after feeding it the reported total of every result of a
    batch, as the specification words it. *)
Definition feed_every_result (est : Z) (batch_results : list PageResult) : Z :=
  fold_left observe (map total_pages batch_results) est.

(** The belief after feeding it the reported totals of the results that
    carry records. *)
Definition feed_results_with_records (est : Z) (batch_results : list PageResult) : Z :=
  fold_left observe (map total_pages (filter has_records batch_results)) est.

(** The first total below 999 reported by a result with records, 999 when
    there is none. *)
Definition first_known (batch_results : list PageResult) : Z :=
  match find (fun r => has_records r && (total_pages r <? 999)) batch_results with
  | Some r => total_pages r
  | None => 999
  end.

(** The order of the sort key, and its strict part. *)
Definition page_le (r1 r2 : PageResult) : Prop := page_num r1 <= page_num r2.
Definition page_lt (r1 r2 : PageResult) : Prop := page_num r1 < page_num r2.

(** [batch_results] of the pass that uses dispatch [d]. *)
Definition results_of (d : nat) (pages : list Z) : list PageResult :=
  sort_by_page (dispatch d pages).

(** The records of the given pages as fetched in dispatch [d], page after
    page. *)
Definition records_of (d : nat) (pages : list Z) : list Rec :=
  flat_map (fun p => properties (future_result d p)) pages.

(** The records of successive dispatches, the first of them numbered [d]:
    for each dispatch the records of its pages as fetched in it, page
    after page. *)
Fixpoint records_of_dispatches (d : nat) (batches : list (list Z)) : list Rec :=
  match batches with
  | [] => []
  | pages :: rest => records_of d pages ++ records_of_dispatches (S d) rest
  end.

(** A record list is page-ordered when it is the concatenation of the
    records of fetched pages, each taken from one dispatch, with strictly
    ascending page numbers. *)
Definition page_ordered (records : list Rec) : Prop :=
  exists blocks : list (Z * nat),
    StronglySorted Z.lt (map fst blocks)
    /\ records = flat_map (fun b => properties (future_result (snd b) (fst b))) blocks.

(** As [page_ordered], with every page number below [bound]. *)
Definition ordered_below (bound : Z) (records : list Rec) : Prop :=
  exists blocks : list (Z * nat),
    StronglySorted Z.lt (map fst blocks)
    /\ Forall (fun b => fst b < bound) blocks
    /\ records = flat_map (fun b => properties (future_result (snd b) (fst b))) blocks.

(** [runs_to cfg st st']: the loop entered in [st] is in [st'] at the top of
    some later pass. *)
Inductive runs_to (cfg : Config) : State -> State -> Prop :=
| runs_here (st : State) : runs_to cfg st st
| runs_on (st st1 st2 : State) :
    loop_body cfg st = Continue st1 -> runs_to cfg st1 st2 ->
    runs_to cfg st st2.

Definition state_of (c : Control) : State :=
  match c with
  | Continue st => st
  | Break st => st
  end.

(** The dispatches recorded in a log. *)
Definition dispatched (log : list Event) : list (list Z) :=
  flat_map (fun e => match e with EvDispatch pages => [pages] | _ => [] end) log.

(** The checkpoint and file writes recorded in a log. *)
Definition is_save (e : Event) : bool :=
  match e with
  | EvSaveProgress _ _ _ => true
  | EvSaveIntermediate _ _ _ _ => true
  | _ => false
  end.

(** [n] consecutive page numbers from [first]. *)
Definition page_range (first : Z) (n : nat) : list Z :=
  map (fun i => first + Z.of_nat i) (seq 0 n).

End Engine.


Arguments mkPageResult {Rec} page_num properties reported_current_page total_pages.
Arguments page_num {Rec} p.
Arguments properties {Rec} p.
Arguments reported_current_page {Rec} p.
Arguments total_pages {Rec} p.
Arguments EvDispatch {Rec Category} pages.
Arguments EvSaveProgress {Rec Category} key current_page total_properties.
Arguments EvSaveIntermediate {Rec Category} key props first_page end_page.
Arguments EvDisplayProgress {Rec Category} current_page total_properties.
Arguments EvRaiseKeyboardInterrupt {Rec Category}.
Arguments mkState {Rec Category}.
Arguments interrupted {Rec Category} s.
Arguments current_key {Rec Category} s.
Arguments current_properties {Rec Category} s.
Arguments current_page {Rec Category} s.
Arguments all_properties {Rec Category} s.
Arguments page {Rec Category} s.
Arguments consecutive_empty_batches {Rec Category} s.
Arguments total_pages_estimate {Rec Category} s.
Arguments dispatches {Rec Category} s.
Arguments trace {Rec Category} s.
Arguments emit {Rec Category} evs st.
Arguments save_intermediate_data {Rec Category} key props first_page end_page.
Arguments save_progress {Rec Category} key current_page total_properties.
Arguments len {Rec} l.
Arguments save_on_interrupt {Rec Category} cfg st.
Arguments signal_handler {Rec Category} cfg st.
Arguments future_result {Rec} fetcher d p.
Arguments dispatch {Rec} fetcher completion d pages.
Arguments insert_by_page {Rec} r l.
Arguments sort_by_page {Rec} l.
Arguments mkBatchAcc {Rec}.
Arguments batch_properties {Rec} b.
Arguments empty_pages_in_batch {Rec} b.
Arguments pages_with_properties {Rec} b.
Arguments estimate {Rec} b.
Arguments is_empty {Rec} l.
Arguments process_result {Rec} acc r.
Arguments process_results {Rec} est batch_results.
Arguments batch_loop {Rec Category} fetcher completion fuel batch_retry_count pages st.
Arguments Continue {Rec Category} st.
Arguments Break {Rec Category} st.
Arguments set_consecutive {Rec Category} c st.
Arguments set_page {Rec Category} p st.
Arguments should_break {Rec Category} cfg st.
Arguments advance {Rec Category} cfg st2.
Arguments after_batch {Rec Category} cfg st1 batch_results empty_pages.
Arguments loop_body {Rec Category} fetcher completion cfg st.
Arguments scrape_loop {Rec Category} fetcher completion fuel cfg st.
Arguments enter {Rec Category} cfg key flag d log.
Arguments final_save {Rec Category} cfg st.
Arguments scrape_city_property_type {Rec Category} fetcher completion fuel cfg key flag.
Arguments has_records {Rec} r.
Arguments feed_every_result {Rec} est batch_results.
Arguments feed_results_with_records {Rec} est batch_results.
Arguments first_known {Rec} batch_results.
Arguments results_of {Rec} fetcher completion d pages.
Arguments records_of {Rec} fetcher d pages.
Arguments records_of_dispatches {Rec} fetcher d batches.
Arguments page_ordered {Rec} fetcher records.
Arguments runs_to {Rec Category} fetcher completion cfg _ _.
Arguments dispatched {Rec Category} log.
Arguments is_save {Rec Category} e.
Arguments ordered_below {Rec} fetcher bound records.
Arguments state_of {Rec Category} c.
Arguments page_le {Rec} r1 r2.
Arguments page_lt {Rec} r1 r2.

(** ** Proxies, sessions and [fetch_with_retry] *)

(** The result of code that may raise an [Exception]. *)
Inductive outcome (A : Type) : Type :=
| Returned (a : A)
| Raised.
Arguments Returned {A} a.
Arguments Raised {A}.

(** [l[i]] for a Python list and an integer index: negative indices count
    from the end, an index outside the list raises [IndexError]. *)
Definition list_getitem {A : Type} (l : list A) (i : Z) : outcome A :=
  let n := Z.of_nat (List.length l) in
  let j := if i <? 0 then i + n else i in
  if (0 <=? j) && (j <? n)
  then match nth_error l (Z.to_nat j) with
       | Some a => Returned a
       | None => Raised
       end
  else Raised.

(** A [requests.Session], as far as the scraper configures it: the proxy
    it sends through, if any. *)
Record Session : Type := mkSession {
  session_proxy : option string
}.

(** The attributes of the scraper that the transport code reads and
    writes. *)
Record Transport : Type := mkTransport {
  proxy_list : list string;
  current_proxy_index : Z;
  use_scraperapi : bool;
  session : Session
}.

Definition is_nil {A : Type} (l : list A) : bool :=
  match l with
  | [] => true
  | _ => false
  end.

Definition _get_next_proxy (t : Transport) : outcome (option string * Transport) :=
  if is_nil (proxy_list t) then Returned (None, t)
  else
    match list_getitem (proxy_list t) (current_proxy_index t) with
    | Returned proxy =>
        Returned
          (Some proxy,
           mkTransport (proxy_list t)
                       ((current_proxy_index t + 1)
                          mod Z.of_nat (List.length (proxy_list t)))
                       (use_scraperapi t) (session t))
    | Raised => Raised
    end.

(** [_setup_session] and [_get_thread_session]: a fresh session, given the
    next proxy of the rotation when proxies are used. *)
Definition _setup_session (t : Transport) : outcome (Session * Transport) :=
  if negb (is_nil (proxy_list t)) && negb (use_scraperapi t) then
    match _get_next_proxy t with
    | Returned (proxy, t') =>
        match proxy with
        | Some p =>
            if negb (String.eqb p EmptyString)
            then Returned (mkSession (Some p), t')
            else Returned (mkSession None, t')
        | None => Returned (mkSession None, t')
        end
    | Raised => Raised
    end
  else Returned (mkSession None, t).

Definition _rotate_proxy (t : Transport) : outcome Transport :=
  if negb (is_nil (proxy_list t)) then
    match _setup_session t with
    | Returned (s, t') =>
        Returned (mkTransport (proxy_list t') (current_proxy_index t')
                              (use_scraperapi t') s)
    | Raised => Raised
    end
  else Returned t.

(** [k] calls of [_get_next_proxy] in a row: the proxies they return. *)
Fixpoint next_proxies (k : nat) (t : Transport)
  : outcome (list (option string) * Transport) :=
  match k with
  | O => Returned ([], t)
  | S k' =>
      match _get_next_proxy t with
      | Returned (proxy, t') =>
          match next_proxies k' t' with
          | Returned (rest, t'') => Returned (proxy :: rest, t'')
          | Raised => Raised
          end
      | Raised => Raised
      end
  end.

(** What [session.get] comes back with: a response, or an exception. *)
Inductive Reply : Type :=
| Response (status_code : Z) (text : string)
| RequestException.

(** One call of [session.get]: the session and the address used. *)
Record Request : Type := mkRequest {
  request_session : Session;
  request_url : string
}.

Section FetchWithRetry.

(** [self.scraperapi_key]. *)
Variable scraperapi_key : string.

(** The reply to the [n]-th request of the call, through the given
    session, to the given address. *)
Variable http : nat -> Session -> string -> Reply.

Definition scraper_url (url : string) : string :=
  ("http://api.scraperapi.com?api_key=" ++ scraperapi_key ++ "&url=" ++ url)%string.

Definition blocked (status_code : Z) : bool :=
  (status_code =? 403) || (status_code =? 429) || (status_code =? 417).

(** The [for attempt in range(max_retries)] loop of lines 359-389, from
    [attempt] on; [fuel] is the number of values of [attempt] left.  The
    requests made are logged. *)
Fixpoint retry_loop (fuel : nat) (attempt : Z) (max_retries : Z)
         (session_to_use : Session) (url : string)
         (t : Transport) (log : list Request)
  : option string * Transport * list Request :=
  match fuel with
  | O => (None, t, log)
  | S fuel' =>
      let target := if use_scraperapi t then scraper_url url else url in
      let log' := log ++ [mkRequest session_to_use target] in
      match http (List.length log) session_to_use target with
      | Response status_code text =>
          if status_code =? 200 then (Some text, t, log')
          else if blocked status_code then
            if attempt <? max_retries - 1 then
              if negb (use_scraperapi t) then
                match _rotate_proxy t with
                | Returned t' =>
                    retry_loop fuel' (attempt + 1) max_retries
                               session_to_use url t' log'
                | Raised =>
                    retry_loop fuel' (attempt + 1) max_retries
                               session_to_use url t log'
                end
              else retry_loop fuel' (attempt + 1) max_retries
                              session_to_use url t log'
            else retry_loop fuel' (attempt + 1) max_retries
                            session_to_use url t log'
          else retry_loop fuel' (attempt + 1) max_retries
                          session_to_use url t log'
      | RequestException =>
          retry_loop fuel' (attempt + 1) max_retries session_to_use url t log'
      end
  end.

(** [fetch_with_retry(url, max_retries, session)]: the text of the
    response returned, the transport attributes afterwards, and the
    requests made. *)
Definition fetch_with_retry (url : string) (max_retries : Z)
           (session_arg : option Session) (t : Transport)
  : option string * Transport * list Request :=
  let session_to_use :=
    match session_arg with
    | Some s => s
    | None => session t
    end in
  retry_loop (Z.to_nat max_retries) 0 max_retries session_to_use url t [].

(** The reply to the [n]-th request of a call that uses session [s] for
    address [url]. *)
Definition reply_to (t : Transport) (s : Session) (url : string) (n : nat) : Reply :=
  http n s (if use_scraperapi t then scraper_url url else url).

Definition is_ok (r : Reply) : bool :=
  match r with
  | Response status_code _ => status_code =? 200
  | RequestException => false
  end.

End FetchWithRetry.

(** ** Search addresses *)

(** [str(n)] and [f"{n}"] for an integer: decimal digits, with a minus
    sign for a negative number. *)
Definition str_of_int (n : Z) : string :=
  DecimalString.NilZero.string_of_int (Z.to_int n).

Definition city_suffixes : list (string * string) :=
  [("1", "delhi-ncr"); ("2", "delhi-ncr"); ("3", "delhi-ncr");
   ("4", "delhi-ncr"); ("5", "delhi-ncr"); ("6", "delhi-ncr");
   ("7", "noida"); ("8", "gurgaon"); ("9", "ghaziabad"); ("10", "faridabad");
   ("12", "mumbai"); ("13", "mumbai"); ("14", "mumbai"); ("15", "mumbai");
   ("16", "mumbai"); ("17", "mumbai"); ("19", "pune");
   ("20", "bangalore"); ("21", "bangalore"); ("22", "bangalore");
   ("23", "bangalore"); ("217", "bangalore"); ("252", "bangalore");
   ("25", "kolkata"); ("26", "kolkata"); ("27", "kolkata");
   ("28", "kolkata"); ("29", "kolkata"); ("30", "kolkata");
   ("32", "chennai"); ("33", "chennai"); ("34", "chennai");
   ("35", "chennai"); ("36", "chennai");
   ("38", "hyderabad"); ("268", "hyderabad"); ("269", "hyderabad");
   ("45", "ahmedabad"); ("46", "gandhinagar"); ("47", "ahmedabad");
   ("48", "ahmedabad"); ("49", "ahmedabad")]%string.

Fixpoint assoc_get (k : string) (d : list (string * string)) : option string :=
  match d with
  | [] => None
  | (k', v) :: rest => if String.eqb k k' then Some v else assoc_get k rest
  end.

(** [city_suffixes.get(str(city_id), "delhi-ncr")], for a city id that is
    a string, as the keys of the city map are. *)
Definition _get_city_url_suffix (city_id : string) : string :=
  match assoc_get city_id city_suffixes with
  | Some suffix => suffix
  | None => "delhi-ncr"%string
  end.

Definition is_in (n : Z) (l : list Z) : bool := existsb (Z.eqb n) l.

Definition apartments_url (city_id : string) (property_type : Z) : string :=
  ("https://www.99acres.com/search/property/buy/residential-apartments/?city="
     ++ city_id ++ "&property_type=" ++ str_of_int property_type
     ++ "&preference=S&area_unit=1&res_com=R")%string.

Definition builder_floor_url (city_id : string) (property_type : Z) : string :=
  ("https://www.99acres.com/search/property/buy/builder-floor/"
     ++ _get_city_url_suffix city_id ++ "?city="
     ++ city_id ++ "&property_type=" ++ str_of_int property_type
     ++ "&preference=S&area_unit=1&res_com=R")%string.

Definition build_search_url (city_id : string) (property_type page : Z) : string :=
  let base_url :=
    if is_in property_type [1; 2] then apartments_url city_id property_type
    else if is_in property_type [3; 4; 5]
         then builder_floor_url city_id property_type
         else apartments_url city_id property_type in
  if page >? 1 then (base_url ++ "&page=" ++ str_of_int page)%string
  else base_url.

(** ** Reading the pagination of a payload *)

(** A [get] result with JSON [null] counted as absent, as the tests
    [total_pages is None] count it. *)
Definition present (o : option pyval) : option pyval :=
  match o with
  | Some PNone => None
  | Some v => Some v
  | None => None
  end.

(** The first total page count present in [srp.pagination]: under
    [totalPages], else under [total_pages]. *)
Definition alternative_total (alt : list (string * pyval)) : option pyval :=
  match present (Py.dict_lookup "totalPages" alt) with
  | Some v => Some v
  | None => present (Py.dict_lookup "total_pages" alt)
  end.

(** What [d.get(key, {})] is used as afterwards: a dict, when the entry is
    absent or is one. *)
Definition dict_or_empty (o : option pyval) : option (list (string * pyval)) :=
  match o with
  | None => Some []
  | Some (PDict d) => Some d
  | Some _ => None
  end.

(** [pagination.get('currentPage', 1)]. *)
Definition current_page_of (pg : list (string * pyval)) : pyval :=
  match Py.dict_lookup "currentPage" pg with
  | Some v => v
  | None => PInt 1
  end.

(** ** The summary report *)

(** One entry of the data of a city: its ['property_type'] (the name of
    the type) and its ['count']. *)
Record TypeData : Type := mkTypeData {
  data_property_type : string;
  data_count : Z
}.

(** One value of [all_results]: ['city_name'], when given, and the items
    of ['data']. *)
Record CityResult : Type := mkCityResult {
  result_city_name : option string;
  result_data : list (Z * TypeData)
}.

Record CitySummary : Type := mkCitySummary {
  summary_city_name : string;
  summary_property_types : list (string * Z);
  summary_total : Z
}.

Record Summary : Type := mkSummary {
  total_cities_processed : Z;
  city_summary : list (string * CitySummary);
  property_type_totals : list (string * Z);
  grand_total : Z
}.

(** The values of [self.property_types]. *)
Definition property_type_names : list string :=
  ["Residential Apartment"; "Independent House/Villa"; "Residential Land";
   "Independent/Builder Floor"; "Farm House"]%string.

(** [d[k] = v] on the items of a dict: the value of an existing key is
    replaced in place, a new key goes to the end. *)
Fixpoint dict_set {V : Type} (k : string) (v : V) (d : list (string * V))
  : list (string * V) :=
  match d with
  | [] => [(k, v)]
  | (k', v') :: rest =>
      if String.eqb k k' then (k, v) :: rest
      else (k', v') :: dict_set k v rest
  end.

(** [d[k] += n]: [KeyError] when the key is missing. *)
Fixpoint dict_add (k : string) (n : Z) (d : list (string * Z))
  : outcome (list (string * Z)) :=
  match d with
  | [] => Raised
  | (k', v') :: rest =>
      if String.eqb k k' then Returned ((k', v' + n) :: rest)
      else match dict_add k n rest with
           | Returned rest' => Returned ((k', v') :: rest')
           | Raised => Raised
           end
  end.

(** The inner loop of [create_summary_report], lines 777-784, over the
    items of the data of one city. *)
Fixpoint summarize_types (data : list (Z * TypeData))
         (property_types totals : list (string * Z)) (city_total : Z)
  : outcome (list (string * Z) * list (string * Z) * Z) :=
  match data with
  | [] => Returned (property_types, totals, city_total)
  | (_, entry) :: rest =>
      let count := data_count entry in
      let property_name := data_property_type entry in
      let property_types' := dict_set property_name count property_types in
      match dict_add property_name count totals with
      | Returned totals' =>
          summarize_types rest property_types' totals' (city_total + count)
      | Raised => Raised
      end
  end.

(** The outer loop, lines 770-788, over the items of [all_results]. *)
Fixpoint summarize_cities (all_results : list (string * CityResult))
         (summary : Summary) : outcome Summary :=
  match all_results with
  | [] => Returned summary
  | (city_id, city_data) :: rest =>
      let city_name :=
        match result_city_name city_data with
        | Some name => name
        | None => "Unknown"%string
        end in
      match summarize_types (result_data city_data) []
                            (property_type_totals summary) 0 with
      | Returned (property_types, totals, city_total) =>
          summarize_cities
            rest
            (mkSummary (total_cities_processed summary)
                       (dict_set city_id
                                 (mkCitySummary city_name property_types
                                                city_total)
                                 (city_summary summary))
                       totals
                       (grand_total summary + city_total))
      | Raised => Raised
      end
  end.

(** [create_summary_report], up to the write of the summary file; the
    pass-through fields of ['scrape_info'] are left out. *)
Definition create_summary_report (all_results : list (string * CityResult))
  : outcome Summary :=
  summarize_cities
    all_results
    (mkSummary (Z.of_nat (List.length all_results)) []
               (map (fun pt => (pt, 0)) property_type_names) 0).

Definition sum_values (d : list (string * Z)) : Z :=
  fold_right (fun kv acc => snd kv + acc) 0 d.

Definition sum_counts (data : list (Z * TypeData)) : Z :=
  fold_right (fun kv acc => data_count (snd kv) + acc) 0 data.

Definition sum_results (all_results : list (string * CityResult)) : Z :=
  fold_right (fun kv acc => sum_counts (result_data (snd kv)) + acc)
             0 all_results.

(** The names of the types of every entry of the results. *)
Definition result_names (all_results : list (string * CityResult)) : list string :=
  flat_map (fun kv => map (fun e => data_property_type (snd e))
                          (result_data (snd kv))) all_results.

(** ** The cities of a run *)

(** [l[:n]] for a Python list. *)
Definition slice_to {A : Type} (n : Z) (l : list A) : list A :=
  if n <? 0
  then firstn (Z.to_nat (Z.of_nat (List.length l) + n)) l
  else firstn (Z.to_nat n) l.

Section Cities.

(** [int(cid)] for a key of the city map; [None] when it raises
    [ValueError]. *)
Variable int_of_str : string -> option Z.

(** The list comprehension of line 813. *)
Fixpoint filter_cities (specific_cities : list Z)
         (items : list (string * string)) : outcome (list (string * string)) :=
  match items with
  | [] => Returned []
  | (cid, cname) :: rest =>
      match int_of_str cid with
      | None => Raised
      | Some n =>
          match filter_cities specific_cities rest with
          | Returned kept =>
              Returned (if is_in n specific_cities
                        then (cid, cname) :: kept else kept)
          | Raised => Raised
          end
      end
  end.

(** Lines 811-819 of [run]: the cities to process, from the items of the
    city map. *)
Definition cities_to_process (cities : list (string * string))
           (specific_cities : option (list Z)) (max_cities : option Z)
  : outcome (list (string * string)) :=
  let selected :=
    match specific_cities with
    | Some (c :: cs) => filter_cities (c :: cs) cities
    | _ => Returned cities
    end in
  match selected with
  | Returned l =>
      match max_cities with
      | Some n => if n =? 0 then Returned l else Returned (slice_to n l)
      | None => Returned l
      end
  | Raised => Raised
  end.

End Cities.

(** ** File names *)

Section FileNames.

(** [c.isalnum()] and [c.isspace()] for a character. *)
Variable isalnum : ascii -> bool.
Variable isspace : ascii -> bool.

Definition kept_in_name (c : ascii) : bool :=
  isalnum c || Ascii.eqb c " " || Ascii.eqb c "-" || Ascii.eqb c "_".

Fixpoint lstrip (l : list ascii) : list ascii :=
  match l with
  | [] => []
  | c :: rest => if isspace c then lstrip rest else l
  end.

(** [s.rstrip()]: trailing whitespace removed. *)
Definition rstrip (l : list ascii) : list ascii :=
  List.rev (lstrip (List.rev l)).

(** [safe_city_name], lines 606 and 735. *)
Definition safe_city_name (city_name : string) : string :=
  string_of_list_ascii
    (rstrip (filter kept_in_name (list_ascii_of_string city_name))).

End FileNames.

(** ** Reading a log *)

Section Logs.

Variable Rec Category : Type.

(** The record counts of the checkpoints of a log, in order. *)
Definition checkpoint_counts (log : list (Event Rec Category)) : list Z :=
  flat_map (fun e => match e with
                     | EvSaveProgress _ _ n => [n]
                     | _ => []
                     end) log.

(** The record lists written under output/json_files, in order. *)
Definition written_files (log : list (Event Rec Category)) : list (list Rec) :=
  flat_map (fun e => match e with
                     | EvSaveIntermediate _ props _ _ => [props]
                     | _ => []
                     end) log.

(** Two dispatched batches in their order: the same batch again, or a
    batch whose pages all come later. *)
Definition batch_before (b1 b2 : list Z) : Prop :=
  b1 = b2 \/ forall p q, In p b1 -> In q b2 -> p < q.

Variable cfg : Config.

Implicit Types (st : State Rec Category).

(** A page number that the loop cannot pass: a page ceiling in force, or a
    known total page count. *)
Definition limited st (bound : Z) : Prop :=
  (max_pages cfg = Some bound /\ bound <> 0)
  \/ (total_pages_estimate st < 999 /\ bound = total_pages_estimate st).

(** The pages a harvest may fetch: from its start page on, within the
    page ceiling when one is in force. *)
Definition allowed (p : Z) : Prop :=
  start_page cfg <= p
  /\ forall m, max_pages cfg = Some m -> m <> 0 -> p <= m.

(** What holds of the log at the top of a pass, with [bound] the first
    page not yet reached. *)
Definition log_in_order st (bound : Z) : Prop :=
  Forall (Forall (fun p => allowed p /\ p < bound)) (dispatched (trace st))
  /\ StronglySorted batch_before (dispatched (trace st))
  /\ written_files (trace st) = []
  /\ StronglySorted Z.le (checkpoint_counts (trace st))
  /\ Forall (fun n => n <= len (all_properties st))
            (checkpoint_counts (trace st))
  /\ current_properties st = all_properties st
  /\ Forall (fun b => StronglySorted Z.lt b /\ (List.length b <= 5)%nat)
            (dispatched (trace st)).

End Logs.

Arguments checkpoint_counts {Rec Category} log.
Arguments written_files {Rec Category} log.
Arguments limited {Rec Category} cfg st bound.
Arguments log_in_order {Rec Category} cfg st bound.

(** ** Sample collaborators

    Stand-ins for the network and the parsers, with integers for records
    and [unit] for the key of the harvest. *)

Module Sample.

(** Every page carries one record, its own number, and no total. *)
Definition every_page : nat -> Z -> option (list Z * Z * Z) :=
  fun _ p => Some ([p], p, 999).

(** Pages 1 to 7 carry one record each, later pages nothing. *)
Definition seven_pages : nat -> Z -> option (list Z * Z * Z) :=
  fun _ p => if p <=? 7 then Some ([p], p, 999) else Some ([], 1, 1).

(** The first two dispatches yield nothing, the later ones one record per
    page. *)
Definition third_time_lucky : nat -> Z -> option (list Z * Z * Z) :=
  fun d p => if (d <? 2)%nat then Some ([], 1, 1) else Some ([p], p, 999).

(** Page 2 reports 20 pages in total, page 4 reports 30, the others
    none. *)
Definition conflicting_totals : nat -> Z -> option (list Z * Z * Z) :=
  fun _ p =>
    if p =? 2 then Some ([p], p, 20)
    else if p =? 4 then Some ([p], p, 30)
    else Some ([p], p, 999).

(** The fetches of a batch complete in descending page order. *)
Definition reversed : nat -> list (PageResult Z) -> list (PageResult Z) :=
  fun _ l => rev l.

(** A payload with [n] properties and no pagination entry. *)
Definition listing (n : nat) : pyval :=
  PDict [("srp"%string,
          PDict [("pageData"%string,
                  PDict [("properties"%string,
                          PList (repeat (PDict [("id"%string, PInt 1)]) n))])])].

(** The pattern matches the whole text, which parses to a listing of 27
    properties. *)
Definition whole_text : string -> option string := fun html => Some html.
Definition full_page : string -> option pyval := fun _ => Some (listing 27).

(** The pattern matches nowhere. *)
Definition no_match : string -> option string := fun _ => None.
Definition no_json : string -> option pyval := fun _ => None.

(** Every call of [fetch_with_retry] fails. *)
Definition always_fails : nat -> option string := fun _ => None.

(** A result without records that reports 7 pages in total. *)
Definition empty_with_total : PageResult Z := mkPageResult 1 [] 1 7.

(** The harvest with default configuration, at the top of the first
    pass. *)
Definition fresh : State Z unit := enter default_config tt false 0 [].

(** The same harvest after its first pass, for two of the fetchers. *)
Definition after_first_batch : State Z unit :=
  state_of (loop_body every_page reversed default_config fresh).

Definition after_conflict : State Z unit :=
  state_of (loop_body conflicting_totals reversed default_config fresh).

End Sample.

(** ** The property types of a city *)

(** [self.property_types]. *)
Definition property_types : list (Z * string) :=
  [(1, "Residential Apartment"); (2, "Independent House/Villa");
   (3, "Residential Land"); (4, "Independent/Builder Floor");
   (5, "Farm House")]%string.

Fixpoint type_name (property_type : Z) (d : list (Z * string)) : option string :=
  match d with
  | [] => None
  | (k, v) :: rest => if property_type =? k then Some v
                      else type_name property_type rest
  end.

Section City.

Variable Rec : Type.

(** One value of [city_data]. *)
Record TypeResult : Type := mkTypeResult {
  type_result_property_type : string;
  type_result_city_name : string;
  type_result_city_id : string;
  type_result_properties : list Rec;
  type_result_count : Z
}.

(** [d[k] = v] on the items of a dict with integer keys. *)
Fixpoint dict_set_int {V : Type} (k : Z) (v : V) (d : list (Z * V))
  : list (Z * V) :=
  match d with
  | [] => [(k, v)]
  | (k', v') :: rest =>
      if k =? k' then (k, v) :: rest
      else (k', v') :: dict_set_int k v rest
  end.

(** What the [n]-th call of [scrape_city_property_type] of the city gives
    for a property type: the records, or an exception. *)
Variable harvest : nat -> Z -> outcome (list Rec).

(** The loop of lines 694-718 over the property types left, with the
    number of harvests made so far. *)
Fixpoint scrape_types (city_id city_name : string) (types : list Z)
         (calls : nat) (city_data : list (Z * TypeResult))
  : list (Z * TypeResult) :=
  match types with
  | [] => city_data
  | property_type :: rest =>
      match type_name property_type property_types with
      | Some name =>
          match harvest calls property_type with
          | Returned props =>
              scrape_types
                city_id city_name rest (S calls)
                (match props with
                 | [] => city_data
                 | _ :: _ =>
                     dict_set_int property_type
                                  (mkTypeResult name city_name city_id props
                                                (Z.of_nat (List.length props)))
                                  city_data
                 end)
          | Raised => scrape_types city_id city_name rest (S calls) city_data
          end
      | None => scrape_types city_id city_name rest calls city_data
      end
  end.

(** [scrape_city], without its prints. *)
Definition scrape_city (specific_property_types : option (list Z))
           (city_id city_name : string) : list (Z * TypeResult) :=
  let property_types_to_scrape :=
    match specific_property_types with
    | Some (t :: ts) => t :: ts
    | _ => map fst property_types
    end in
  scrape_types city_id city_name property_types_to_scrape 0 [].

(** The value stored in [all_results] for a city, as the report reads
    it. *)
Definition city_result (city_name : string) (city_data : list (Z * TypeResult))
  : CityResult :=
  mkCityResult
    (Some city_name)
    (map (fun kv => (fst kv,
                     mkTypeData (type_result_property_type (snd kv))
                                (type_result_count (snd kv)))) city_data).

(** The number of records held by the data of a city. *)
Definition records_held (city_data : list (Z * TypeResult)) : Z :=
  fold_right (fun kv acc =>
                Z.of_nat (List.length (type_result_properties (snd kv))) + acc)
             0 city_data.

(** What holds of every entry of the data of a city. *)
Definition sound_entry (kv : Z * TypeResult) : Prop :=
  type_name (fst kv) property_types = Some (type_result_property_type (snd kv))
  /\ type_result_properties (snd kv) <> []
  /\ type_result_count (snd kv)
     = Z.of_nat (List.length (type_result_properties (snd kv))).

(** [d.get(k)] on the items of a dict with integer keys. *)
Fixpoint dict_get_int {V : Type} (k : Z) (d : list (Z * V)) : option V :=
  match d with
  | [] => None
  | (k', v) :: rest => if k =? k' then Some v else dict_get_int k rest
  end.

(** The harvests the loop of lines 694-718 makes for the property types
    left: the number of each call with its property type, in the order of
    the calls.  A type that is not a key of [property_types] is skipped. *)
Fixpoint harvests_made (types : list Z) (calls : nat) : list (nat * Z) :=
  match types with
  | [] => []
  | property_type :: rest =>
      match type_name property_type property_types with
      | Some _ => (calls, property_type) :: harvests_made rest (S calls)
      | None => harvests_made rest calls
      end
  end.

(** The property types [scrape_city] goes through, line 691. *)
Definition property_types_to_scrape (specific_property_types : option (list Z))
  : list Z :=
  match specific_property_types with
  | Some (t :: ts) => t :: ts
  | _ => map fst property_types
  end.

(** A harvest that leaves the data of the city as it is: it raised, or
    returned no record. *)
Definition fruitless (o : outcome (list Rec)) : Prop :=
  o = Raised \/ o = Returned [].

End City.

Arguments fruitless {Rec} o.
Arguments mkTypeResult {Rec}.
Arguments type_result_property_type {Rec} t.
Arguments type_result_city_name {Rec} t.
Arguments type_result_city_id {Rec} t.
Arguments type_result_properties {Rec} t.
Arguments type_result_count {Rec} t.
Arguments scrape_types {Rec} harvest city_id city_name types calls city_data.
Arguments scrape_city {Rec} harvest specific_property_types city_id city_name.
Arguments city_result {Rec} city_name city_data.
Arguments records_held {Rec} city_data.
Arguments sound_entry {Rec} kv.

(** ** More sample inputs *)

Module Cases.

(** A test-mode run, and a run with a ceiling of 7 pages. *)
Definition test_config : Config := mkConfig true None 1.
Definition ceiling_config : Config := mkConfig false (Some 7) 1.

(** Three proxies, the index on the second. *)
Definition three_proxies : Transport :=
  mkTransport ["p0"; "p1"; "p2"]%string 1 false (mkSession (Some "p0"%string)).

(** Two replies with status 403, then a reply with status 200. *)
Definition blocked_twice : nat -> Session -> string -> Reply :=
  fun n _ _ => if (n <? 2)%nat then Response 403 "blocked"
               else Response 200 "page".

(** A payload with one property, 12 pages in srp.pageData.pagination and
    40 in srp.pagination. *)
Definition two_totals : pyval :=
  PDict [("srp"%string,
          PDict [("pageData"%string,
                  PDict [("properties"%string,
                          PList [PDict [("id"%string, PInt 1)]]);
                         ("pagination"%string,
                          PDict [("totalPages"%string, PInt 12);
                                 ("currentPage"%string, PInt 3)])]);
                 ("pagination"%string,
                  PDict [("totalPages"%string, PInt 40)])])].

(** The same payload with a list where srp.pageData.pagination should be
    an object. *)
Definition bad_pagination : pyval :=
  PDict [("srp"%string,
          PDict [("pageData"%string,
                  PDict [("properties"%string,
                          PList [PDict [("id"%string, PInt 1)]]);
                         ("pagination"%string, PList [])])])].

Definition parses_to (v : pyval) : string -> option pyval := fun _ => Some v.

(** The results of two cities. *)
Definition two_cities : list (string * CityResult) :=
  [("1"%string,
    mkCityResult (Some "Delhi"%string)
                 [(1, mkTypeData "Residential Apartment" 27);
                  (3, mkTypeData "Residential Land" 5)]);
   ("12"%string,
    mkCityResult None [(1, mkTypeData "Residential Apartment" 10)])].

(** A city map, and [int] on its keys. *)
Definition city_map : list (string * string) :=
  [("1", "Delhi"); ("12", "Mumbai"); ("20", "Bangalore");
   ("25", "Kolkata")]%string.

Definition int_of_key : string -> option Z :=
  fun s => option_map Z.of_int (DecimalString.NilZero.int_of_string s).

(** [isalnum] and [isspace] on the ASCII characters. *)
Definition ascii_isalnum (c : ascii) : bool :=
  let n := nat_of_ascii c in
  ((48 <=? n) && (n <=? 57) || (65 <=? n) && (n <=? 90)
   || (97 <=? n) && (n <=? 122))%nat.

(** The harvests of a city: types 1 and 3 have records, the harvest of
    type 2 raises, the others find nothing. *)
Definition some_types : nat -> Z -> outcome (list Z) :=
  fun _ property_type =>
    if property_type =? 1 then Returned [11; 12; 13]
    else if property_type =? 2 then Raised
    else if property_type =? 3 then Returned [31]
    else Returned [].

(** A harvest that returns one record at the first call and raises at
    every later one. *)
Definition first_call_only : nat -> Z -> outcome (list Z) :=
  fun n _ => match n with
             | O => Returned [31]
             | S _ => Raised
             end.

Definition ascii_isspace (c : ascii) : bool :=
  let n := nat_of_ascii c in
  ((n =? 32) || (9 <=? n) && (n <=? 13) || (28 <=? n) && (n <=? 31))%nat.

End Cases.
(** * Properties of the extraction *)

Section ExtractionFacts.

Variable re_search : string -> option string.
Variable json_loads : string -> option pyval.

Lemma try_except_total (A : Type) (body : exc (option A)) (r : A) :
  exists x, try_except body (Ok r) = Ok x.
Proof.
  destruct body as [[x|]|e]; simpl; eauto.
Qed.

Lemma extract_total (html : string) :
  exists r, extract_properties_from_html re_search json_loads html = Ok r.
Proof.
  unfold extract_properties_from_html. apply try_except_total.
Qed.

(** A [return] inside the [try] is reached only through three nested
    dicts. *)
Lemma extract_from_data_returns (data : pyval) (r : extraction) :
  extract_from_data data = Ok (Some r) ->
  exists d srp pd props,
    data = PDict d
    /\ Py.dict_lookup "srp" d = Some (PDict srp)
    /\ Py.dict_lookup "pageData" srp = Some (PDict pd)
    /\ Py.dict_lookup "properties" pd = Some props
    /\ fst (fst r) = props.
Proof.
  unfold extract_from_data.
  destruct data as [ | b | n | f | s | l | d ]; simpl; try discriminate.
  - destruct (Py.is_substring "srp" s); simpl; discriminate.
  - destruct (existsb (Py.is_str "srp") l); simpl; discriminate.
  - destruct (Py.dict_lookup "srp" d) as [vsrp|] eqn:Hsrp; simpl;
      [ | discriminate ].
    destruct vsrp as [ | b | n | f | s | l | srp ]; simpl; try discriminate.
    + destruct (Py.is_substring "pageData" s); simpl; discriminate.
    + destruct (existsb (Py.is_str "pageData") l); simpl; discriminate.
    + destruct (Py.dict_lookup "pageData" srp) as [vpd|] eqn:Hpd; simpl;
        [ | discriminate ].
      destruct vpd as [ | b | n | f | s | l | pd ]; simpl; try discriminate.
      * destruct (Py.is_substring "properties" s); simpl; discriminate.
      * destruct (existsb (Py.is_str "properties") l); simpl; discriminate.
      * destruct (Py.dict_lookup "properties" pd) as [props|] eqn:Hp; simpl;
          [ | discriminate ].
        intros H. exists d, srp, pd, props. repeat split; trivial.
        repeat match type of H with
               | bind ?m _ = _ => destruct m; simpl in H; [ | discriminate ]
               end.
        injection H as <-. reflexivity.
Qed.

Lemma extract_default_when_no_return (html : string) :
  (forall data_str data r,
      re_search html = Some data_str ->
      json_loads data_str = Some data ->
      extract_from_data data <> Ok (Some r)) ->
  extract_properties_from_html re_search json_loads html
  = Ok (PList [], PInt 1, PInt 1).
Proof.
  intros H. unfold extract_properties_from_html.
  destruct (re_search html) as [data_str|] eqn:Hre; [ | reflexivity ].
  destruct (json_loads data_str) as [data|] eqn:Hjs; [ | reflexivity ].
  simpl.
  destruct (extract_from_data data) as [[r|]|e] eqn:Hret; simpl; trivial.
  exfalso. exact (H data_str data r eq_refl Hjs Hret).
Qed.

(** C6, as the code has it: the extraction returns a result for every
    input string and never raises, and for an input without parseable
    property data the result is the empty list, current page 1 and total
    pages 1 (a concrete total, not the 999 marker). *)
Theorem extract_never_raises_and_defaults (html : string) :
  (exists r, extract_properties_from_html re_search json_loads html = Ok r)
  /\ (payload_properties re_search json_loads html = None ->
      extract_properties_from_html re_search json_loads html
      = Ok (PList [], PInt 1, PInt 1)).
Proof.
  split; [ apply extract_total | ].
  intros Hnone. apply extract_default_when_no_return.
  intros data_str data r Hre Hjs Hret.
  apply extract_from_data_returns in Hret.
  destruct Hret as (d & srp & pd & props & -> & Hsrp & Hpd & Hp & _).
  unfold payload_properties in Hnone.
  rewrite Hre, Hjs, Hsrp, Hpd, Hp in Hnone. discriminate.
Qed.

(** C10: a payload with a property list and no pagination entry at all
    is reported with total pages 999 exactly when it has at least 25
    properties, and with total pages 1 otherwise, which the batch loop
    takes for a known total. *)
Theorem extract_without_pagination
        (html data_str : string) (d srp pd : list (string * pyval))
        (props : list pyval) :
  re_search html = Some data_str ->
  json_loads data_str = Some (PDict d) ->
  Py.dict_lookup "srp" d = Some (PDict srp) ->
  Py.dict_lookup "pageData" srp = Some (PDict pd) ->
  Py.dict_lookup "properties" pd = Some (PList props) ->
  Py.dict_lookup "pagination" pd = None ->
  Py.dict_lookup "pagination" srp = None ->
  extract_properties_from_html re_search json_loads html
  = Ok (PList props, PInt 1,
        PInt (if Z.of_nat (List.length props) >=? 25 then 999 else 1)).
Proof.
  intros Hre Hjs Hsrp Hpd Hp Hpag Halt.
  unfold extract_properties_from_html. rewrite Hre, Hjs. simpl.
  unfold extract_from_data. simpl.
  rewrite Hsrp. simpl. rewrite Hpd. simpl. rewrite Hp. simpl.
  rewrite Hpag. simpl. rewrite Halt. simpl.
  destruct (Z.of_nat (List.length props) >=? 25); reflexivity.
Qed.

End ExtractionFacts.

(** * Properties of the per-page retry loop *)

Section FetchFacts.

Variable re_search : string -> option string.
Variable json_loads : string -> option pyval.
Variable fetch_with_retry : nat -> option string.
Variable page_num : Z.

Lemma fetch_outcome_later (calls : nat) (t : page_tuple) (n : nat) :
  yields_records re_search json_loads fetch_with_retry calls = false ->
  fetch_outcome re_search json_loads fetch_with_retry page_num (S calls) t n ->
  fetch_outcome re_search json_loads fetch_with_retry page_num calls t n.
Proof.
  intros Hno [(i & props & cur & tot & Hi & Hbefore & Hrest) | (Hall & Hrest)].
  - left. exists i, props, cur, tot. split; [ lia | ]. split; trivial.
    intros j Hj. destruct (Nat.eq_dec j calls) as [-> | Hne]; trivial.
    apply Hbefore. lia.
  - right. split; trivial.
    intros j Hj. destruct (Nat.eq_dec j calls) as [-> | Hne]; trivial.
    apply Hall. lia.
Qed.

Lemma fetch_loop_outcome (fuel calls : nat) :
  (calls + fuel = 5)%nat -> (1 <= fuel)%nat ->
  exists t n,
    fetch_loop re_search json_loads fetch_with_retry
               fuel page_num (Z.of_nat calls) calls = Ok (t, n)
    /\ fetch_outcome re_search json_loads fetch_with_retry page_num calls t n.
Proof.
  revert calls. induction fuel as [ | fuel IH ]; intros calls Hsum Hpos;
    [ lia | ].
  assert (Hnext : Z.of_nat calls + 1 = Z.of_nat (S calls)) by lia.
  assert (Hlast : (fuel = 0 -> calls = 4)%nat) by lia.
  simpl fetch_loop. unfold max_retries_per_page.
  destruct (fetch_with_retry calls) as [text|] eqn:Hfetch.
  - destruct (extract_total re_search json_loads text) as [[[props cur] tot] Hex].
    rewrite Hex. simpl bind.
    assert (Hatt : attempt re_search json_loads fetch_with_retry calls = Some (props, cur, tot)).
    { unfold attempt. now rewrite Hfetch, Hex. }
    destruct (Py.truthy props) eqn:Htruthy.
    + exists (page_num, props, cur, tot), (S calls). split; trivial.
      left. exists calls, props, cur, tot. repeat split; trivial; lia.
    + assert (Hno : yields_records re_search json_loads fetch_with_retry calls = false).
      { unfold yields_records. now rewrite Hatt. }
      destruct (Z.of_nat calls + 1 <? 5) eqn:Hlt.
      * rewrite Hnext.
        destruct (IH (S calls)) as (t & n & Hrun & Hout); try lia.
        exists t, n. split; trivial. now apply fetch_outcome_later.
      * assert (calls = 4%nat) by lia. subst calls.
        exists (page_num, PList [], cur, tot), 5%nat. split; trivial.
        right. repeat split.
        -- intros j Hj. assert (j = 4%nat) by lia. now subst j.
        -- unfold exhausted_metadata. now rewrite Hatt.
  - assert (Hatt : attempt re_search json_loads fetch_with_retry calls = None).
    { unfold attempt. now rewrite Hfetch. }
    assert (Hno : yields_records re_search json_loads fetch_with_retry calls = false).
    { unfold yields_records. now rewrite Hatt. }
    destruct (Z.of_nat calls + 1 <? 5) eqn:Hlt.
    + rewrite Hnext.
      destruct (IH (S calls)) as (t & n & Hrun & Hout); try lia.
      exists t, n. split; trivial. now apply fetch_outcome_later.
    + assert (calls = 4%nat) by lia. subst calls.
      exists (page_num, PList [], PInt 1, PInt 1), 5%nat. split; trivial.
      right. repeat split.
      * intros j Hj. assert (j = 4%nat) by lia. now subst j.
      * unfold exhausted_metadata. now rewrite Hatt.
Qed.

(** C5, as the code has it: [fetch_single_page] returns after at most 5
    attempts (calls of [fetch_with_retry]); it returns at the first attempt
    that yields a record, with the records and pagination fields of that
    attempt; and when none of the 5 attempts yields a record it returns the
    requested page number, the empty list and the pagination fields seen by
    the fifth attempt, which are current page 1 and total pages 1 when the
    fetch of the fifth attempt failed. *)
Theorem fetch_single_page_outcome :
  exists t n,
    fetch_single_page re_search json_loads fetch_with_retry page_num
    = Ok (t, n)
    /\ (n <= 5)%nat
    /\ (forall i,
           (i < 5)%nat ->
           yields_records re_search json_loads fetch_with_retry i = true ->
           (forall j, (j < i)%nat ->
                 yields_records re_search json_loads fetch_with_retry j = false) ->
           n = S i
           /\ exists props cur tot,
               attempt re_search json_loads fetch_with_retry i
               = Some (props, cur, tot)
               /\ t = (page_num, props, cur, tot))
    /\ ((forall j, (j < 5)%nat ->
               yields_records re_search json_loads fetch_with_retry j = false) ->
        n = 5%nat
        /\ t = (page_num, PList [],
                fst (exhausted_metadata re_search json_loads fetch_with_retry),
                snd (exhausted_metadata re_search json_loads fetch_with_retry))).
Proof.
  destruct (fetch_loop_outcome 5 0) as (t & n & Hrun & Hout); try lia.
  exists t, n. split; [ exact Hrun | ].
  destruct Hout as [(i & props & cur & tot & Hi & Hbefore & Hatt & Htr & -> & ->)
                   | (Hall & -> & ->)].
  - assert (Hyi : yields_records re_search json_loads fetch_with_retry i = true).
    { unfold yields_records. now rewrite Hatt. }
    split; [ lia | ]. split.
    + intros k Hk Hyk Hfirst.
      assert (k = i).
      { destruct (Nat.lt_trichotomy k i) as [Hlt | [Heq | Hgt]]; trivial.
        - rewrite Hbefore in Hyk by lia. discriminate.
        - rewrite Hfirst in Hyi by lia. discriminate. }
      subst k. split; trivial. now exists props, cur, tot.
    + intros Hnone. rewrite Hnone in Hyi by lia. discriminate.
  - split; [ lia | ]. split.
    + intros k Hk Hyk _. rewrite Hall in Hyk by lia. discriminate.
    + intros _. split; reflexivity.
Qed.

End FetchFacts.

(** * Properties of the result loop of a batch *)

Section ResultLoop.

Variable Rec : Type.

Implicit Types (r : PageResult Rec) (rs : list (PageResult Rec)).
Implicit Types (acc : BatchAcc Rec).

Lemma has_records_empty r :
  has_records r = false <-> properties r = [].
Proof.
  unfold has_records. destruct (properties r); simpl; split; congruence.
Qed.

Lemma process_result_observe acc r :
  estimate (process_result acc r)
  = if has_records r then observe (estimate acc) (total_pages r)
    else estimate acc.
Proof.
  unfold process_result, has_records, observe.
  destruct (is_empty (properties r)); reflexivity.
Qed.

Lemma fold_process_estimate rs acc :
  estimate (fold_left process_result rs acc)
  = fold_left observe (map total_pages (filter has_records rs)) (estimate acc).
Proof.
  revert acc. induction rs as [ | r rs IH ]; intros acc; simpl; trivial.
  rewrite IH, process_result_observe.
  destruct (has_records r); reflexivity.
Qed.

Lemma fold_process_properties rs acc :
  batch_properties (fold_left process_result rs acc)
  = batch_properties acc ++ flat_map properties rs.
Proof.
  revert acc. induction rs as [ | r rs IH ]; intros acc; simpl.
  - now rewrite app_nil_r.
  - rewrite IH. unfold process_result.
    destruct (properties r) eqn:Hp; simpl; trivial.
    now rewrite <- app_assoc.
Qed.

Lemma fold_process_counts rs acc :
  pages_with_properties (fold_left process_result rs acc)
  = pages_with_properties acc
    + Z.of_nat (List.length (filter has_records rs))
  /\ empty_pages_in_batch (fold_left process_result rs acc)
     + pages_with_properties (fold_left process_result rs acc)
     = empty_pages_in_batch acc + pages_with_properties acc
       + Z.of_nat (List.length rs).
Proof.
  revert acc. induction rs as [ | r rs IH ]; intros acc.
  - simpl. lia.
  - destruct (IH (process_result acc r)) as [IH1 IH2].
    assert (Hstep :
              pages_with_properties (process_result acc r)
              = pages_with_properties acc + (if has_records r then 1 else 0)
              /\ empty_pages_in_batch (process_result acc r)
                 = empty_pages_in_batch acc + (if has_records r then 0 else 1)).
    { unfold process_result, has_records.
      destruct (is_empty (properties r)); simpl; lia. }
    cbn [fold_left filter].
    destruct (has_records r); cbn [List.length]; lia.
Qed.

Lemma process_results_properties est rs :
  batch_properties (process_results est rs) = flat_map properties rs.
Proof.
  unfold process_results. now rewrite fold_process_properties.
Qed.

Lemma process_results_with_properties est rs :
  pages_with_properties (process_results est rs)
  = Z.of_nat (List.length (filter has_records rs)).
Proof.
  unfold process_results.
  destruct (fold_process_counts rs (mkBatchAcc [] 0 0 est)) as [H _].
  simpl in H. rewrite H. lia.
Qed.

Lemma process_results_empty_pages est rs :
  empty_pages_in_batch (process_results est rs)
  = Z.of_nat (List.length rs) - Z.of_nat (List.length (filter has_records rs)).
Proof.
  pose proof (process_results_with_properties est rs) as Hw.
  unfold process_results in *.
  destruct (fold_process_counts rs (mkBatchAcc [] 0 0 est)) as [_ H].
  simpl in H. lia.
Qed.

Lemma filter_nil_iff (A : Type) (f : A -> bool) (l : list A) :
  filter f l = [] <-> forallb (fun x => negb (f x)) l = true.
Proof.
  induction l as [ | x l IH ]; simpl; [ tauto | ].
  destruct (f x); simpl; [ | exact IH ].
  split; discriminate.
Qed.

Lemma filter_nil_existsb (A : Type) (f : A -> bool) (l : list A) :
  filter f l = [] <-> existsb f l = false.
Proof.
  induction l as [ | x l IH ]; simpl; [ tauto | ].
  destruct (f x); simpl; [ | exact IH ].
  split; discriminate.
Qed.

(** The test of line 548 holds exactly when no result of the batch has
    records. *)
Lemma all_empty_test est rs :
  (empty_pages_in_batch (process_results est rs)
   =? Z.of_nat (List.length rs)) = negb (existsb has_records rs).
Proof.
  rewrite process_results_empty_pages.
  destruct (existsb has_records rs) eqn:Hex; simpl.
  - apply Z.eqb_neq. intros Heq.
    assert (Hnil : filter has_records rs = []).
    { destruct (filter has_records rs); trivial. simpl in Heq. lia. }
    apply filter_nil_existsb in Hnil. congruence.
  - apply filter_nil_existsb in Hex. rewrite Hex. simpl. apply Z.eqb_eq. lia.
Qed.

(** The test of line 532 on [pages_with_properties]. *)
Lemma with_properties_test est rs :
  (pages_with_properties (process_results est rs) >? 0)
  = existsb has_records rs.
Proof.
  rewrite process_results_with_properties.
  destruct (existsb has_records rs) eqn:Hex.
  - destruct (filter has_records rs) eqn:Hf.
    + apply filter_nil_existsb in Hf. congruence.
    + simpl List.length. apply Z.gtb_lt. lia.
  - apply filter_nil_existsb in Hex. rewrite Hex. reflexivity.
Qed.

Lemma no_records_flat_map rs :
  existsb has_records rs = false -> flat_map properties rs = [].
Proof.
  induction rs as [ | r rs IH ]; simpl; trivial.
  destruct (has_records r) eqn:Hr; [ discriminate | ].
  apply has_records_empty in Hr. rewrite Hr. simpl. exact IH.
Qed.

Lemma observe_known est reported :
  est <> 999 -> observe est reported = est.
Proof.
  intros H. unfold observe. apply Z.eqb_neq in H. now rewrite H.
Qed.

Lemma fold_observe_known (totals : list Z) (est : Z) :
  est <> 999 -> fold_left observe totals est = est.
Proof.
  revert est. induction totals as [ | t totals IH ]; intros est H; simpl; trivial.
  rewrite observe_known by trivial. now apply IH.
Qed.

Lemma process_results_known est rs :
  est <> 999 -> estimate (process_results est rs) = est.
Proof.
  intros H. unfold process_results.
  rewrite fold_process_estimate. simpl. now apply fold_observe_known.
Qed.

Lemma process_results_first_known rs :
  estimate (process_results 999 rs) = first_known rs.
Proof.
  unfold process_results, first_known. rewrite fold_process_estimate. simpl.
  induction rs as [ | r rs IH ]; simpl; trivial.
  destruct (has_records r); simpl; trivial.
  unfold observe at 2. simpl.
  destruct (total_pages r <? 999) eqn:Hlt; trivial.
  apply fold_observe_known. apply Z.ltb_lt in Hlt. lia.
Qed.

Lemma process_results_estimate_cases est rs :
  estimate (process_results est rs) = est
  \/ (est = 999 /\ estimate (process_results est rs) < 999).
Proof.
  destruct (Z.eq_dec est 999) as [-> | Hne].
  - rewrite process_results_first_known. unfold first_known.
    destruct (find _ rs) as [r|] eqn:Hfind; [ | now left ].
    apply find_some in Hfind. destruct Hfind as [_ Hr].
    apply andb_true_iff in Hr. destruct Hr as [_ Hr].
    apply Z.ltb_lt in Hr. right. split; trivial.
  - left. now apply process_results_known.
Qed.

(** C7, as the code has it: the belief about the total page count after
    the result loop of a batch is the belief fed with the reported totals
    of the results that carry records, in page order; the total reported by
    a result without records is not fed. *)
Theorem estimate_fed_by_results_with_records (est : Z) rs :
  estimate (process_results est rs) = feed_results_with_records est rs.
Proof.
  unfold process_results, feed_results_with_records.
  now rewrite fold_process_estimate.
Qed.

End ResultLoop.

(** * Sorting a batch by page number *)

Section Sorting.

Variable Rec : Type.

Implicit Types (r : PageResult Rec) (l : list (PageResult Rec)).

Lemma insert_by_page_perm r l :
  Permutation (insert_by_page r l) (r :: l).
Proof.
  induction l as [ | x l IH ]; simpl; trivial.
  destruct (page_num r <=? page_num x); trivial.
  rewrite IH. apply perm_swap.
Qed.

Lemma sort_by_page_perm l :
  Permutation (sort_by_page l) l.
Proof.
  induction l as [ | r l IH ]; simpl; trivial.
  rewrite insert_by_page_perm. now constructor.
Qed.

Lemma insert_by_page_sorted r l :
  StronglySorted page_le l -> StronglySorted page_le (insert_by_page r l).
Proof.
  induction 1 as [ | x l Hsorted IH Hx ]; simpl.
  - repeat constructor.
  - destruct (page_num r <=? page_num x) eqn:Hle.
    + apply Z.leb_le in Hle. constructor; [ now constructor | ].
      constructor; trivial.
      eapply Forall_impl; [ | exact Hx ]. unfold page_le. intros; lia.
    + apply Z.leb_gt in Hle. constructor; trivial.
      eapply Permutation_Forall.
      * symmetry. apply insert_by_page_perm.
      * constructor; trivial. unfold page_le. lia.
Qed.

Lemma sort_by_page_sorted l :
  StronglySorted page_le (sort_by_page l).
Proof.
  induction l as [ | r l IH ]; simpl.
  - constructor.
  - now apply insert_by_page_sorted.
Qed.

(** A list sorted by page number and a permutation of it with strictly
    ascending page numbers are the same list. *)
Lemma sorted_perm_unique l1 :
  forall l2,
    StronglySorted page_le l1 -> StronglySorted page_lt l2 ->
    Permutation l1 l2 -> l1 = l2.
Proof.
  induction l1 as [ | a l1 IH ]; intros l2 H1 H2 Hperm.
  - apply Permutation_nil in Hperm. now subst.
  - destruct l2 as [ | b l2 ].
    + symmetry in Hperm. apply Permutation_nil in Hperm. discriminate.
    + inversion H1 as [ | ? ? Hs1 Ha ]; subst.
      inversion H2 as [ | ? ? Hs2 Hb ]; subst.
      assert (Hab : a = b).
      { assert (Hina : In a (b :: l2))
          by (eapply Permutation_in; [ exact Hperm | now left ]).
        assert (Hinb : In b (a :: l1))
          by (eapply Permutation_in; [ symmetry; exact Hperm | now left ]).
        destruct Hina as [ | Hina ]; [ congruence | ].
        destruct Hinb as [ | Hinb ]; [ congruence | ].
        rewrite Forall_forall in Ha, Hb.
        specialize (Ha _ Hinb). specialize (Hb _ Hina).
        unfold page_le, page_lt in *. lia. }
      subst b. f_equal. apply IH; trivial.
      eapply Permutation_cons_inv. exact Hperm.
Qed.

Lemma sort_by_page_of_permuted l l' :
  StronglySorted page_lt l -> Permutation l' l -> sort_by_page l' = l.
Proof.
  intros Hsorted Hperm. apply sorted_perm_unique; trivial.
  - apply sort_by_page_sorted.
  - now rewrite sort_by_page_perm.
Qed.

End Sorting.

(** * The candidate pages of a batch *)

Section Candidates.

Variable cfg : Config.

Lemma pages_from_prefix (est first : Z) (offsets : list Z) :
  exists n, pages_from cfg est first offsets
            = map (Z.add first) (firstn n offsets).
Proof.
  induction offsets as [ | i offsets [n IH] ]; simpl.
  - exists 0%nat. reflexivity.
  - destruct (max_pages_exceeded cfg (first + i)); [ now exists 0%nat | ].
    destruct ((est <? 999) && (first + i >? est)); [ now exists 0%nat | ].
    exists (S n). simpl. now rewrite IH.
Qed.

Lemma pages_from_bounded (est first : Z) (offsets : list Z) :
  est < 999 ->
  Forall (fun p => p <= est) (pages_from cfg est first offsets).
Proof.
  intros Hknown. induction offsets as [ | i offsets IH ]; simpl.
  - constructor.
  - destruct (max_pages_exceeded cfg (first + i)); [ constructor | ].
    apply Z.ltb_lt in Hknown. rewrite Hknown. simpl.
    destruct (first + i >? est) eqn:Hgt; [ constructor | ].
    constructor; trivial.
    rewrite Z.gtb_ltb in Hgt. apply Z.ltb_ge in Hgt. exact Hgt.
Qed.

(** The candidate pages are the first pages of the window
    [page .. page + 4]. *)
Lemma pages_to_scrape_prefix (est first : Z) :
  exists n, (n <= 5)%nat
            /\ pages_to_scrape cfg est first = page_range first n.
Proof.
  unfold pages_to_scrape.
  destruct (pages_from_prefix est first range5) as [n Hn].
  exists (Nat.min n 5). split; [ lia | ].
  rewrite Hn. unfold range5, page_range.
  do 5 (destruct n as [ | n ]; [ reflexivity | ]).
  rewrite Nat.min_r by lia. simpl. rewrite firstn_nil. reflexivity.
Qed.

Lemma page_range_sorted (first : Z) (n : nat) :
  StronglySorted Z.lt (page_range first n).
Proof.
  unfold page_range. revert first.
  induction n as [ | n IH ]; intros first; simpl; [ constructor | ].
  rewrite <- seq_shift, map_map.
  constructor.
  - erewrite map_ext; [ apply (IH (first + 1)) | ].
    intros i. simpl. lia.
  - apply Forall_forall. intros p Hp. apply in_map_iff in Hp.
    destruct Hp as (i & <- & _). lia.
Qed.

Lemma page_range_bounds (first : Z) (n : nat) (p : Z) :
  In p (page_range first n) -> first <= p < first + Z.of_nat n.
Proof.
  unfold page_range. intros Hp. apply in_map_iff in Hp.
  destruct Hp as (i & <- & Hi). apply in_seq in Hi. lia.
Qed.

Lemma pages_to_scrape_sorted (est first : Z) :
  StronglySorted Z.lt (pages_to_scrape cfg est first).
Proof.
  destruct (pages_to_scrape_prefix est first) as (n & _ & ->).
  apply page_range_sorted.
Qed.

Lemma pages_to_scrape_window (est first p : Z) :
  In p (pages_to_scrape cfg est first) -> first <= p <= first + 4.
Proof.
  destruct (pages_to_scrape_prefix est first) as (n & Hn & ->).
  intros Hp. apply page_range_bounds in Hp. lia.
Qed.

End Candidates.

(** * The batch retry loop *)

Section BatchRetry.

Variable Rec Category : Type.
Variable fetcher : nat -> Z -> option (list Rec * Z * Z).
Variable completion : nat -> list (PageResult Rec) -> list (PageResult Rec).

Implicit Types (st : State Rec Category) (pages : list Z).

Lemma future_result_page (d : nat) (p : Z) :
  page_num (future_result fetcher d p) = p.
Proof.
  unfold future_result. destruct (fetcher d p) as [[[props cur] tot]|]; reflexivity.
Qed.

Lemma flat_map_future_results (d : nat) pages :
  flat_map properties (map (future_result fetcher d) pages)
  = records_of fetcher d pages.
Proof.
  unfold records_of. induction pages as [ | p pages IH ]; simpl; trivial.
  now rewrite IH.
Qed.

Lemma gtb_true (n m : Z) : n > m -> (n >? m) = true.
Proof.
  intros H. apply Z.gtb_lt. lia.
Qed.

Lemma gtb_false (n m : Z) : n <= m -> (n >? m) = false.
Proof.
  intros H. rewrite Z.gtb_ltb. apply Z.ltb_ge. lia.
Qed.

(** One pass of the retry loop, with the two tests of line 532 read as
    "some result has records" and "the batch starts after page 100". *)
Lemma batch_loop_pass (fuel : nat) (count : Z) pages st :
  batch_loop fetcher completion fuel count pages st
  = let rs := results_of fetcher completion (dispatches st) pages in
    let acc := process_results (total_pages_estimate st) rs in
    if existsb has_records rs || (page st >? 100) then
      (mkState (interrupted st) (current_key st)
               (all_properties st ++ batch_properties acc)
               (page st + concurrent_pages - 1)
               (all_properties st ++ batch_properties acc) (page st)
               (consecutive_empty_batches st) (estimate acc)
               (S (dispatches st)) (trace st ++ [EvDispatch pages]),
       rs, empty_pages_in_batch acc)
    else
      let st1 :=
        mkState (interrupted st) (current_key st) (current_properties st)
                (current_page st) (all_properties st) (page st)
                (consecutive_empty_batches st) (estimate acc)
                (S (dispatches st)) (trace st ++ [EvDispatch pages]) in
      if count + 1 <=? max_batch_retries then
        match fuel with
        | O => (st1, rs, empty_pages_in_batch acc)
        | S fuel' => batch_loop fetcher completion fuel' (count + 1) pages st1
        end
      else (st1, rs, empty_pages_in_batch acc).
Proof.
  destruct fuel; simpl; unfold results_of;
    rewrite with_properties_test; reflexivity.
Qed.

#[local] Arguments batch_loop : simpl never.

(** What the retry loop leaves behind, whatever the number of passes. *)
Lemma batch_loop_frame (fuel : nat) :
  forall (count : Z) pages st st' rs e,
    batch_loop fetcher completion fuel count pages st = (st', rs, e) ->
    page st' = page st
    /\ interrupted st' = interrupted st
    /\ current_key st' = current_key st
    /\ consecutive_empty_batches st' = consecutive_empty_batches st
    /\ (exists d, (dispatches st <= d < dispatches st')%nat
                  /\ rs = results_of fetcher completion d pages)
    /\ (e =? Z.of_nat (List.length rs)) = negb (existsb has_records rs)
    /\ all_properties st' = all_properties st ++ flat_map properties rs
    /\ (total_pages_estimate st' = total_pages_estimate st
        \/ (total_pages_estimate st = 999 /\ total_pages_estimate st' < 999)).
Proof.
  induction fuel as [ | fuel IH ]; intros count pages st st' rs e Hrun;
    rewrite batch_loop_pass in Hrun; cbv zeta in Hrun;
    destruct (existsb has_records
                (results_of fetcher completion (dispatches st) pages)
              || (page st >? 100)) eqn:Haccept.
  1, 3: injection Hrun as <- <- <-; simpl;
    repeat split; trivial;
    [ exists (dispatches st); split; [ lia | reflexivity ]
    | apply all_empty_test
    | now rewrite process_results_properties
    | apply process_results_estimate_cases ].
  - apply orb_false_iff in Haccept. destruct Haccept as [Hnone _].
    assert (Hsame : (st', rs, e)
                    = (mkState (interrupted st) (current_key st)
                               (current_properties st) (current_page st)
                               (all_properties st) (page st)
                               (consecutive_empty_batches st)
                               (estimate (process_results
                                            (total_pages_estimate st)
                                            (results_of fetcher completion
                                                        (dispatches st) pages)))
                               (S (dispatches st))
                               (trace st ++ [EvDispatch pages]),
                       results_of fetcher completion (dispatches st) pages,
                       empty_pages_in_batch
                         (process_results
                            (total_pages_estimate st)
                            (results_of fetcher completion
                                        (dispatches st) pages)))).
    { destruct (count + 1 <=? max_batch_retries); congruence. }
    injection Hsame as -> -> ->. simpl. repeat split; trivial.
    + exists (dispatches st). split; [ lia | reflexivity ].
    + apply all_empty_test.
    + rewrite no_records_flat_map by exact Hnone. now rewrite app_nil_r.
    + apply process_results_estimate_cases.
  - apply orb_false_iff in Haccept. destruct Haccept as [Hnone _].
    destruct (count + 1 <=? max_batch_retries).
    + apply IH in Hrun. simpl in Hrun.
      destruct Hrun as (Hp & Hi & Hk & Hc & (d & Hd & Hrs) & He & Hall & Hest).
      repeat split; trivial.
      * exists d. split; [ lia | exact Hrs ].
      * pose proof (process_results_estimate_cases Rec
                      (total_pages_estimate st)
                      (results_of fetcher completion (dispatches st) pages)).
        lia.
    + injection Hrun as <- <- <-. simpl. repeat split; trivial.
      * exists (dispatches st). split; [ lia | reflexivity ].
      * apply all_empty_test.
      * rewrite no_records_flat_map by exact Hnone. now rewrite app_nil_r.
      * apply process_results_estimate_cases.
Qed.


(** C3: a batch that starts at a page up to 100 and yields no record is
    dispatched again, up to 2 more times, and the records of the pass that
    ends the retries are kept; a batch that starts after page 100 is
    dispatched once whatever it yields. *)
Theorem batch_retry_policy pages st :
  (page st > 100 ->
   trace (fst (fst (batch_loop fetcher completion
                               (Z.to_nat max_batch_retries) 0 pages st)))
   = trace st ++ [EvDispatch pages]
   /\ all_properties (fst (fst (batch_loop fetcher completion
                                 (Z.to_nat max_batch_retries) 0 pages st)))
      = all_properties st
        ++ flat_map properties
             (results_of fetcher completion (dispatches st) pages))
  /\ (page st <= 100 ->
      existsb has_records
              (results_of fetcher completion (dispatches st) pages) = true ->
      trace (fst (fst (batch_loop fetcher completion
                                  (Z.to_nat max_batch_retries) 0 pages st)))
      = trace st ++ [EvDispatch pages]
      /\ all_properties (fst (fst (batch_loop fetcher completion
                                    (Z.to_nat max_batch_retries) 0 pages st)))
         = all_properties st
           ++ flat_map properties
                (results_of fetcher completion (dispatches st) pages))
  /\ (page st <= 100 ->
      existsb has_records
              (results_of fetcher completion (dispatches st) pages) = false ->
      existsb has_records
              (results_of fetcher completion (S (dispatches st)) pages) = true ->
      trace (fst (fst (batch_loop fetcher completion
                                  (Z.to_nat max_batch_retries) 0 pages st)))
      = trace st ++ [EvDispatch pages; EvDispatch pages]
      /\ all_properties (fst (fst (batch_loop fetcher completion
                                    (Z.to_nat max_batch_retries) 0 pages st)))
         = all_properties st
           ++ flat_map properties
                (results_of fetcher completion (S (dispatches st)) pages))
  /\ (page st <= 100 ->
      existsb has_records
              (results_of fetcher completion (dispatches st) pages) = false ->
      existsb has_records
              (results_of fetcher completion (S (dispatches st)) pages) = false ->
      trace (fst (fst (batch_loop fetcher completion
                                  (Z.to_nat max_batch_retries) 0 pages st)))
      = trace st ++ [EvDispatch pages; EvDispatch pages; EvDispatch pages]
      /\ all_properties (fst (fst (batch_loop fetcher completion
                                    (Z.to_nat max_batch_retries) 0 pages st)))
         = all_properties st
           ++ flat_map properties
                (results_of fetcher completion (S (S (dispatches st))) pages)).
Proof.
  change (Z.to_nat max_batch_retries) with 2%nat.
  split; [ intros Hhigh | split; [ intros Hlow H0 | split; intros Hlow H0 H1 ] ].
  - apply gtb_true in Hhigh.
    rewrite batch_loop_pass. cbv zeta. rewrite Hhigh, orb_true_r. simpl.
    now rewrite process_results_properties.
  - rewrite batch_loop_pass. cbv zeta. rewrite H0. simpl.
    now rewrite process_results_properties.
  - apply gtb_false in Hlow.
    rewrite batch_loop_pass. cbv zeta. rewrite H0, Hlow. simpl.
    rewrite batch_loop_pass. cbv zeta. simpl. rewrite H1. simpl.
    rewrite process_results_properties, <- app_assoc. now split.
  - apply gtb_false in Hlow.
    rewrite batch_loop_pass. cbv zeta. rewrite H0, Hlow. simpl.
    rewrite batch_loop_pass. cbv zeta. simpl. rewrite H1, Hlow. simpl.
    rewrite batch_loop_pass. cbv zeta. simpl. rewrite Hlow, orb_false_r.
    destruct (existsb has_records
                (results_of fetcher completion (S (S (dispatches st))) pages))
             eqn:Hlast; simpl.
    + rewrite process_results_properties, <- !app_assoc. now split.
    + rewrite <- !app_assoc. split; trivial.
      rewrite no_records_flat_map by exact Hlast. now rewrite app_nil_r.
Qed.

Variable cfg : Config.

Lemma advance_fields st :
  page (advance cfg st) = page st + 5
  /\ interrupted (advance cfg st) = interrupted st
  /\ current_key (advance cfg st) = current_key st
  /\ all_properties (advance cfg st) = all_properties st
  /\ consecutive_empty_batches (advance cfg st) = consecutive_empty_batches st
  /\ total_pages_estimate (advance cfg st) = total_pages_estimate st
  /\ dispatches (advance cfg st) = dispatches st.
Proof.
  unfold advance. destruct (_ && _); simpl; repeat split.
Qed.

(** The checkpoint written when the loop moves on carries the last page
    of the batch after the one just finished. *)
Lemma advance_checkpoint st :
  exists rest,
    trace (advance cfg st)
    = trace st
      ++ EvSaveProgress (current_key st) (page st + 2 * concurrent_pages - 1)
                        (len (all_properties st)) :: rest.
Proof.
  unfold advance. simpl.
  replace (page st + concurrent_pages + concurrent_pages - 1)
    with (page st + 2 * concurrent_pages - 1) by lia.
  destruct (_ && _); simpl.
  - eexists. rewrite <- app_assoc. reflexivity.
  - exists []. reflexivity.
Qed.

(** The counter of consecutive empty batches after a pass: one more when
    no result of the batch has records, 0 otherwise. *)
Lemma after_batch_counter st1 (rs : list (PageResult Rec)) (e : Z) :
  (e =? Z.of_nat (List.length rs)) = negb (existsb has_records rs) ->
  consecutive_empty_batches (state_of (after_batch cfg st1 rs e))
  = if existsb has_records rs then 0
    else consecutive_empty_batches st1 + 1.
Proof.
  intros Htest. unfold after_batch. rewrite Htest.
  destruct (existsb has_records rs); simpl;
    repeat match goal with
           | |- context [if ?b then _ else _] => destruct b
           end; simpl; trivial;
    apply (advance_fields (set_consecutive _ st1)).
Qed.

Lemma loop_body_counter st :
  interrupted st = false ->
  pages_to_scrape cfg (total_pages_estimate st) (page st) <> [] ->
  consecutive_empty_batches (state_of (loop_body fetcher completion cfg st))
  = if existsb has_records
         (snd (fst (batch_loop fetcher completion
                               (Z.to_nat max_batch_retries) 0
                               (pages_to_scrape cfg (total_pages_estimate st)
                                                (page st)) st)))
    then 0 else consecutive_empty_batches st + 1.
Proof.
  intros Hrun Hpages. unfold loop_body. rewrite Hrun.
  destruct (pages_to_scrape cfg (total_pages_estimate st) (page st))
    as [ | p pages ]; [ congruence | ].
  destruct (batch_loop fetcher completion (Z.to_nat max_batch_retries) 0
                       (p :: pages) st) as [[st1 rs] e] eqn:Hbatch.
  apply batch_loop_frame in Hbatch.
  destruct Hbatch as (_ & _ & _ & Hc & _ & Htest & _).
  simpl. rewrite <- Hc. now apply after_batch_counter.
Qed.

(** * The belief about the total page count *)

Lemma loop_body_estimate st :
  total_pages_estimate (state_of (loop_body fetcher completion cfg st))
  = total_pages_estimate st
  \/ (total_pages_estimate st = 999
      /\ total_pages_estimate
           (state_of (loop_body fetcher completion cfg st)) < 999).
Proof.
  unfold loop_body.
  destruct (interrupted st); [ now left | ].
  destruct (pages_to_scrape cfg (total_pages_estimate st) (page st))
    as [ | p pages ]; [ now left | ].
  destruct (batch_loop fetcher completion (Z.to_nat max_batch_retries) 0
                       (p :: pages) st) as [[st1 rs] e] eqn:Hbatch.
  apply batch_loop_frame in Hbatch.
  destruct Hbatch as (_ & _ & _ & _ & _ & _ & _ & Hest).
  unfold after_batch, advance.
  repeat match goal with
         | |- context [if ?b then _ else _] => destruct b
         end; simpl; exact Hest.
Qed.

Lemma runs_to_estimate st st' :
  total_pages_estimate st < 999 ->
  runs_to fetcher completion cfg st st' ->
  total_pages_estimate st' = total_pages_estimate st.
Proof.
  intros Hknown Hruns. induction Hruns as [ st | st st1 st2 Hstep Hruns IH ];
    trivial.
  pose proof (loop_body_estimate st) as Hest. rewrite Hstep in Hest.
  simpl in Hest. rewrite IH; lia.
Qed.

(** C4: once the belief about the total page count is a concrete value
    [N] (below the 999 marker), it is [N] at the top of every later pass
    and when the loop is left, whatever totals later pages report, and no
    later batch has a candidate page above [N]; the concrete value it takes
    when it leaves 999 is the first concrete total reported by a page with
    records. *)
Theorem belief_is_final st st' :
  total_pages_estimate st < 999 ->
  runs_to fetcher completion cfg st st' ->
  total_pages_estimate st' = total_pages_estimate st
  /\ Forall (fun p => p <= total_pages_estimate st)
            (pages_to_scrape cfg (total_pages_estimate st') (page st'))
  /\ total_pages_estimate (state_of (loop_body fetcher completion cfg st'))
     = total_pages_estimate st
  /\ (forall rs : list (PageResult Rec),
         estimate (process_results 999 rs) = first_known rs).
Proof.
  intros Hknown Hruns.
  pose proof (runs_to_estimate st st' Hknown Hruns) as Hsame.
  split; [ exact Hsame | ].
  split; [ | split ].
  - rewrite Hsame. apply pages_from_bounded. exact Hknown.
  - pose proof (loop_body_estimate st'). lia.
  - intros rs. apply process_results_first_known.
Qed.

End BatchRetry.

(** * Order of the records *)

Section Ordering.

Variable Rec Category : Type.
Variable fetcher : nat -> Z -> option (list Rec * Z * Z).
Variable completion : nat -> list (PageResult Rec) -> list (PageResult Rec).

(** [as_completed] hands over every submitted result once, in some
    order. *)
Hypothesis completion_permutes :
  forall d l, Permutation (completion d l) l.

Implicit Types (st : State Rec Category) (pages : list Z).

#[local] Arguments batch_loop : simpl never.

Lemma future_results_sorted (d : nat) pages :
  StronglySorted Z.lt pages ->
  StronglySorted page_lt (map (future_result fetcher d) pages).
Proof.
  induction 1 as [ | p pages Hsorted IH Hp ]; simpl; constructor; trivial.
  apply Forall_forall. intros r Hr. apply in_map_iff in Hr.
  destruct Hr as (q & <- & Hq). unfold page_lt.
  rewrite !future_result_page. rewrite Forall_forall in Hp. now apply Hp.
Qed.

Lemma results_of_ordered (d : nat) pages :
  StronglySorted Z.lt pages ->
  results_of fetcher completion d pages = map (future_result fetcher d) pages.
Proof.
  intros Hsorted. unfold results_of, dispatch.
  apply sort_by_page_of_permuted.
  - now apply future_results_sorted.
  - apply completion_permutes.
Qed.

Lemma results_of_submission_order (d : nat) pages :
  StronglySorted Z.lt pages ->
  results_of fetcher (fun _ l => l) d pages
  = map (future_result fetcher d) pages.
Proof.
  intros Hsorted. unfold results_of, dispatch.
  apply sort_by_page_of_permuted; trivial.
  now apply future_results_sorted.
Qed.

Lemma batch_loop_any_order (fuel : nat) :
  forall (count : Z) pages st,
    StronglySorted Z.lt pages ->
    batch_loop fetcher completion fuel count pages st
    = batch_loop fetcher (fun _ l => l) fuel count pages st.
Proof.
  induction fuel as [ | fuel IH ]; intros count pages st Hsorted;
    rewrite !batch_loop_pass; cbv zeta;
    rewrite results_of_ordered, results_of_submission_order by trivial;
    trivial.
  destruct (_ || _); trivial.
  destruct (count + 1 <=? max_batch_retries); trivial.
  now apply IH.
Qed.

Lemma loop_body_any_order (cfg : Config) st :
  loop_body fetcher completion cfg st
  = loop_body fetcher (fun _ l => l) cfg st.
Proof.
  unfold loop_body.
  destruct (interrupted st); trivial.
  pose proof (pages_to_scrape_sorted cfg (total_pages_estimate st) (page st))
    as Hsorted.
  destruct (pages_to_scrape cfg (total_pages_estimate st) (page st))
    as [ | p pages ]; trivial.
  now rewrite batch_loop_any_order.
Qed.

Lemma scrape_loop_any_order (fuel : nat) (cfg : Config) :
  forall st,
    scrape_loop fetcher completion fuel cfg st
    = scrape_loop fetcher (fun _ l => l) fuel cfg st.
Proof.
  induction fuel as [ | fuel IH ]; intros st; simpl; trivial.
  rewrite loop_body_any_order.
  destruct (loop_body fetcher (fun _ l => l) cfg st); trivial.
Qed.

Lemma sorted_app (l1 l2 : list Z) :
  StronglySorted Z.lt l1 -> StronglySorted Z.lt l2 ->
  (forall x y, In x l1 -> In y l2 -> x < y) ->
  StronglySorted Z.lt (l1 ++ l2).
Proof.
  intros H1 H2 Hlt. induction H1 as [ | a l1 Hs IH Ha ]; simpl; trivial.
  constructor.
  - apply IH. intros x y Hx Hy. apply Hlt; simpl; auto.
  - apply Forall_app. split; trivial.
    apply Forall_forall. intros y Hy. apply Hlt; simpl; auto.
Qed.

Lemma ordered_below_extend (bound bound' : Z) (records : list Rec)
      (d : nat) pages :
  ordered_below fetcher bound records ->
  StronglySorted Z.lt pages ->
  bound <= bound' ->
  (forall p, In p pages -> bound <= p < bound') ->
  ordered_below fetcher bound' (records ++ records_of fetcher d pages).
Proof.
  intros (blocks & Hsorted & Hbelow & ->) Hpages Hle Hwindow.
  exists (blocks ++ map (fun p => (p, d)) pages). repeat split.
  - rewrite map_app, map_map. simpl. rewrite map_id.
    apply sorted_app; trivial.
    intros x y Hx Hy. apply in_map_iff in Hx. destruct Hx as (b & <- & Hb).
    rewrite Forall_forall in Hbelow. specialize (Hbelow _ Hb).
    specialize (Hwindow _ Hy). lia.
  - apply Forall_app. split.
    + eapply Forall_impl; [ | exact Hbelow ]. intros b Hb. simpl in Hb. lia.
    + apply Forall_forall. intros b Hb. apply in_map_iff in Hb.
      destruct Hb as (p & <- & Hp). simpl. specialize (Hwindow _ Hp). lia.
  - rewrite flat_map_app. f_equal. unfold records_of.
    rewrite !flat_map_concat_map, map_map. reflexivity.
Qed.

Lemma ordered_below_weaken (bound bound' : Z) (records : list Rec) :
  bound <= bound' ->
  ordered_below fetcher bound records -> ordered_below fetcher bound' records.
Proof.
  intros Hle (blocks & Hsorted & Hbelow & ->).
  exists blocks. repeat split; trivial.
  eapply Forall_impl; [ | exact Hbelow ]. intros b Hb. simpl in Hb. lia.
Qed.

Lemma ordered_below_page_ordered (bound : Z) (records : list Rec) :
  ordered_below fetcher bound records -> page_ordered fetcher records.
Proof.
  intros (blocks & Hsorted & _ & ->). now exists blocks.
Qed.

(** The records collected stay in page order through a pass: below the
    next batch when the loop goes on, below the end of the window when it
    is left. *)
Lemma loop_body_ordered (cfg : Config) st :
  ordered_below fetcher (page st) (all_properties st) ->
  match loop_body fetcher completion cfg st with
  | Continue st' => ordered_below fetcher (page st') (all_properties st')
  | Break st' => ordered_below fetcher (page st + 5) (all_properties st')
  end.
Proof.
  intros Hinv. unfold loop_body.
  destruct (interrupted st).
  { eapply ordered_below_weaken; [ | exact Hinv ]. lia. }
  pose proof (pages_to_scrape_sorted cfg (total_pages_estimate st) (page st))
    as Hsorted.
  pose proof (pages_to_scrape_window cfg (total_pages_estimate st) (page st))
    as Hwindow.
  destruct (pages_to_scrape cfg (total_pages_estimate st) (page st))
    as [ | p pages ].
  { eapply ordered_below_weaken; [ | exact Hinv ]. lia. }
  destruct (batch_loop fetcher completion (Z.to_nat max_batch_retries) 0
                       (p :: pages) st) as [[st1 rs] e] eqn:Hbatch.
  apply batch_loop_frame in Hbatch.
  destruct Hbatch as (Hpage & _ & _ & _ & (d & _ & Hrs) & _ & Hall & _).
  rewrite results_of_ordered in Hrs by trivial.
  rewrite Hrs, flat_map_future_results in Hall.
  assert (Hnext : ordered_below fetcher (page st + 5) (all_properties st1)).
  { rewrite Hall. apply ordered_below_extend with (bound := page st); trivial.
    - lia.
    - intros q Hq. specialize (Hwindow q Hq). lia. }
  unfold after_batch, advance.
  repeat match goal with
         | |- context [if ?b then _ else _] => destruct b
         end; simpl; rewrite ?Hpage; exact Hnext.
Qed.

Lemma scrape_loop_ordered (fuel : nat) (cfg : Config) :
  forall st st',
    ordered_below fetcher (page st) (all_properties st) ->
    scrape_loop fetcher completion fuel cfg st = Some st' ->
    page_ordered fetcher (all_properties st').
Proof.
  induction fuel as [ | fuel IH ]; intros st st' Hinv Hrun; simpl in Hrun;
    [ discriminate | ].
  pose proof (loop_body_ordered cfg st Hinv) as Hstep.
  destruct (loop_body fetcher completion cfg st) as [ st1 | st1 ].
  - now apply IH with (st := st1).
  - injection Hrun as <-. eapply ordered_below_page_ordered. exact Hstep.
Qed.

Lemma final_save_properties (cfg : Config) st :
  all_properties (final_save cfg st) = all_properties st.
Proof.
  unfold final_save. destruct (all_properties st) eqn:Hall; trivial.
Qed.

Lemma records_of_dispatches_app (d : nat) (l1 l2 : list (list Z)) :
  records_of_dispatches fetcher d (l1 ++ l2)
  = records_of_dispatches fetcher d l1
    ++ records_of_dispatches fetcher (d + List.length l1) l2.
Proof.
  revert d. induction l1 as [ | pages l1 IH ]; intros d; simpl.
  - now rewrite Nat.add_0_r.
  - rewrite IH, <- app_assoc. do 3 f_equal. lia.
Qed.

(** The retry loop appends the records of the pages of its last dispatch,
    page after page, and nothing else. *)
Lemma batch_loop_accumulates (fuel : nat) (count : Z) pages st st' rs e :
  StronglySorted Z.lt pages ->
  batch_loop fetcher completion fuel count pages st = (st', rs, e) ->
  exists d,
    (dispatches st <= d < dispatches st')%nat
    /\ rs = map (future_result fetcher d) pages
    /\ all_properties st' = all_properties st ++ records_of fetcher d pages.
Proof.
  intros Hsorted Hrun. apply batch_loop_frame in Hrun.
  destruct Hrun as (_ & _ & _ & _ & (d & Hd & Hrs) & _ & Hall & _).
  rewrite results_of_ordered in Hrs by trivial.
  exists d. repeat split; try lia; trivial.
  now rewrite Hall, Hrs, flat_map_future_results.
Qed.

(** One dispatch more in the log, with the records it adds. *)
Lemma journal_step pages (d : nat) (log : list (Event Rec Category))
      (records extra : list Rec) :
  d = List.length (dispatched log) ->
  records = records_of_dispatches fetcher 0 (dispatched log) ->
  extra = records_of fetcher d pages ->
  S d = List.length (dispatched (log ++ [EvDispatch pages]))
  /\ records ++ extra
     = records_of_dispatches fetcher 0 (dispatched (log ++ [EvDispatch pages])).
Proof.
  intros -> -> ->. unfold dispatched. rewrite flat_map_app. simpl.
  rewrite length_app, records_of_dispatches_app. simpl.
  rewrite app_nil_r. split; [ lia | reflexivity ].
Qed.

(** The records collected are those of the dispatches made, in the order
    of the dispatches: the retry loop keeps it so. *)
Lemma batch_loop_journal (fuel : nat) :
  forall (count : Z) pages st st' rs e,
    StronglySorted Z.lt pages ->
    batch_loop fetcher completion fuel count pages st = (st', rs, e) ->
    dispatches st = List.length (dispatched (trace st)) ->
    all_properties st
    = records_of_dispatches fetcher 0 (dispatched (trace st)) ->
    dispatches st' = List.length (dispatched (trace st'))
    /\ all_properties st'
       = records_of_dispatches fetcher 0 (dispatched (trace st')).
Proof.
  induction fuel as [ | fuel IH ];
    intros count pages st st' rs e Hsorted Hrun Hd Hall;
    rewrite batch_loop_pass in Hrun; cbv zeta in Hrun;
    rewrite results_of_ordered in Hrun by trivial;
    destruct (existsb has_records (map (future_result fetcher (dispatches st))
                                       pages)
              || (page st >? 100)) eqn:Haccept.
  1, 3: injection Hrun as <- _ _; simpl;
    apply journal_step; trivial;
    now rewrite process_results_properties, flat_map_future_results.
  - apply orb_false_iff in Haccept. destruct Haccept as [Hnone _].
    apply no_records_flat_map in Hnone.
    rewrite flat_map_future_results in Hnone.
    assert (Hst' : dispatches st' = S (dispatches st)
                   /\ all_properties st' = all_properties st
                   /\ trace st' = trace st ++ [EvDispatch pages]).
    { destruct (count + 1 <=? max_batch_retries);
        injection Hrun as <- _ _; simpl; auto. }
    destruct Hst' as (-> & -> & ->).
    rewrite <- (app_nil_r (all_properties st)).
    apply journal_step; trivial. now rewrite Hnone.
  - apply orb_false_iff in Haccept. destruct Haccept as [Hnone _].
    apply no_records_flat_map in Hnone.
    rewrite flat_map_future_results in Hnone.
    destruct (count + 1 <=? max_batch_retries).
    + destruct (journal_step pages (dispatches st) (trace st)
                             (all_properties st) [] Hd Hall)
        as (Hd1 & Hall1); [ now rewrite Hnone | ].
      rewrite app_nil_r in Hall1.
      apply IH in Hrun; trivial.
    + injection Hrun as <- _ _. simpl.
      rewrite <- (app_nil_r (all_properties st)).
      apply journal_step; trivial. now rewrite Hnone.
Qed.

(** What follows the retry loop in a pass dispatches nothing and leaves
    the records collected as they are. *)
Lemma after_batch_journal (cfg : Config) st1 (rs : list (PageResult Rec))
      (e : Z) :
  dispatches (state_of (after_batch cfg st1 rs e)) = dispatches st1
  /\ all_properties (state_of (after_batch cfg st1 rs e)) = all_properties st1
  /\ dispatched (trace (state_of (after_batch cfg st1 rs e)))
     = dispatched (trace st1).
Proof.
  unfold after_batch, advance, dispatched.
  repeat match goal with
         | |- context [if ?b then _ else _] => destruct b
         end; simpl; rewrite ?flat_map_app; simpl; rewrite ?app_nil_r;
    repeat split.
Qed.

Lemma loop_body_journal (cfg : Config) st :
  dispatches st = List.length (dispatched (trace st)) ->
  all_properties st = records_of_dispatches fetcher 0 (dispatched (trace st)) ->
  let st' := state_of (loop_body fetcher completion cfg st) in
  dispatches st' = List.length (dispatched (trace st'))
  /\ all_properties st'
     = records_of_dispatches fetcher 0 (dispatched (trace st')).
Proof.
  intros Hd Hall. cbv zeta. unfold loop_body.
  destruct (interrupted st); [ now split | ].
  pose proof (pages_to_scrape_sorted cfg (total_pages_estimate st) (page st))
    as Hsorted.
  destruct (pages_to_scrape cfg (total_pages_estimate st) (page st))
    as [ | p pages ]; [ now split | ].
  destruct (batch_loop fetcher completion (Z.to_nat max_batch_retries) 0
                       (p :: pages) st) as [[st1 rs] e] eqn:Hbatch.
  apply batch_loop_journal in Hbatch; trivial.
  destruct (after_batch_journal cfg st1 rs e) as (-> & -> & ->).
  exact Hbatch.
Qed.

Lemma runs_to_journal (cfg : Config) st st' :
  runs_to fetcher completion cfg st st' ->
  dispatches st = List.length (dispatched (trace st)) ->
  all_properties st = records_of_dispatches fetcher 0 (dispatched (trace st)) ->
  dispatches st' = List.length (dispatched (trace st'))
  /\ all_properties st'
     = records_of_dispatches fetcher 0 (dispatched (trace st')).
Proof.
  induction 1 as [ st | st st1 st2 Hstep Hruns IH ]; intros Hd Hall;
    [ now split | ].
  pose proof (loop_body_journal cfg st Hd Hall) as Hnext.
  rewrite Hstep in Hnext. simpl in Hnext. now apply IH.
Qed.

Lemma scrape_loop_journal (fuel : nat) (cfg : Config) :
  forall st st',
    scrape_loop fetcher completion fuel cfg st = Some st' ->
    dispatches st = List.length (dispatched (trace st)) ->
    all_properties st
    = records_of_dispatches fetcher 0 (dispatched (trace st)) ->
    all_properties st'
    = records_of_dispatches fetcher 0 (dispatched (trace st')).
Proof.
  induction fuel as [ | fuel IH ]; intros st st' Hrun Hd Hall; simpl in Hrun;
    [ discriminate | ].
  pose proof (loop_body_journal cfg st Hd Hall) as Hnext.
  destruct (loop_body fetcher completion cfg st) as [ st1 | st1 ];
    simpl in Hnext.
  - now apply IH with (st := st1).
  - injection Hrun as <-. apply Hnext.
Qed.

Lemma final_save_dispatched (cfg : Config) st :
  dispatched (trace (final_save cfg st)) = dispatched (trace st).
Proof.
  unfold final_save, dispatched.
  destruct (all_properties st); simpl; trivial.
  rewrite flat_map_app. simpl. now rewrite app_nil_r.
Qed.

Lemma runs_to_ordered (cfg : Config) st st' :
  runs_to fetcher completion cfg st st' ->
  ordered_below fetcher (page st) (all_properties st) ->
  ordered_below fetcher (page st') (all_properties st').
Proof.
  induction 1 as [ st | st st1 st2 Hstep Hruns IH ]; intros Hinv; trivial.
  pose proof (loop_body_ordered cfg st Hinv) as Hnext.
  rewrite Hstep in Hnext. now apply IH.
Qed.

(** C8: whatever the order in which the fetches of a batch complete, the
    sorted results of the batch are its page results in ascending page
    order; the retry loop appends to the records collected the records of
    the pages of its last dispatch, page after page in ascending page
    order, and nothing else; the harvest is the one in which every batch
    completes in page order; at the top of every pass the records
    collected are those of the dispatches made so far, dispatch after
    dispatch, and are page-ordered below the next batch; and the records
    returned are those of all dispatches, dispatch after dispatch, and are
    page-ordered. *)
Theorem records_in_page_order :
  (forall (d : nat) (cfg : Config) (est first : Z),
      results_of fetcher completion d (pages_to_scrape cfg est first)
      = map (future_result fetcher d) (pages_to_scrape cfg est first)
      /\ StronglySorted page_lt
           (results_of fetcher completion d (pages_to_scrape cfg est first)))
  /\ (forall (fuel : nat) (count : Z) (cfg : Config) (est first : Z)
             st st' rs e,
         batch_loop fetcher completion fuel count
                    (pages_to_scrape cfg est first) st = (st', rs, e) ->
         exists d,
           (dispatches st <= d < dispatches st')%nat
           /\ rs = map (future_result fetcher d) (pages_to_scrape cfg est first)
           /\ all_properties st'
              = all_properties st
                ++ records_of fetcher d (pages_to_scrape cfg est first))
  /\ (forall (fuel : nat) (cfg : Config) (key : Category) (flag : bool),
         scrape_city_property_type fetcher completion fuel cfg key flag
         = scrape_city_property_type fetcher (fun _ l => l) fuel cfg key flag)
  /\ (forall (cfg : Config) (key : Category) (flag : bool) st,
         runs_to fetcher completion cfg (enter cfg key flag 0 []) st ->
         all_properties st
         = records_of_dispatches fetcher 0 (dispatched (trace st))
         /\ ordered_below fetcher (page st) (all_properties st))
  /\ (forall (fuel : nat) (cfg : Config) (key : Category) (flag : bool)
             (records : list Rec) st,
         scrape_city_property_type fetcher completion fuel cfg key flag
         = Some (records, st) ->
         records = records_of_dispatches fetcher 0 (dispatched (trace st))
         /\ page_ordered fetcher records).
Proof.
  assert (Hentry : forall (cfg : Config) (key : Category) (flag : bool),
             ordered_below fetcher
                           (page (@enter Rec Category cfg key flag 0 []))
                           (all_properties
                              (@enter Rec Category cfg key flag 0 []))).
  { intros cfg key flag. exists []. repeat split; constructor. }
  split; [ | split; [ | split; [ | split ] ] ].
  - intros d cfg est first.
    pose proof (pages_to_scrape_sorted cfg est first) as Hsorted.
    rewrite results_of_ordered by trivial. split; trivial.
    now apply future_results_sorted.
  - intros fuel count cfg est first st st' rs e Hrun.
    eapply batch_loop_accumulates; [ | exact Hrun ].
    apply pages_to_scrape_sorted.
  - intros fuel cfg key flag. unfold scrape_city_property_type.
    now rewrite scrape_loop_any_order.
  - intros cfg key flag st Hruns. split.
    + now apply (runs_to_journal cfg _ _ Hruns).
    + now apply (runs_to_ordered cfg _ _ Hruns).
  - intros fuel cfg key flag records st Hrun.
    unfold scrape_city_property_type in Hrun.
    destruct (scrape_loop fetcher completion fuel cfg (enter cfg key flag 0 []))
      as [ st1 | ] eqn:Hloop; [ | discriminate ].
    injection Hrun as <- <-.
    rewrite final_save_properties, final_save_dispatched. split.
    + now apply (scrape_loop_journal fuel cfg _ _ Hloop).
    + apply scrape_loop_ordered in Hloop; trivial.
Qed.

End Ordering.

(** * End of data *)

Section EndOfData.

Variable Rec Category : Type.
Variable fetcher : nat -> Z -> option (list Rec * Z * Z).
Variable completion : nat -> list (PageResult Rec) -> list (PageResult Rec).

Hypothesis completion_permutes :
  forall d l, Permutation (completion d l) l.

(** Pages 1 to [k] carry the records [records p] and no total page count;
    every later page carries nothing, in every dispatch. *)
Variable k : Z.
Variable records : Z -> list Rec.

Hypothesis k_nonneg : 0 <= k.

Hypothesis pages_with_records :
  forall d p, 1 <= p <= k ->
              records p <> []
              /\ exists cur, fetcher d p = Some (records p, cur, 999).

Hypothesis pages_without_records :
  forall d p, k < p ->
              match fetcher d p with
              | Some (props, _, _) => props = []
              | None => True
              end.

Implicit Types (st : State Rec Category) (pages : list Z).

#[local] Arguments batch_loop : simpl never.

Lemma result_with_records (d : nat) (p : Z) :
  1 <= p <= k ->
  properties (future_result fetcher d p) = records p
  /\ has_records (future_result fetcher d p) = true
  /\ total_pages (future_result fetcher d p) = 999.
Proof.
  intros Hp. destruct (pages_with_records d p Hp) as (Hne & cur & Hfetch).
  unfold has_records, future_result. rewrite Hfetch. simpl.
  split; [ reflexivity | split; [ | reflexivity ] ].
  destruct (records p); [ congruence | reflexivity ].
Qed.

Lemma result_without_records (d : nat) (p : Z) :
  k < p -> properties (future_result fetcher d p) = [].
Proof.
  intros Hp. pose proof (pages_without_records d p Hp) as Hfetch.
  unfold future_result.
  destruct (fetcher d p) as [[[props cur] tot]|]; simpl; trivial.
Qed.

Lemma window_records (d : nat) pages :
  Forall (fun p => 1 <= p) pages ->
  records_of fetcher d pages
  = flat_map records (filter (fun p => p <=? k) pages).
Proof.
  unfold records_of.
  induction 1 as [ | p pages Hp Hpages IH ]; simpl; trivial.
  rewrite IH. destruct (p <=? k) eqn:Hle; simpl.
  - apply Z.leb_le in Hle. f_equal. apply result_with_records. lia.
  - apply Z.leb_gt in Hle. now rewrite result_without_records.
Qed.

Lemma window_has_records (d : nat) pages :
  Forall (fun p => 1 <= p) pages ->
  existsb has_records (map (future_result fetcher d) pages)
  = existsb (fun p => p <=? k) pages.
Proof.
  induction 1 as [ | p pages Hp Hpages IH ]; simpl; trivial.
  rewrite IH. f_equal. destruct (p <=? k) eqn:Hle.
  - apply Z.leb_le in Hle. apply result_with_records. lia.
  - apply Z.leb_gt in Hle. apply has_records_empty.
    now apply result_without_records.
Qed.

Lemma window_unknown (d : nat) pages :
  Forall (fun p => 1 <= p) pages ->
  first_known (map (future_result fetcher d) pages) = 999.
Proof.
  unfold first_known.
  induction 1 as [ | p pages Hp Hpages IH ]; simpl; trivial.
  destruct (Z_le_gt_dec p k) as [Hle | Hgt].
  - destruct (result_with_records d p) as (_ & _ & ->); [ lia | ].
    rewrite andb_false_r. exact IH.
  - assert (Hno : has_records (future_result fetcher d p) = false)
      by (apply has_records_empty, result_without_records; lia).
    rewrite Hno. exact IH.
Qed.

Lemma batch_loop_stays_unknown (fuel : nat) :
  forall (count : Z) pages st,
    Forall (fun p => 1 <= p) pages -> StronglySorted Z.lt pages ->
    total_pages_estimate st = 999 ->
    total_pages_estimate
      (fst (fst (batch_loop fetcher completion fuel count pages st))) = 999.
Proof.
  assert (Hpass : forall d pages,
             Forall (fun p => 1 <= p) pages -> StronglySorted Z.lt pages ->
             estimate (process_results
                         999 (results_of fetcher completion d pages)) = 999).
  { intros d pages Hpos Hsorted.
    rewrite process_results_first_known, results_of_ordered by trivial.
    now apply window_unknown. }
  induction fuel as [ | fuel IH ]; intros count pages st Hpos Hsorted Hest;
    rewrite batch_loop_pass; cbv zeta; rewrite Hest;
    destruct (_ || _); simpl; auto;
    destruct (count + 1 <=? max_batch_retries); simpl; auto.
  apply IH; simpl; auto.
Qed.

Lemma page_range_succ (first : Z) (n : nat) :
  page_range first (S n) = first :: page_range (first + 1) n.
Proof.
  unfold page_range. simpl. rewrite Z.add_0_r. f_equal.
  rewrite <- seq_shift, map_map. apply map_ext. intros i. lia.
Qed.

Lemma page_range_app (first : Z) (n m : nat) :
  page_range first (n + m)
  = page_range first n ++ page_range (first + Z.of_nat n) m.
Proof.
  revert first. induction n as [ | n IH ]; intros first.
  - simpl. now rewrite Z.add_0_r.
  - change (S n + m)%nat with (S (n + m)). rewrite !page_range_succ, IH.
    simpl. do 3 f_equal. lia.
Qed.

Lemma page_range_positive (first : Z) (n : nat) :
  1 <= first -> Forall (fun p => 1 <= p) (page_range first n).
Proof.
  intros Hfirst. apply Forall_forall. intros p Hp.
  apply page_range_bounds in Hp. lia.
Qed.

Lemma filter_page_range (n : nat) :
  forall first,
    filter (fun p => p <=? k) (page_range first n)
    = page_range first (Nat.min n (Z.to_nat (k - first + 1))).
Proof.
  induction n as [ | n IH ]; intros first; [ reflexivity | ].
  rewrite page_range_succ. simpl. rewrite IH.
  destruct (first <=? k) eqn:Hle.
  - apply Z.leb_le in Hle.
    replace (Z.to_nat (k - first + 1))
      with (S (Z.to_nat (k - (first + 1) + 1))) by lia.
    simpl Nat.min. now rewrite page_range_succ.
  - apply Z.leb_gt in Hle.
    replace (Z.to_nat (k - (first + 1) + 1)) with 0%nat by lia.
    replace (Z.to_nat (k - first + 1)) with 0%nat by lia.
    now rewrite Nat.min_0_r.
Qed.

Lemma pages_of_default (first : Z) :
  pages_to_scrape default_config 999 first = page_range first 5.
Proof.
  reflexivity.
Qed.

(** One pass of the loop in this setting. *)
Lemma pass_default st :
  interrupted st = false ->
  total_pages_estimate st = 999 ->
  1 <= page st ->
  exists st',
    (if page st <=? k
     then loop_body fetcher completion default_config st = Continue st'
          /\ page st' = page st + 5
          /\ consecutive_empty_batches st' = 0
     else if consecutive_empty_batches st + 1 >=? 2
          then loop_body fetcher completion default_config st = Break st'
               /\ page st' = page st
               /\ consecutive_empty_batches st'
                  = consecutive_empty_batches st + 1
          else loop_body fetcher completion default_config st = Continue st'
               /\ page st' = page st + 5
               /\ consecutive_empty_batches st'
                  = consecutive_empty_batches st + 1)
    /\ interrupted st' = false
    /\ total_pages_estimate st' = 999
    /\ all_properties st'
       = all_properties st
         ++ flat_map records
              (filter (fun p => p <=? k) (page_range (page st) 5)).
Proof.
  intros Hrun Hest Hpage.
  pose proof (page_range_positive (page st) 5 Hpage) as Hpos.
  pose proof (page_range_sorted (page st) 5) as Hsorted.
  assert (Hbody :
            loop_body fetcher completion default_config st
            = let '(st1, rs, e) :=
                batch_loop fetcher completion (Z.to_nat max_batch_retries) 0
                           (page_range (page st) 5) st in
              after_batch default_config st1 rs e).
  { unfold loop_body. rewrite Hrun, Hest, pages_of_default.
    rewrite (page_range_succ (page st) 4). reflexivity. }
  rewrite Hbody. clear Hbody.
  pose proof (batch_loop_stays_unknown
                (Z.to_nat max_batch_retries) 0 _ st Hpos Hsorted Hest) as Hunk.
  destruct (batch_loop fetcher completion (Z.to_nat max_batch_retries) 0
                       (page_range (page st) 5) st)
    as [[st1 rs] e] eqn:Hbatch.
  simpl in Hunk.
  apply batch_loop_frame in Hbatch.
  destruct Hbatch as (Hp1 & Hi1 & _ & Hc1 & (d & _ & Hrs) & Htest & Hall & _).
  rewrite results_of_ordered in Hrs by trivial. subst rs.
  rewrite flat_map_future_results, window_records in Hall by trivial.
  rewrite window_has_records in Htest by trivial.
  assert (Hfirst : existsb (fun p => p <=? k) (page_range (page st) 5)
                   = (page st <=? k)).
  { rewrite page_range_succ. simpl.
    destruct (page st <=? k) eqn:Hle; trivial. apply Z.leb_gt in Hle.
    repeat match goal with
           | |- context [?a <=? k] =>
               replace (a <=? k) with false by (symmetry; apply Z.leb_gt; lia)
           end. reflexivity. }
  rewrite Hfirst in Htest.
  remember (flat_map records
              (filter (fun p => p <=? k) (page_range (page st) 5))) as got.
  unfold after_batch. rewrite Htest.
  assert (Hbreak : forall c, should_break default_config (set_consecutive c st1)
                             = false).
  { intros c. unfold should_break. simpl. now rewrite Hunk. }
  destruct (page st <=? k); simpl.
  - rewrite Hbreak. eexists. split; [ split; [ reflexivity | ] | ].
    + destruct (advance_fields _ _ default_config (set_consecutive 0 st1))
        as (-> & _ & _ & _ & -> & _). simpl. split; [ lia | reflexivity ].
    + destruct (advance_fields _ _ default_config (set_consecutive 0 st1))
        as (_ & -> & _ & -> & _ & -> & _). simpl.
      repeat split; congruence.
  - rewrite Hc1.
    destruct (consecutive_empty_batches st + 1 >=? 2) eqn:Hcount.
    + unfold max_consecutive_empty_batches. rewrite Hcount.
      eexists. split; [ split; [ reflexivity | ] | ]; simpl.
      * split; trivial.
      * repeat split; congruence.
    + unfold max_consecutive_empty_batches. rewrite Hcount, Hbreak.
      eexists. split; [ split; [ reflexivity | ] | ].
      * destruct (advance_fields
                    _ _ default_config
                    (set_consecutive (consecutive_empty_batches st + 1) st1))
          as (-> & _ & _ & _ & -> & _). simpl. split; [ lia | reflexivity ].
      * destruct (advance_fields
                    _ _ default_config
                    (set_consecutive (consecutive_empty_batches st + 1) st1))
          as (_ & -> & _ & -> & _ & -> & _). simpl.
        repeat split; congruence.
Qed.

Lemma nothing_after_k (first : Z) (n : nat) :
  k < first ->
  flat_map records (filter (fun p => p <=? k) (page_range first n)) = [].
Proof.
  intros Hfirst. rewrite filter_page_range.
  replace (Z.to_nat (k - first + 1)) with 0%nat by lia.
  now rewrite Nat.min_0_r.
Qed.

(** From a state at the top of a pass with [n] batches with records
    ahead: the loop needs [n + 2] passes, and leaves with the records of
    the pages up to [k]. *)
Lemma harvest_from (n : nat) :
  forall st (fuel : nat),
    interrupted st = false ->
    total_pages_estimate st = 999 ->
    consecutive_empty_batches st = 0 ->
    1 <= page st ->
    k < page st + 5 * Z.of_nat n ->
    ((0 < n)%nat -> page st + 5 * (Z.of_nat n - 1) <= k) ->
    ((n + 2 <= fuel)%nat ->
     exists st',
       scrape_loop fetcher completion fuel default_config st = Some st'
       /\ all_properties st'
          = all_properties st
            ++ flat_map records
                 (filter (fun p => p <=? k) (page_range (page st) (5 * n)))
       /\ consecutive_empty_batches st' = 2
       /\ page st' = page st + 5 * Z.of_nat n + 5)
    /\ ((fuel < n + 2)%nat ->
        scrape_loop fetcher completion fuel default_config st = None).
Proof.
  induction n as [ | n IH ];
    intros st fuel Hrun Hest Hcount Hpage Hlast Hfirst.
  - destruct (pass_default st Hrun Hest Hpage)
      as (st1 & Hstep & Hrun1 & Hest1 & Hall1).
    replace (page st <=? k) with false in Hstep
      by (symmetry; apply Z.leb_gt; lia).
    rewrite Hcount in Hstep. simpl in Hstep.
    destruct Hstep as (Hbody & Hpage1 & Hcount1).
    rewrite nothing_after_k, app_nil_r in Hall1 by lia.
    destruct (pass_default st1 Hrun1 Hest1)
      as (st2 & Hstep2 & Hrun2 & Hest2 & Hall2); [ lia | ].
    replace (page st1 <=? k) with false in Hstep2
      by (symmetry; apply Z.leb_gt; lia).
    rewrite Hcount1 in Hstep2. simpl in Hstep2.
    destruct Hstep2 as (Hbody2 & Hpage2 & Hcount2).
    rewrite nothing_after_k, app_nil_r in Hall2 by lia.
    split; intros Hfuel.
    + destruct fuel as [ | [ | fuel ] ]; try lia.
      exists st2. simpl. rewrite Hbody, Hbody2.
      repeat split; try lia. simpl. rewrite app_nil_r. congruence.
    + destruct fuel as [ | [ | fuel ] ]; try lia; simpl; trivial.
      now rewrite Hbody.
  - destruct (pass_default st Hrun Hest Hpage)
      as (st1 & Hstep & Hrun1 & Hest1 & Hall1).
    replace (page st <=? k) with true in Hstep
      by (symmetry; apply Z.leb_le; lia).
    destruct Hstep as (Hbody & Hpage1 & Hcount1).
    destruct fuel as [ | fuel ]; [ split; [ lia | reflexivity ] | ].
    destruct (IH st1 fuel) as [Hsome Hnone]; trivial; try lia.
    cbn [scrape_loop]. rewrite Hbody. split; intros Hfuel.
    + destruct Hsome as (st' & Hloop & Hall & Hc & Hp); [ lia | ].
      exists st'. repeat split; trivial; try lia.
      rewrite Hall, Hall1, Hpage1, <- app_assoc, <- flat_map_app, <- filter_app.
      replace (5 * S n)%nat with (5 + 5 * n)%nat by lia.
      now rewrite page_range_app.
    + apply Hnone. lia.
Qed.

Lemma final_save_fields (cfg : Config) st :
  page (final_save cfg st) = page st
  /\ consecutive_empty_batches (final_save cfg st)
     = consecutive_empty_batches st.
Proof.
  unfold final_save. destruct (all_properties st); simpl; split; trivial.
Qed.

(** C2: when pages 1 to [k] carry records and no total page count and
    every later page is empty, the harvest from page 1 without page ceiling
    ends after the batches that reach page [k] and two more batches, both
    without any record: it returns the records of pages 1 to [k] in page
    order, with the counter of consecutive empty batches at 2 and the last
    batch started 5 pages after the first empty one.  It does not end
    earlier.  In any pass the counter becomes one more when no result of
    the finished batch has records and 0 otherwise. *)
Theorem harvest_ends_after_two_empty_batches (fuel : nat) (key : Category) :
  ((Z.to_nat ((k + 4) / 5) + 2 <= fuel)%nat ->
   exists st,
     scrape_city_property_type fetcher completion fuel default_config key false
     = Some (flat_map records (page_range 1 (Z.to_nat k)), st)
     /\ consecutive_empty_batches st = 2
     /\ page st = 5 * ((k + 4) / 5) + 6)
  /\ ((fuel < Z.to_nat ((k + 4) / 5) + 2)%nat ->
      scrape_city_property_type fetcher completion fuel default_config key false
      = None)
  /\ (forall (cfg : Config) (st : State Rec Category),
         interrupted st = false ->
         pages_to_scrape cfg (total_pages_estimate st) (page st) <> [] ->
         consecutive_empty_batches
           (state_of (loop_body fetcher completion cfg st))
         = if existsb has_records
                (snd (fst (batch_loop
                             fetcher completion
                             (Z.to_nat max_batch_retries) 0
                             (pages_to_scrape cfg (total_pages_estimate st)
                                              (page st)) st)))
           then 0 else consecutive_empty_batches st + 1).
Proof.
  pose proof (Z.div_mod (k + 4) 5) as Hdiv.
  pose proof (Z.mod_pos_bound (k + 4) 5) as Hmod.
  assert (Hnb : 0 <= (k + 4) / 5) by (apply Z.div_pos; lia).
  destruct (harvest_from (Z.to_nat ((k + 4) / 5))
                         (enter default_config key false 0 []) fuel)
    as [Hsome Hnone]; try reflexivity;
    change (page (enter default_config key false 0 [])) with 1; try lia.
  split; [ | split ].
  - intros Hfuel. destruct Hsome as (st' & Hloop & Hall & Hc & Hp); trivial.
    exists (final_save default_config st').
    unfold scrape_city_property_type. rewrite Hloop.
    rewrite final_save_properties.
    destruct (final_save_fields default_config st') as (-> & ->).
    repeat split; trivial.
    + do 2 f_equal. rewrite Hall.
      change (page (enter default_config key false 0 [])) with 1.
      change (all_properties (enter default_config key false 0 []))
        with (@nil Rec).
      rewrite filter_page_range. simpl app. do 2 f_equal. lia.
    + rewrite Hp.
      change (page (enter default_config key false 0 [])) with 1. lia.
  - intros Hfuel. unfold scrape_city_property_type. now rewrite Hnone.
  - intros cfg st. apply loop_body_counter.
Qed.

End EndOfData.

(** * Checkpoints and interruption *)

Section Checkpoints.

Variable Rec Category : Type.
Variable fetcher : nat -> Z -> option (list Rec * Z * Z).
Variable completion : nat -> list (PageResult Rec) -> list (PageResult Rec).
Variable cfg : Config.

Implicit Types (st : State Rec Category).

(** When the loop moves on to the next batch, the checkpoint it writes
    carries [page + 9], while no page above [page + 4] was a candidate of
    the batch just finished. *)
Lemma checkpoint_names_next_window st st' :
  loop_body fetcher completion cfg st = Continue st' ->
  Forall (fun p => p <= page st + 4)
         (pages_to_scrape cfg (total_pages_estimate st) (page st))
  /\ exists log rest n,
      trace st' = log ++ EvSaveProgress (current_key st) (page st + 9) n :: rest.
Proof.
  intros Hstep. split.
  - apply Forall_forall. intros p Hp.
    apply pages_to_scrape_window in Hp. lia.
  - unfold loop_body in Hstep.
    destruct (interrupted st); [ discriminate | ].
    destruct (pages_to_scrape cfg (total_pages_estimate st) (page st))
      as [ | p pages ]; [ discriminate | ].
    destruct (batch_loop fetcher completion (Z.to_nat max_batch_retries) 0
                         (p :: pages) st) as [[st1 rs] e] eqn:Hbatch.
    apply batch_loop_frame in Hbatch.
    destruct Hbatch as (Hpage & _ & Hkey & _).
    unfold after_batch in Hstep.
    repeat match type of Hstep with
           | (if ?b then _ else _) = _ => destruct b; try discriminate
           | context [if ?b then _ else _] => destruct b
           end;
      injection Hstep as <-;
      match goal with
      | |- context [advance cfg ?s] =>
          destruct (advance_checkpoint _ _ cfg s) as (rest & ->)
      end; simpl; rewrite Hpage, Hkey;
      replace (page st + 10 - 1) with (page st + 9) by lia;
      do 3 eexists; reflexivity.
Qed.

Lemma interrupted_loop_stops (fuel : nat) st :
  interrupted st = true ->
  scrape_loop fetcher completion (S fuel) cfg st = Some st.
Proof.
  intros Hflag. simpl. unfold loop_body. now rewrite Hflag.
Qed.

(** C9, as the code has it: the handler sets the interruption flag; when
    records have been collected it writes them with the page range and then
    the checkpoint with the current page and their number, and only then
    raises; when no record has been collected it writes nothing before it
    raises.  A loop that finds the flag set leaves at once, without
    dispatching a batch or writing anything. *)
Theorem interrupt_saves_then_raises st :
  (current_properties st <> [] ->
   trace (signal_handler cfg st)
   = trace st
     ++ [EvSaveIntermediate (current_key st) (current_properties st)
                            (start_page cfg) (current_page st);
         EvSaveProgress (current_key st) (current_page st)
                        (len (current_properties st));
         EvRaiseKeyboardInterrupt])
  /\ (current_properties st = [] ->
      trace (signal_handler cfg st) = trace st ++ [EvRaiseKeyboardInterrupt])
  /\ interrupted (signal_handler cfg st) = true
  /\ (forall (fuel : nat) (st0 : State Rec Category),
         interrupted st0 = true ->
         scrape_loop fetcher completion (S fuel) cfg st0 = Some st0).
Proof.
  unfold signal_handler, save_on_interrupt, save_intermediate_data,
    save_progress.
  repeat split.
  - intros Hsome. simpl. destruct (current_properties st); [ congruence | ].
    reflexivity.
  - intros ->. reflexivity.
  - intros fuel st0. apply interrupted_loop_stops.
Qed.

End Checkpoints.

(** * The model on sample inputs *)

Lemma reversed_permutes :
  forall d l, Permutation (Sample.reversed d l) l.
Proof.
  intros d l. unfold Sample.reversed. symmetry. apply Permutation_rev.
Defined.

(** C1: after the first batch of a harvest from page 1, pages 1 to 5, the
    checkpoint written by [save_progress] carries page 10, the last page of
    the batch that has not been dispatched yet, where the claim expects
    page 5. *)
Theorem checkpoint_after_first_batch :
  loop_body Sample.every_page Sample.reversed default_config Sample.fresh
  = Continue Sample.after_first_batch
  /\ trace Sample.after_first_batch
     = [EvDispatch [1; 2; 3; 4; 5]; EvSaveProgress (Some tt) 10 5]
  /\ current_page Sample.after_first_batch = 5.
Proof.
  repeat split; vm_compute; reflexivity.
Qed.

(** Against C5 as stated: when every fetch fails, the total page count of
    the result is 1, not the 999 marker. *)
Lemma fetch_default_total_is_one :
  fetch_single_page Sample.no_match Sample.no_json Sample.always_fails 3
  = Ok ((3, PList [], PInt 1, PInt 1), 5%nat)
  /\ PInt 1 <> PInt 999.
Proof.
  split; [ reflexivity | discriminate ].
Qed.

(** Against C6 as stated: for a text without the pattern the total page
    count returned is 1, not the 999 marker. *)
Lemma extract_default_total_is_one :
  extract_properties_from_html Sample.no_match Sample.no_json
                               "<html></html>"
  = Ok (PList [], PInt 1, PInt 1)
  /\ PInt 1 <> PInt 999.
Proof.
  split; [ reflexivity | discriminate ].
Qed.

(** Against C7 as stated: the total reported by a result without records
    does not reach the belief. *)
Lemma empty_result_total_not_fed :
  estimate (process_results 999 [Sample.empty_with_total]) = 999
  /\ feed_every_result 999 [Sample.empty_with_total] = 7
  /\ estimate (process_results 999 [Sample.empty_with_total])
     <> feed_every_result 999 [Sample.empty_with_total].
Proof.
  repeat split; vm_compute; congruence.
Qed.

(** Against C9 as stated: a signal that arrives before any record has
    been collected writes neither records nor the current page. *)
Lemma interrupt_without_records_saves_nothing :
  current_page Sample.fresh = 1
  /\ trace (signal_handler default_config Sample.fresh)
     = [EvRaiseKeyboardInterrupt]
  /\ filter is_save (trace (signal_handler default_config Sample.fresh)) = [].
Proof.
  repeat split.
Qed.

Lemma harvest_ends_after_two_empty_batches_witness :
  exists st,
    scrape_city_property_type Sample.seven_pages Sample.reversed 4
                              default_config tt false
    = Some ([1; 2; 3; 4; 5; 6; 7], st)
    /\ consecutive_empty_batches st = 2
    /\ page st = 16.
Proof.
  assert (Hwith : forall (d : nat) (p : Z),
             1 <= p <= 7 ->
             [p] <> []
             /\ exists cur, Sample.seven_pages d p = Some ([p], cur, 999)).
  { intros d p Hp. split; [ discriminate | ]. exists p.
    unfold Sample.seven_pages.
    destruct (p <=? 7) eqn:Hle; [ reflexivity | ].
    apply Z.leb_gt in Hle. lia. }
  assert (Hwithout : forall (d : nat) (p : Z),
             7 < p ->
             match Sample.seven_pages d p with
             | Some (props, _, _) => props = []
             | None => True
             end).
  { intros d p Hp. unfold Sample.seven_pages.
    destruct (p <=? 7) eqn:Hle; [ | reflexivity ].
    apply Z.leb_le in Hle. lia. }
  assert (Hk : 0 <= 7) by lia.
  destruct (harvest_ends_after_two_empty_batches
              Z unit Sample.seven_pages Sample.reversed reversed_permutes
              7 (fun p => [p]) Hk Hwith Hwithout 4%nat tt) as [Hends _].
  apply Hends. vm_compute. lia.
Defined.

Lemma batch_retry_policy_witness :
  trace (fst (fst (batch_loop Sample.third_time_lucky Sample.reversed
                              (Z.to_nat max_batch_retries) 0
                              [1; 2; 3; 4; 5] Sample.fresh)))
  = [EvDispatch [1; 2; 3; 4; 5]; EvDispatch [1; 2; 3; 4; 5];
     EvDispatch [1; 2; 3; 4; 5]]
  /\ all_properties
       (fst (fst (batch_loop Sample.third_time_lucky Sample.reversed
                             (Z.to_nat max_batch_retries) 0
                             [1; 2; 3; 4; 5] Sample.fresh)))
     = [1; 2; 3; 4; 5].
Proof.
  destruct (batch_retry_policy Z unit Sample.third_time_lucky Sample.reversed
                               [1; 2; 3; 4; 5] Sample.fresh)
    as (_ & _ & _ & Hthird).
  apply Hthird.
  - vm_compute. discriminate.
  - reflexivity.
  - reflexivity.
Defined.

Lemma belief_is_final_witness :
  total_pages_estimate Sample.after_conflict = 20
  /\ total_pages_estimate
       (state_of (loop_body Sample.conflicting_totals Sample.reversed
                            default_config Sample.after_conflict)) = 20
  /\ Forall (fun p => p <= 20)
            (pages_to_scrape
               default_config 20
               (page (state_of (loop_body Sample.conflicting_totals
                                          Sample.reversed default_config
                                          Sample.after_conflict)))).
Proof.
  assert (Hknown : total_pages_estimate Sample.after_conflict < 999)
    by (vm_compute; reflexivity).
  assert (Hruns : runs_to Sample.conflicting_totals Sample.reversed
                          default_config Sample.after_conflict
                          (state_of (loop_body Sample.conflicting_totals
                                               Sample.reversed default_config
                                               Sample.after_conflict))).
  { eapply runs_on; [ vm_compute; reflexivity | apply runs_here ]. }
  destruct (belief_is_final Z unit Sample.conflicting_totals Sample.reversed
                            default_config _ _ Hknown Hruns)
    as (Hsame & Hpages & _).
  split; [ reflexivity | ]. split; [ exact Hsame | exact Hpages ].
Defined.

Lemma fetch_single_page_outcome_witness :
  exists t n,
    fetch_single_page Sample.no_match Sample.no_json Sample.always_fails 3
    = Ok (t, n)
    /\ n = 5%nat
    /\ t = (3, PList [], PInt 1, PInt 1).
Proof.
  destruct (fetch_single_page_outcome Sample.no_match Sample.no_json
                                      Sample.always_fails 3)
    as (t & n & Hrun & _ & _ & Hnone).
  exists t, n. split; [ exact Hrun | ].
  apply Hnone. intros j Hj. reflexivity.
Defined.

Lemma extract_never_raises_and_defaults_witness :
  extract_properties_from_html Sample.no_match Sample.no_json EmptyString
  = Ok (PList [], PInt 1, PInt 1).
Proof.
  apply (proj2 (extract_never_raises_and_defaults
                  Sample.no_match Sample.no_json EmptyString)).
  reflexivity.
Defined.

Lemma records_in_page_order_witness :
  scrape_city_property_type Sample.seven_pages Sample.reversed 4
                            default_config tt false
  = scrape_city_property_type Sample.seven_pages (fun _ l => l) 4
                              default_config tt false
  /\ page_ordered Sample.seven_pages [1; 2; 3; 4; 5; 6; 7].
Proof.
  destruct (records_in_page_order Z unit Sample.seven_pages Sample.reversed
                                  reversed_permutes)
    as (_ & _ & Hany & _ & Hreturned).
  split; [ apply Hany | ].
  eapply (Hreturned 4%nat default_config tt false). vm_compute. reflexivity.
Defined.

Lemma interrupt_saves_then_raises_witness :
  trace (signal_handler default_config Sample.after_first_batch)
  = [EvDispatch [1; 2; 3; 4; 5]; EvSaveProgress (Some tt) 10 5;
     EvSaveIntermediate (Some tt) [1; 2; 3; 4; 5] 1 5;
     EvSaveProgress (Some tt) 5 5;
     EvRaiseKeyboardInterrupt].
Proof.
  apply (proj1 (interrupt_saves_then_raises
                  Z unit Sample.every_page Sample.reversed default_config
                  Sample.after_first_batch)).
  vm_compute. discriminate.
Defined.

Lemma extract_without_pagination_witness :
  extract_properties_from_html Sample.whole_text Sample.full_page "x"
  = Ok (PList (repeat (PDict [("id"%string, PInt 1)]) 27), PInt 1, PInt 999).
Proof.
  apply (extract_without_pagination
           Sample.whole_text Sample.full_page "x" "x"
           [("srp"%string,
             PDict [("pageData"%string,
                     PDict [("properties"%string,
                             PList (repeat (PDict [("id"%string, PInt 1)])
                                           27))])])]
           [("pageData"%string,
             PDict [("properties"%string,
                     PList (repeat (PDict [("id"%string, PInt 1)]) 27))])]
           [("properties"%string,
             PList (repeat (PDict [("id"%string, PInt 1)]) 27))]
           (repeat (PDict [("id"%string, PInt 1)]) 27));
    reflexivity.
Defined.

(** * What a pass does to the state and to the log *)

Section Passes.

Variable Rec Category : Type.
Variable fetcher : nat -> Z -> option (list Rec * Z * Z).
Variable completion : nat -> list (PageResult Rec) -> list (PageResult Rec).
Variable cfg : Config.

Implicit Types (st : State Rec Category) (pages : list Z).
Implicit Types (log : list (Event Rec Category)).

#[local] Arguments batch_loop : simpl never.

Lemma dispatched_app log1 log2 :
  dispatched (log1 ++ log2) = dispatched log1 ++ dispatched log2.
Proof.
  unfold dispatched. apply flat_map_app.
Qed.

Lemma dispatched_repeat pages (n : nat) :
  dispatched (repeat (@EvDispatch Rec Category pages) n) = repeat pages n.
Proof.
  induction n as [ | n IH ]; simpl; trivial. now f_equal.
Qed.

Lemma checkpoint_counts_app log1 log2 :
  checkpoint_counts (log1 ++ log2)
  = checkpoint_counts log1 ++ checkpoint_counts log2.
Proof.
  unfold checkpoint_counts. apply flat_map_app.
Qed.

Lemma written_files_app log1 log2 :
  written_files (log1 ++ log2) = written_files log1 ++ written_files log2.
Proof.
  unfold written_files. apply flat_map_app.
Qed.

Lemma checkpoint_counts_repeat pages (n : nat) :
  checkpoint_counts (repeat (@EvDispatch Rec Category pages) n) = [].
Proof.
  induction n as [ | n IH ]; simpl; trivial.
Qed.

Lemma written_files_repeat pages (n : nat) :
  written_files (repeat (@EvDispatch Rec Category pages) n) = [].
Proof.
  induction n as [ | n IH ]; simpl; trivial.
Qed.

(** The log and the snapshot kept for the interrupt handler through the
    retry loop. *)
Lemma batch_loop_log (fuel : nat) :
  forall (count : Z) pages st st' rs e,
    batch_loop fetcher completion fuel count pages st = (st', rs, e) ->
    (exists n, (1 <= n <= S fuel)%nat
               /\ trace st' = trace st ++ repeat (EvDispatch pages) n)
    /\ (current_properties st = all_properties st ->
        current_properties st' = all_properties st')
    /\ (current_page st <= page st + 4 ->
        current_page st' <= page st + 4).
Proof.
  induction fuel as [ | fuel IH ]; intros count pages st st' rs e Hrun;
    rewrite batch_loop_pass in Hrun; cbv zeta in Hrun;
    destruct (existsb has_records
                (results_of fetcher completion (dispatches st) pages)
              || (page st >? 100)).
  1, 3: injection Hrun as <- <- <-; simpl;
    (split; [ exists 1%nat; split; [ lia | reflexivity ] | ]);
    split; intros; unfold concurrent_pages; trivial; lia.
  - assert (Hst : trace st' = trace st ++ [EvDispatch pages]
                  /\ current_properties st' = current_properties st
                  /\ all_properties st' = all_properties st
                  /\ current_page st' = current_page st).
    { destruct (count + 1 <=? max_batch_retries);
        injection Hrun as <- _ _; simpl; auto. }
    destruct Hst as (Htrace & Hcur & Hall & Hpage).
    split; [ exists 1%nat; split; [ lia | exact Htrace ] | ].
    rewrite Hcur, Hall, Hpage. split; trivial.
  - destruct (count + 1 <=? max_batch_retries).
    + apply IH in Hrun. simpl in Hrun.
      destruct Hrun as ((n & Hn & Htrace) & Hsnap & Hpage).
      split; [ | split; trivial ].
      exists (S n). split; [ lia | ].
      rewrite Htrace, <- app_assoc. reflexivity.
    + injection Hrun as <- _ _. simpl.
      split; [ exists 1%nat; split; [ lia | reflexivity ] | ].
      split; trivial.
Qed.

Lemma advance_log st :
  dispatched (trace (advance cfg st)) = dispatched (trace st)
  /\ written_files (trace (advance cfg st)) = written_files (trace st)
  /\ checkpoint_counts (trace (advance cfg st))
     = checkpoint_counts (trace st) ++ [len (all_properties st)]
  /\ current_properties (advance cfg st) = current_properties st
  /\ current_page (advance cfg st) = current_page st.
Proof.
  unfold advance. destruct (_ && _); simpl;
    rewrite ?dispatched_app, ?written_files_app, ?checkpoint_counts_app;
    simpl; rewrite ?app_nil_r; repeat split.
Qed.

(** One pass: the candidate pages are dispatched [n] times, at most 3; the
    loop goes on only outside test mode and while the next window starts
    within the page ceiling and the known total. *)
Lemma loop_body_shape st :
  exists n,
    (n <= 3)%nat
    /\ dispatched (trace (state_of (loop_body fetcher completion cfg st)))
       = dispatched (trace st)
         ++ repeat (pages_to_scrape cfg (total_pages_estimate st) (page st)) n
    /\ written_files (trace (state_of (loop_body fetcher completion cfg st)))
       = written_files (trace st)
    /\ (exists tail,
           all_properties (state_of (loop_body fetcher completion cfg st))
           = all_properties st ++ tail)
    /\ current_key (state_of (loop_body fetcher completion cfg st))
       = current_key st
    /\ interrupted (state_of (loop_body fetcher completion cfg st))
       = interrupted st
    /\ (current_properties st = all_properties st ->
        current_properties (state_of (loop_body fetcher completion cfg st))
        = all_properties (state_of (loop_body fetcher completion cfg st)))
    /\ match loop_body fetcher completion cfg st with
       | Continue st' =>
           page st' = page st + 5
           /\ interrupted st = false
           /\ (1 <= n)%nat
           /\ test_mode cfg = false
           /\ (forall m, max_pages cfg = Some m -> m <> 0 -> page st + 5 <= m)
           /\ (total_pages_estimate st' < 999 ->
               page st + 5 <= total_pages_estimate st')
           /\ checkpoint_counts (trace st')
              = checkpoint_counts (trace st) ++ [len (all_properties st')]
       | Break st' =>
           page st' = page st
           /\ checkpoint_counts (trace st') = checkpoint_counts (trace st)
       end.
Proof.
  unfold loop_body.
  destruct (interrupted st) eqn:Hflag.
  { exists 0%nat. simpl. rewrite app_nil_r. repeat split; trivial; try lia.
    exists []. now rewrite app_nil_r. }
  destruct (pages_to_scrape cfg (total_pages_estimate st) (page st))
    as [ | p pages ] eqn:Hpages.
  { exists 0%nat. simpl. rewrite app_nil_r. repeat split; trivial; try lia.
    exists []. now rewrite app_nil_r. }
  destruct (batch_loop fetcher completion (Z.to_nat max_batch_retries) 0
                       (p :: pages) st) as [[st1 rs] e] eqn:Hbatch.
  pose proof (batch_loop_log _ _ _ _ _ _ _ Hbatch)
    as ((n & Hn & Htrace) & Hsnap & _).
  apply batch_loop_frame in Hbatch.
  destruct Hbatch as (Hp1 & Hi1 & Hk1 & _ & _ & _ & Hall & _).
  change (Z.to_nat max_batch_retries) with 2%nat in Hn.
  exists n. split; [ lia | ].
  assert (Hd1 : dispatched (trace st1)
                = dispatched (trace st) ++ repeat (p :: pages) n)
    by (now rewrite Htrace, dispatched_app, dispatched_repeat).
  assert (Hw1 : written_files (trace st1) = written_files (trace st))
    by (now rewrite Htrace, written_files_app, written_files_repeat,
          app_nil_r).
  assert (Hc1 : checkpoint_counts (trace st1) = checkpoint_counts (trace st))
    by (now rewrite Htrace, checkpoint_counts_app, checkpoint_counts_repeat,
          app_nil_r).
  unfold after_batch.
  set (st2 := if e =? Z.of_nat (List.length rs)
              then set_consecutive (consecutive_empty_batches st1 + 1) st1
              else set_consecutive 0 st1).
  assert (Hst2 : trace st2 = trace st1 /\ all_properties st2 = all_properties st1
                 /\ current_key st2 = current_key st1
                 /\ interrupted st2 = interrupted st1
                 /\ current_properties st2 = current_properties st1
                 /\ page st2 = page st1
                 /\ total_pages_estimate st2 = total_pages_estimate st1).
  { unfold st2. destruct (e =? _); simpl; repeat split. }
  destruct Hst2 as (Ht2 & Ha2 & Hk2 & Hi2 & Hcp2 & Hp2 & He2).
  destruct ((e =? Z.of_nat (List.length rs))
            && (consecutive_empty_batches st2
                >=? max_consecutive_empty_batches)).
  { simpl. rewrite Ht2, Ha2, Hk2, Hi2, Hcp2, Hp2.
    repeat split; trivial; try congruence. now exists (flat_map properties rs). }
  destruct (should_break cfg st2) eqn:Hbreak.
  { simpl. rewrite Ht2, Ha2, Hk2, Hi2, Hcp2, Hp2.
    repeat split; trivial; try congruence. now exists (flat_map properties rs). }
  simpl.
  destruct (advance_fields _ _ cfg st2) as (Hpa & Hia & Hka & Haa & _ & Hea & _).
  destruct (advance_log st2) as (Hda & Hwa & Hca & Hcpa & _).
  rewrite Hda, Hwa, Hca, Hpa, Hia, Hka, Haa, Hcpa, Hea.
  rewrite Ht2, Ha2, Hk2, Hi2, Hcp2, Hp2, He2.
  unfold should_break in Hbreak.
  repeat split; trivial; try congruence; try lia.
  - now exists (flat_map properties rs).
  - destruct (test_mode cfg); [ discriminate | reflexivity ].
  - intros m Hm Hm0. destruct (test_mode cfg); [ discriminate | ].
    rewrite Hm in Hbreak. apply Z.eqb_neq in Hm0. rewrite Hm0 in Hbreak.
    simpl in Hbreak.
    destruct (page st2 + concurrent_pages >? m) eqn:Hgt; [ discriminate | ].
    rewrite Z.gtb_ltb in Hgt. apply Z.ltb_ge in Hgt.
    unfold concurrent_pages in Hgt. lia.
  - intros Hknown. destruct (test_mode cfg); [ discriminate | ].
    destruct (match max_pages cfg with
              | Some m => negb (m =? 0) && (page st2 + concurrent_pages >? m)
              | None => false
              end); [ discriminate | ].
    rewrite He2 in Hbreak. apply Z.ltb_lt in Hknown. rewrite Hknown in Hbreak.
    simpl in Hbreak.
    destruct (page st2 + concurrent_pages >? total_pages_estimate st1) eqn:Hgt;
      [ discriminate | ].
    rewrite Z.gtb_ltb in Hgt. apply Z.ltb_ge in Hgt.
    unfold concurrent_pages in Hgt. lia.
Qed.

End Passes.

(** * Bounded harvests, the log of a harvest *)

Section Harvest.

Variable Rec Category : Type.
Variable fetcher : nat -> Z -> option (list Rec * Z * Z).
Variable completion : nat -> list (PageResult Rec) -> list (PageResult Rec).
Variable cfg : Config.

Implicit Types (st : State Rec Category) (pages : list Z).

Lemma limited_loop_terminates (fuel : nat) :
  forall st bound,
    limited cfg st bound ->
    bound - page st < 5 * (Z.of_nat fuel + 1) ->
    exists st', scrape_loop fetcher completion (S fuel) cfg st = Some st'.
Proof.
  induction fuel as [ | fuel IH ]; intros st bound Hlimit Hfuel;
    cbn [scrape_loop];
    destruct (loop_body_shape _ _ fetcher completion cfg st)
      as (n & _ & _ & _ & _ & _ & _ & _ & Hstep);
    pose proof (loop_body_estimate _ _ fetcher completion cfg st) as Hest;
    destruct (loop_body fetcher completion cfg st) as [ st1 | st1 ];
    try (now exists st1); simpl in Hest;
    destruct Hstep as (Hpage & _ & _ & _ & Hceiling & Hknown & _);
    assert (Hnext : page st + 5 <= bound /\ limited cfg st1 bound)
      by (destruct Hlimit as [[Hm Hm0] | [Hk ->]];
          [ split; [ now apply Hceiling | now left ]
          | assert (total_pages_estimate st1 = total_pages_estimate st) by lia;
            split; [ assert (page st + 5 <= total_pages_estimate st1)
                       by (apply Hknown; lia); lia
                   | right; split; lia ] ]);
    destruct Hnext as [Hle Hlimit1].
  - lia.
  - apply (IH st1 bound Hlimit1). lia.
Qed.

(** With a page ceiling in force the harvest ends, whatever the pages
    return. *)
Theorem harvest_with_ceiling_terminates (m : Z) (fuel : nat)
        (key : Category) (flag : bool) :
  max_pages cfg = Some m -> m <> 0 ->
  m - start_page cfg < 5 * (Z.of_nat fuel + 1) ->
  exists records st,
    scrape_city_property_type fetcher completion (S fuel) cfg key flag
    = Some (records, st).
Proof.
  intros Hm Hm0 Hfuel. unfold scrape_city_property_type.
  destruct (limited_loop_terminates fuel (enter cfg key flag 0 []) m)
    as [st' ->]; [ now left | exact Hfuel | ].
  now eauto.
Qed.

(** Once a total page count is known the loop ends within the passes that
    the remaining pages allow. *)
Theorem loop_with_known_total_terminates (fuel : nat) st :
  total_pages_estimate st < 999 ->
  total_pages_estimate st - page st < 5 * (Z.of_nat fuel + 1) ->
  exists st', scrape_loop fetcher completion (S fuel) cfg st = Some st'.
Proof.
  intros Hknown Hfuel.
  apply (limited_loop_terminates fuel st (total_pages_estimate st)); trivial.
  right. now split.
Qed.

Lemma pages_from_ceiling (m est first : Z) (offsets : list Z) :
  max_pages cfg = Some m -> m <> 0 ->
  Forall (fun p => p <= m) (pages_from cfg est first offsets).
Proof.
  intros Hm Hm0. induction offsets as [ | i offsets IH ]; simpl.
  - constructor.
  - unfold max_pages_exceeded. rewrite Hm.
    apply Z.eqb_neq in Hm0. rewrite Hm0. simpl.
    destruct (first + i >? m) eqn:Hgt; [ constructor | ].
    destruct ((est <? 999) && (first + i >? est)); [ constructor | ].
    constructor; trivial.
    rewrite Z.gtb_ltb in Hgt. apply Z.ltb_ge in Hgt. exact Hgt.
Qed.

Lemma sorted_append (A : Type) (R : A -> A -> Prop) (l1 l2 : list A) :
  StronglySorted R l1 -> StronglySorted R l2 ->
  (forall x y, In x l1 -> In y l2 -> R x y) ->
  StronglySorted R (l1 ++ l2).
Proof.
  intros H1 H2 Hcross. induction H1 as [ | a l1 Hs IH Ha ]; simpl; trivial.
  constructor.
  - apply IH. intros x y Hx Hy. apply Hcross; simpl; auto.
  - apply Forall_app. split; trivial.
    apply Forall_forall. intros y Hy. apply Hcross; simpl; auto.
Qed.

Lemma sorted_repeat (A : Type) (R : A -> A -> Prop) (a : A) (n : nat) :
  R a a -> StronglySorted R (repeat a n).
Proof.
  intros Ha. induction n as [ | n IH ]; simpl; constructor; trivial.
  apply Forall_forall. intros x Hx. apply repeat_spec in Hx. now subst.
Qed.

Lemma len_app (l1 l2 : list Rec) :
  len l1 <= len (l1 ++ l2).
Proof.
  unfold len. rewrite length_app. lia.
Qed.

Lemma loop_body_log_in_order st :
  start_page cfg <= page st ->
  log_in_order cfg st (page st) ->
  match loop_body fetcher completion cfg st with
  | Continue st' => log_in_order cfg st' (page st') /\ start_page cfg <= page st'
  | Break st' => log_in_order cfg st' (page st + 5)
  end.
Proof.
  intros Hstart
         (Hpages & Hsorted & Hfiles & Hcounts & Hbelow & Hsnap & Hshape).
  destruct (loop_body_shape _ _ fetcher completion cfg st)
    as (n & Hn & Hd & Hw & (tail & Hall) & _ & _ & Hsnap' & Hstep).
  pose proof (pages_to_scrape_window cfg (total_pages_estimate st) (page st))
    as Hwindow.
  assert (Hnew : Forall (fun p => allowed cfg p /\ p < page st + 5)
                        (pages_to_scrape cfg (total_pages_estimate st)
                                         (page st))).
  { apply Forall_forall. intros p Hp. specialize (Hwindow p Hp).
    split; [ split; [ lia | ] | lia ].
    intros m Hm Hm0.
    pose proof (pages_from_ceiling m (total_pages_estimate st) (page st)
                                   range5 Hm Hm0) as Hceil.
    rewrite Forall_forall in Hceil. now apply Hceil. }
  assert (Hlog : Forall (Forall (fun p => allowed cfg p /\ p < page st + 5))
                        (dispatched
                           (trace (state_of
                                     (loop_body fetcher completion cfg st))))
                 /\ StronglySorted
                      batch_before
                      (dispatched
                         (trace (state_of
                                   (loop_body fetcher completion cfg st))))).
  { rewrite Hd. split.
    - apply Forall_app. split.
      + eapply Forall_impl; [ | exact Hpages ]. intros b Hb.
        eapply Forall_impl; [ | exact Hb ]. intros p [Hp Hlt]. split; trivial.
        lia.
      + apply Forall_forall. intros b Hb. apply repeat_spec in Hb. now subst.
    - apply sorted_append; trivial.
      + apply sorted_repeat. now left.
      + intros b1 b2 Hb1 Hb2. apply repeat_spec in Hb2. subst b2. right.
        intros p q Hp Hq. specialize (Hwindow q Hq).
        rewrite Forall_forall in Hpages. specialize (Hpages b1 Hb1).
        rewrite Forall_forall in Hpages. specialize (Hpages p Hp). lia. }
  assert (Hshape' : Forall (fun b => StronglySorted Z.lt b
                                     /\ (List.length b <= 5)%nat)
                           (dispatched
                              (trace (state_of
                                        (loop_body fetcher completion cfg st))))).
  { rewrite Hd. apply Forall_app. split; trivial.
    apply Forall_forall. intros b Hb. apply repeat_spec in Hb. subst b.
    split; [ apply pages_to_scrape_sorted | ].
    destruct (pages_to_scrape_prefix cfg (total_pages_estimate st) (page st))
      as (k & Hk & ->).
    unfold page_range. rewrite length_map, length_seq. exact Hk. }
  destruct Hlog as [Hlog1 Hlog2]. specialize (Hsnap' Hsnap).
  pose proof (len_app (all_properties st) tail) as Hgrow.
  destruct (loop_body fetcher completion cfg st) as [ st' | st' ];
    simpl in *.
  - destruct Hstep as (Hpage & _ & _ & _ & _ & _ & Hcp).
    split; [ | lia ]. rewrite Hpage.
    repeat split; trivial; try congruence; rewrite Hcp.
    + apply sorted_append; trivial.
      * repeat constructor.
      * intros x y Hx [<- | []]. rewrite Forall_forall in Hbelow.
        specialize (Hbelow x Hx). rewrite Hall. lia.
    + apply Forall_app. split.
      * eapply Forall_impl; [ | exact Hbelow ]. intros x Hx. simpl in Hx.
        rewrite Hall. lia.
      * repeat constructor. lia.
  - destruct Hstep as (Hpage & Hcp).
    repeat split; trivial; try congruence; rewrite Hcp; trivial.
    eapply Forall_impl; [ | exact Hbelow ]. intros x Hx. simpl in Hx.
    rewrite Hall. lia.
Qed.

Lemma scrape_loop_log_in_order (fuel : nat) :
  forall st st',
    start_page cfg <= page st ->
    log_in_order cfg st (page st) ->
    scrape_loop fetcher completion fuel cfg st = Some st' ->
    log_in_order cfg st' (page st' + 5) /\ start_page cfg <= page st'.
Proof.
  induction fuel as [ | fuel IH ]; intros st st' Hstart Hlog Hrun;
    simpl in Hrun; [ discriminate | ].
  pose proof (loop_body_log_in_order st Hstart Hlog) as Hstep.
  destruct (loop_body_shape _ _ fetcher completion cfg st)
    as (n & _ & _ & _ & _ & _ & _ & _ & Hpage).
  destruct (loop_body fetcher completion cfg st) as [ st1 | st1 ].
  - destruct Hstep as [Hlog1 Hstart1]. now apply (IH st1).
  - injection Hrun as Heq. subst st'. destruct Hpage as [Hpage _].
    rewrite Hpage. split; [ exact Hstep | exact Hstart ].
Qed.

Lemma enter_log_in_order (key : Category) (flag : bool) :
  log_in_order cfg (@enter Rec Category cfg key flag 0 []) (start_page cfg).
Proof.
  unfold log_in_order. simpl. repeat split; constructor.
Qed.

Lemma scrape_loop_key (fuel : nat) :
  forall st st',
    scrape_loop fetcher completion fuel cfg st = Some st' ->
    current_key st' = current_key st.
Proof.
  induction fuel as [ | fuel IH ]; intros st st' Hrun; simpl in Hrun;
    [ discriminate | ].
  destruct (loop_body_shape _ _ fetcher completion cfg st)
    as (_ & _ & _ & _ & _ & Hkey & _).
  destruct (loop_body fetcher completion cfg st) as [ st1 | st1 ];
    simpl in Hkey.
  - rewrite (IH st1 st' Hrun). exact Hkey.
  - injection Hrun as <-. exact Hkey.
Qed.

Lemma final_save_log st :
  dispatched (trace (final_save cfg st)) = dispatched (trace st).
Proof.
  unfold final_save, save_intermediate_data, save_progress.
  destruct (all_properties st); simpl; trivial.
  rewrite dispatched_app. simpl. now rewrite app_nil_r.
Qed.

(** Every page a harvest fetches is at or after its start page and, when
    a page ceiling is in force, at or below the ceiling. *)
Theorem harvest_fetches_allowed_pages (fuel : nat) (key : Category)
        (flag : bool) (records : list Rec) st :
  scrape_city_property_type fetcher completion fuel cfg key flag
  = Some (records, st) ->
  Forall (Forall (fun p =>
                    start_page cfg <= p
                    /\ forall m, max_pages cfg = Some m -> m <> 0 -> p <= m))
         (dispatched (trace st)).
Proof.
  unfold scrape_city_property_type. intros Hrun.
  destruct (scrape_loop fetcher completion fuel cfg (enter cfg key flag 0 []))
    as [ st1 | ] eqn:Hloop; [ | discriminate ].
  injection Hrun as _ <-. rewrite final_save_log.
  apply scrape_loop_log_in_order in Hloop;
    [ | simpl; lia | apply enter_log_in_order ].
  destruct Hloop as ((Hpages & _) & _).
  eapply Forall_impl; [ | exact Hpages ]. intros b Hb.
  eapply Forall_impl; [ | exact Hb ]. intros p [Hp _]. exact Hp.
Qed.

(** The batches of a harvest are dispatched in page order: a batch is
    followed by itself again (a retry) or by batches whose pages are all
    later, so no page is fetched by two different batches. *)
Theorem harvest_dispatches_in_page_order (fuel : nat) (key : Category)
        (flag : bool) (records : list Rec) st :
  scrape_city_property_type fetcher completion fuel cfg key flag
  = Some (records, st) ->
  StronglySorted batch_before (dispatched (trace st))
  /\ Forall (fun b => StronglySorted Z.lt b /\ (List.length b <= 5)%nat)
            (dispatched (trace st)).
Proof.
  unfold scrape_city_property_type. intros Hrun.
  destruct (scrape_loop fetcher completion fuel cfg (enter cfg key flag 0 []))
    as [ st1 | ] eqn:Hloop; [ | discriminate ].
  injection Hrun as _ <-. rewrite final_save_log.
  apply scrape_loop_log_in_order in Hloop;
    [ | simpl; lia | apply enter_log_in_order ].
  destruct Hloop as ((_ & Hsorted & _ & _ & _ & _ & Hshape) & _).
  now split.
Qed.

Lemma harvest_log_in_order (fuel : nat) (key : Category) (flag : bool) st :
  scrape_loop fetcher completion fuel cfg (enter cfg key flag 0 []) = Some st ->
  log_in_order cfg st (page st + 5)
  /\ start_page cfg <= page st
  /\ current_key st = Some key.
Proof.
  intros Hloop. pose proof (scrape_loop_key _ _ _ Hloop) as Hkey.
  apply scrape_loop_log_in_order in Hloop;
    [ | simpl; lia | apply enter_log_in_order ].
  destruct Hloop as [Hlog Hstart].
  split; [ exact Hlog | split; [ exact Hstart | exact Hkey ] ].
Qed.

(** A harvest that returns records writes them once, all of them, under
    output/json_files, and then a checkpoint with their number; the page of
    both is the start page when the loop was left in its first pass, and
    the last page of the window of the last pass otherwise.  A harvest that
    returns nothing writes no file. *)
Theorem harvest_writes_what_it_returns (fuel : nat) (key : Category)
        (flag : bool) (records : list Rec) st :
  scrape_city_property_type fetcher completion fuel cfg key flag
  = Some (records, st) ->
  records = all_properties st
  /\ written_files (trace st) = (if is_empty records then [] else [records])
  /\ (records <> [] ->
      exists log,
        trace st
        = log
          ++ [EvSaveIntermediate
                (Some key) records (start_page cfg)
                (if page st >? start_page cfg
                 then page st + 4 else start_page cfg);
              EvSaveProgress
                (Some key)
                (if page st >? start_page cfg
                 then page st + 4 else start_page cfg)
                (len records)]).
Proof.
  unfold scrape_city_property_type. intros Hrun.
  destruct (scrape_loop fetcher completion fuel cfg (enter cfg key flag 0 []))
    as [ st1 | ] eqn:Hloop; [ | discriminate ].
  injection Hrun as <- <-. rewrite final_save_properties.
  destruct (harvest_log_in_order _ _ _ _ Hloop)
    as ((_ & _ & Hfiles & _) & _ & Hkey).
  split; trivial.
  unfold final_save, save_intermediate_data, save_progress.
  destruct (all_properties st1) as [ | r rs ] eqn:Hall; simpl.
  - split; [ exact Hfiles | congruence ].
  - rewrite written_files_app, Hfiles, Hkey. simpl. split; trivial.
    intros _. exists (trace st1).
    replace (page st1 + concurrent_pages - 1) with (page st1 + 4)
      by (unfold concurrent_pages; lia).
    reflexivity.
Qed.

(** The record counts of the checkpoints of a harvest never decrease, and
    none exceeds the number of records returned. *)
Theorem checkpoint_counts_grow (fuel : nat) (key : Category) (flag : bool)
        (records : list Rec) st :
  scrape_city_property_type fetcher completion fuel cfg key flag
  = Some (records, st) ->
  StronglySorted Z.le (checkpoint_counts (trace st))
  /\ Forall (fun n => n <= len records) (checkpoint_counts (trace st)).
Proof.
  unfold scrape_city_property_type. intros Hrun.
  destruct (scrape_loop fetcher completion fuel cfg (enter cfg key flag 0 []))
    as [ st1 | ] eqn:Hloop; [ | discriminate ].
  injection Hrun as <- <-. rewrite final_save_properties.
  destruct (harvest_log_in_order _ _ _ _ Hloop)
    as ((_ & _ & _ & Hsorted & Hbelow & _) & _).
  unfold final_save, save_intermediate_data, save_progress.
  destruct (all_properties st1) as [ | r rs ] eqn:Hall; simpl.
  - now split.
  - rewrite checkpoint_counts_app. simpl. split.
    + apply sorted_append; trivial; [ repeat constructor | ].
      intros x y Hx [<- | []]. rewrite Forall_forall in Hbelow.
      now apply Hbelow.
    + apply Forall_app. split; trivial. repeat constructor. lia.
Qed.

Lemma runs_to_log_in_order st st' :
  runs_to fetcher completion cfg st st' ->
  start_page cfg <= page st ->
  log_in_order cfg st (page st) ->
  log_in_order cfg st' (page st') /\ start_page cfg <= page st'.
Proof.
  induction 1 as [ st | st st1 st2 Hstep Hruns IH ]; intros Hstart Hlog;
    [ now split | ].
  pose proof (loop_body_log_in_order st Hstart Hlog) as Hnext.
  rewrite Hstep in Hnext. destruct Hnext as [Hlog1 Hstart1]. now apply IH.
Qed.

(** At the top of every pass of a harvest the snapshot kept for the
    interrupt handler holds every record collected so far, so a signal
    there writes all of them, and their number into the checkpoint. *)
Theorem interrupt_saves_everything_collected (key : Category) (flag : bool)
        st :
  runs_to fetcher completion cfg (enter cfg key flag 0 []) st ->
  current_properties st = all_properties st
  /\ written_files (trace (signal_handler cfg st))
     = (if is_empty (all_properties st) then [] else [all_properties st])
  /\ checkpoint_counts (trace (signal_handler cfg st))
     = checkpoint_counts (trace st)
       ++ (if is_empty (all_properties st) then []
           else [len (all_properties st)]).
Proof.
  intros Hruns. apply runs_to_log_in_order in Hruns;
    [ | simpl; lia | apply enter_log_in_order ].
  destruct Hruns as ((_ & _ & Hfiles & _ & _ & Hsnap & _) & _).
  split; trivial.
  unfold signal_handler, save_on_interrupt, save_intermediate_data,
    save_progress. simpl. rewrite Hsnap.
  destruct (all_properties st) as [ | r rs ]; simpl;
    rewrite written_files_app, checkpoint_counts_app, Hfiles; now split.
Qed.

(** A page ceiling of 0 is no ceiling: the harvest is the one without
    [max_pages]. *)
Theorem ceiling_zero_is_no_ceiling (fuel : nat) (mode : bool) (first : Z)
        (key : Category) (flag : bool) :
  scrape_city_property_type fetcher completion fuel
                            (mkConfig mode (Some 0) first) key flag
  = scrape_city_property_type fetcher completion fuel
                              (mkConfig mode None first) key flag.
Proof.
  unfold scrape_city_property_type.
  assert (Hloop : forall st,
             scrape_loop fetcher completion fuel
                         (mkConfig mode (Some 0) first) st
             = scrape_loop fetcher completion fuel
                           (mkConfig mode None first) st).
  { induction fuel as [ | n IH ]; intros st; simpl; trivial.
    change (loop_body fetcher completion (mkConfig mode (Some 0) first) st)
      with (loop_body fetcher completion (mkConfig mode None first) st).
    destruct (loop_body fetcher completion (mkConfig mode None first) st);
      trivial. }
  rewrite Hloop. reflexivity.
Qed.

(** The first window of candidate pages is empty exactly when the start
    page lies beyond a page ceiling other than 0. *)
Lemma first_window_empty (first : Z) :
  pages_to_scrape cfg 999 first = []
  <-> exists m, max_pages cfg = Some m /\ m <> 0 /\ m < first.
Proof.
  unfold pages_to_scrape, range5. cbn [pages_from].
  rewrite Z.add_0_r. change (999 <? 999) with false. cbn [andb].
  unfold max_pages_exceeded.
  destruct (max_pages cfg) as [ m | ].
  - destruct (Z.eqb_spec m 0) as [ Hm | Hm ]; cbn [negb andb].
    + split; [ discriminate | ].
      intros (m' & Heq & Hne & _). injection Heq as <-. contradiction.
    + destruct (first >? m) eqn:Hgt.
      * split; trivial. intros _. exists m. apply Z.gtb_lt in Hgt.
        repeat split; trivial.
      * split; [ discriminate | ].
        intros (m' & Heq & _ & Hlt). injection Heq as <-.
        rewrite Z.gtb_ltb in Hgt. apply Z.ltb_ge in Hgt. lia.
  - split; [ discriminate | ]. intros (m & Heq & _). discriminate.
Qed.

(** A pass that is not interrupted and has candidate pages dispatches them
    at least once and at most 3 times. *)
Lemma pass_dispatches st :
  interrupted st = false ->
  pages_to_scrape cfg (total_pages_estimate st) (page st) <> [] ->
  exists n,
    (1 <= n <= 3)%nat
    /\ dispatched (trace (state_of (loop_body fetcher completion cfg st)))
       = dispatched (trace st)
         ++ repeat (pages_to_scrape cfg (total_pages_estimate st) (page st)) n.
Proof.
  intros Hflag Hpages. unfold loop_body. rewrite Hflag.
  destruct (pages_to_scrape cfg (total_pages_estimate st) (page st))
    as [ | p pages ]; [ contradiction | ].
  destruct (batch_loop fetcher completion (Z.to_nat max_batch_retries) 0
                       (p :: pages) st) as [[st1 rs] e] eqn:Hbatch.
  apply batch_loop_log in Hbatch. destruct Hbatch as ((n & Hn & Htrace) & _).
  change (Z.to_nat max_batch_retries) with 2%nat in Hn.
  exists n. split; [ lia | ].
  destruct (after_batch_journal Rec Category cfg st1 rs e) as (_ & _ & ->).
  now rewrite Htrace, dispatched_app, dispatched_repeat.
Qed.

(** In test mode the harvest is at most one pass.  When the first window
    of candidate pages is empty, which is when the start page lies beyond
    a page ceiling other than 0, nothing is dispatched and nothing
    returned; otherwise the window is dispatched at least once and at most
    3 times, and nothing else.  The page is not advanced, and the one
    checkpoint written is the final one, with the number of records
    returned, when there are records. *)
Theorem test_mode_single_batch (fuel : nat) (key : Category) :
  test_mode cfg = true ->
  exists (records : list Rec) st (n : nat),
    scrape_city_property_type fetcher completion (S fuel) cfg key false
    = Some (records, st)
    /\ (pages_to_scrape cfg 999 (start_page cfg) = []
        <-> exists m, max_pages cfg = Some m /\ m <> 0 /\ m < start_page cfg)
    /\ (pages_to_scrape cfg 999 (start_page cfg) = [] ->
        n = 0%nat /\ records = [])
    /\ (pages_to_scrape cfg 999 (start_page cfg) <> [] -> (1 <= n <= 3)%nat)
    /\ dispatched (trace st)
       = repeat (pages_to_scrape cfg 999 (start_page cfg)) n
    /\ page st = start_page cfg
    /\ checkpoint_counts (trace st)
       = (if is_empty records then [] else [len records]).
Proof.
  intros Hmode. unfold scrape_city_property_type. cbn [scrape_loop].
  pose proof (first_window_empty (start_page cfg)) as Hwindow.
  destruct (loop_body_shape _ _ fetcher completion cfg (enter cfg key false 0 []))
    as (n0 & _ & _ & _ & _ & _ & _ & _ & Hstep).
  destruct (pages_to_scrape cfg 999 (start_page cfg)) as [ | p pages ]
    eqn:Hpages.
  - assert (Hbody : loop_body fetcher completion cfg (enter cfg key false 0 [])
                    = Break (enter cfg key false 0 [])).
    { unfold loop_body. cbn [interrupted enter total_pages_estimate page].
      now rewrite Hpages. }
    rewrite Hbody.
    exists [], (enter cfg key false 0 []), 0%nat.
    repeat split; trivial; try apply Hwindow; try contradiction.
  - destruct (pass_dispatches (enter cfg key false 0 []))
      as (n & Hn & Hd); [ reflexivity | | ].
    { cbn [enter total_pages_estimate page]. rewrite Hpages. discriminate. }
    cbn [enter total_pages_estimate page trace] in Hd. rewrite Hpages in Hd.
    destruct (loop_body fetcher completion cfg (enter cfg key false 0 []))
      as [ st1 | st1 ].
    { destruct Hstep as (_ & _ & _ & Hoff & _). congruence. }
    destruct Hstep as (Hpage & Hcounts). simpl in Hd, Hpage, Hcounts.
    exists (all_properties (final_save cfg st1)), (final_save cfg st1), n.
    split; trivial. split; [ exact Hwindow | ].
    split; [ discriminate | ]. split; [ intros _; exact Hn | ].
    rewrite final_save_log, final_save_properties.
    destruct (final_save_fields _ _ cfg st1) as (-> & _).
    repeat split; trivial.
    unfold final_save, save_intermediate_data, save_progress.
    destruct (all_properties st1); simpl; trivial.
    rewrite checkpoint_counts_app, Hcounts. reflexivity.
Qed.

End Harvest.

(** * Proxy rotation *)

Section Rotation.

Implicit Types (t : Transport) (l : list string).

Lemma list_getitem_nth (A : Type) (l : list A) (i : nat) (a : A) :
  nth_error l i = Some a -> list_getitem l (Z.of_nat i) = Returned a.
Proof.
  intros Hnth. unfold list_getitem.
  assert (Hlt : (i < List.length l)%nat)
    by (apply nth_error_Some; congruence).
  replace (Z.of_nat i <? 0) with false by (symmetry; apply Z.ltb_ge; lia).
  replace (0 <=? Z.of_nat i) with true by (symmetry; apply Z.leb_le; lia).
  replace (Z.of_nat i <? Z.of_nat (List.length l)) with true
    by (symmetry; apply Z.ltb_lt; lia).
  simpl. now rewrite Nat2Z.id, Hnth.
Qed.

Lemma skipn_nth (A : Type) (l : list A) :
  forall (i : nat) (a : A),
    nth_error l i = Some a -> skipn i l = a :: skipn (S i) l.
Proof.
  induction l as [ | x l IH ]; intros [ | i ] a Hnth; simpl in *;
    try discriminate.
  - now injection Hnth as ->.
  - now apply IH.
Qed.

(** [k] calls from index [i] that do not pass the end of the list. *)
Lemma next_proxies_straight (k : nat) :
  forall t (i : nat),
    current_proxy_index t = Z.of_nat i ->
    (i + k <= List.length (proxy_list t))%nat ->
    (0 < List.length (proxy_list t))%nat ->
    next_proxies k t
    = Returned
        (map Some (firstn k (skipn i (proxy_list t))),
         if (k =? 0)%nat then t
         else mkTransport (proxy_list t)
                          (Z.of_nat (i + k)
                             mod Z.of_nat (List.length (proxy_list t)))
                          (use_scraperapi t) (session t)).
Proof.
  induction k as [ | k IH ]; intros t i Hidx Hfit Hlen; [ reflexivity | ].
  destruct (nth_error (proxy_list t) i) as [ a | ] eqn:Hnth;
    [ | apply nth_error_None in Hnth; lia ].
  cbn [next_proxies]. unfold _get_next_proxy.
  destruct (proxy_list t) as [ | p0 ps ] eqn:Hl; [ simpl in Hlen; lia | ].
  cbn [is_nil]. rewrite Hidx, (list_getitem_nth _ _ _ _ Hnth).
  rewrite (skipn_nth _ _ _ _ Hnth).
  destruct k as [ | k ].
  - simpl. do 3 f_equal. f_equal. lia.
  - set (t1 := mkTransport (p0 :: ps)
                           ((Z.of_nat i + 1) mod Z.of_nat (List.length (p0 :: ps)))
                           (use_scraperapi t) (session t)).
    assert (Hidx1 : current_proxy_index t1 = Z.of_nat (S i)).
    { unfold t1. cbn [current_proxy_index].
      rewrite Z.mod_small; lia. }
    rewrite (IH t1 (S i) Hidx1); [ | unfold t1; simpl in *; lia
                                   | unfold t1; simpl; lia ].
    unfold t1. cbn [proxy_list use_scraperapi session firstn map Nat.eqb].
    do 3 f_equal. f_equal. lia.
Qed.

Lemma next_proxies_app (a : nat) :
  forall (b : nat) t,
    next_proxies (a + b) t
    = match next_proxies a t with
      | Returned (first, t') =>
          match next_proxies b t' with
          | Returned (rest, t'') => Returned (first ++ rest, t'')
          | Raised => Raised
          end
      | Raised => Raised
      end.
Proof.
  induction a as [ | a IH ]; intros b t.
  - simpl. destruct (next_proxies b t) as [[rest t'']|]; reflexivity.
  - cbn [Nat.add next_proxies].
    destruct (_get_next_proxy t) as [[proxy t']|]; trivial.
    rewrite IH. destruct (next_proxies a t') as [[first t1]|]; trivial.
    destruct (next_proxies b t1) as [[rest t2]|]; reflexivity.
Qed.

(** Round robin: with the index inside a non-empty proxy list, as many
    calls of [_get_next_proxy] as there are proxies return every proxy
    once, in list order starting at the index, and leave the index where it
    was. *)
Theorem proxies_rotate t (i : nat) :
  current_proxy_index t = Z.of_nat i ->
  (i < List.length (proxy_list t))%nat ->
  next_proxies (List.length (proxy_list t)) t
  = Returned (map Some (skipn i (proxy_list t) ++ firstn i (proxy_list t)), t).
Proof.
  intros Hidx Hlt.
  set (n := List.length (proxy_list t)).
  replace n with ((n - i) + i)%nat at 1 by lia.
  rewrite next_proxies_app.
  rewrite (next_proxies_straight (n - i) t i Hidx); [ | fold n; lia | lia ].
  replace ((n - i =? 0)%nat) with false by (symmetry; apply Nat.eqb_neq; lia).
  replace (i + (n - i))%nat with n by lia.
  fold n. rewrite Z.mod_same by lia.
  set (t0 := mkTransport (proxy_list t) 0 (use_scraperapi t) (session t)).
  rewrite (next_proxies_straight i t0 0%nat);
    [ | reflexivity | unfold t0; simpl; fold n; lia | unfold t0; simpl; lia ].
  unfold t0. cbn [proxy_list use_scraperapi session skipn Nat.add].
  rewrite firstn_all2 by (rewrite length_skipn; fold n; lia).
  rewrite map_app. do 2 f_equal.
  destruct (i =? 0)%nat eqn:Hi0.
  - apply Nat.eqb_eq in Hi0. subst i. destruct t; simpl in *. now subst.
  - fold n. rewrite Z.mod_small by lia. destruct t; simpl in *. now subst.
Qed.

(** The index stays inside the list: after a call of [_get_next_proxy]
    that returns a proxy it is a valid index again, whatever it was. *)
Theorem next_proxy_index_in_range t (proxy : option string) t' :
  proxy_list t <> [] ->
  _get_next_proxy t = Returned (proxy, t') ->
  0 <= current_proxy_index t' < Z.of_nat (List.length (proxy_list t'))
  /\ proxy_list t' = proxy_list t
  /\ exists p, proxy = Some p /\ In p (proxy_list t).
Proof.
  intros Hne Hcall. unfold _get_next_proxy in Hcall.
  destruct (proxy_list t) as [ | p0 ps ] eqn:Hl; [ congruence | ].
  cbn [is_nil] in Hcall.
  destruct (list_getitem (p0 :: ps) (current_proxy_index t)) as [ p | ] eqn:Hget;
    [ | discriminate ].
  injection Hcall as <- <-. cbn [current_proxy_index proxy_list].
  split; [ apply Z.mod_pos_bound; simpl; lia | ]. split; trivial.
  exists p. split; trivial.
  unfold list_getitem in Hget.
  destruct (_ && _); [ | discriminate ].
  destruct (nth_error (p0 :: ps) _) as [ a | ] eqn:Hnth; [ | discriminate ].
  injection Hget as ->. eapply nth_error_In. exact Hnth.
Qed.

End Rotation.

(** * [fetch_with_retry] *)

Section FetchWithRetryFacts.

Variable scraperapi_key : string.
Variable http : nat -> Session -> string -> Reply.

Implicit Types (t : Transport) (s : Session) (log : list Request).

Lemma setup_session_keeps t s t' :
  _setup_session t = Returned (s, t') ->
  proxy_list t' = proxy_list t /\ use_scraperapi t' = use_scraperapi t.
Proof.
  unfold _setup_session, _get_next_proxy. intros H.
  destruct (negb (is_nil (proxy_list t)) && negb (use_scraperapi t));
    [ | injection H as _ <-; now split ].
  destruct (is_nil (proxy_list t)).
  - injection H as _ <-. now split.
  - destruct (list_getitem (proxy_list t) (current_proxy_index t)) as [ p | ];
      [ | discriminate ].
    destruct (negb (String.eqb p EmptyString)); injection H as _ <-;
      now split.
Qed.

Lemma rotate_proxy_keeps t t' :
  _rotate_proxy t = Returned t' ->
  proxy_list t' = proxy_list t /\ use_scraperapi t' = use_scraperapi t.
Proof.
  unfold _rotate_proxy. intros H.
  destruct (negb (is_nil (proxy_list t))); [ | injection H as <-; now split ].
  destruct (_setup_session t) as [[s t1]|] eqn:Hsetup; [ | discriminate ].
  injection H as <-. simpl. now apply setup_session_keeps in Hsetup.
Qed.

Lemma rotate_without_proxies t :
  proxy_list t = [] -> _rotate_proxy t = Returned t.
Proof.
  intros Hnil. unfold _rotate_proxy. now rewrite Hnil.
Qed.

(** The retry loop entered with [length log] requests made: it makes [m]
    more, all with the session and address of the call. *)
Lemma retry_loop_outcome (fuel : nat) :
  forall (attempt max_retries : Z) s (url : string) t log,
  exists m t',
    (m <= fuel)%nat
    /\ proxy_list t' = proxy_list t
    /\ use_scraperapi t' = use_scraperapi t
    /\ ((use_scraperapi t = true \/ proxy_list t = []) -> t' = t)
    /\ ((exists text,
            retry_loop scraperapi_key http fuel attempt max_retries s url t log
            = (Some text, t',
               log ++ repeat (mkRequest
                                s (if use_scraperapi t
                                   then scraper_url scraperapi_key url
                                   else url)) m)
            /\ (1 <= m)%nat
            /\ reply_to scraperapi_key http t s url (List.length log + m - 1)
               = Response 200 text
            /\ forall j, (j < m - 1)%nat ->
                         is_ok (reply_to scraperapi_key http t s url
                                         (List.length log + j)) = false)
        \/ (retry_loop scraperapi_key http fuel attempt max_retries s url t log
            = (None, t',
               log ++ repeat (mkRequest
                                s (if use_scraperapi t
                                   then scraper_url scraperapi_key url
                                   else url)) m)
            /\ m = fuel
            /\ forall j, (j < m)%nat ->
                         is_ok (reply_to scraperapi_key http t s url
                                         (List.length log + j)) = false)).
Proof.
  induction fuel as [ | fuel IH ]; intros attempt max_retries s url t log.
  - exists 0%nat, t. simpl. rewrite app_nil_r.
    repeat split; trivial. right. repeat split; trivial. intros j Hj. lia.
  - set (target := if use_scraperapi t
                   then scraper_url scraperapi_key url else url).
    set (req := mkRequest s target).
    (* what any further pass gives, from a transport with the same
       proxies and mode *)
    assert (Hnext : forall t1,
               proxy_list t1 = proxy_list t ->
               use_scraperapi t1 = use_scraperapi t ->
               ((use_scraperapi t = true \/ proxy_list t = []) -> t1 = t) ->
               is_ok (reply_to scraperapi_key http t s url (List.length log))
               = false ->
               exists m t',
                 (m <= S fuel)%nat
                 /\ proxy_list t' = proxy_list t
                 /\ use_scraperapi t' = use_scraperapi t
                 /\ ((use_scraperapi t = true \/ proxy_list t = []) -> t' = t)
                 /\ ((exists text,
                         retry_loop scraperapi_key http fuel (attempt + 1)
                                    max_retries s url t1 (log ++ [req])
                         = (Some text, t', log ++ repeat req m)
                         /\ (1 <= m)%nat
                         /\ reply_to scraperapi_key http t s url
                                     (List.length log + m - 1)
                            = Response 200 text
                         /\ forall j, (j < m - 1)%nat ->
                                      is_ok (reply_to scraperapi_key http t s url
                                                      (List.length log + j))
                                      = false)
                     \/ (retry_loop scraperapi_key http fuel (attempt + 1)
                                    max_retries s url t1 (log ++ [req])
                         = (None, t', log ++ repeat req m)
                         /\ m = S fuel
                         /\ forall j, (j < m)%nat ->
                                      is_ok (reply_to scraperapi_key http t s url
                                                      (List.length log + j))
                                      = false))).
    { intros t1 Hp1 Hu1 Hsame Hfail.
      destruct (IH (attempt + 1) max_retries s url t1 (log ++ [req]))
        as (m & t' & Hm & Hp & Hu & Hkeep & Hcases).
      assert (Hreply : forall k,
                 reply_to scraperapi_key http t1 s url k
                 = reply_to scraperapi_key http t s url k)
        by (intros k; unfold reply_to; now rewrite Hu1).
      rewrite Hu1 in Hcases. fold target in Hcases. fold req in Hcases.
      rewrite <- app_assoc in Hcases.
      change ([req] ++ repeat req m) with (repeat req (S m)) in Hcases.
      rewrite length_app in Hcases. cbn [List.length] in Hcases.
      exists (S m), t'. split; [ lia | ].
      split; [ congruence | ]. split; [ congruence | ].
      split.
      { intros Hcond. rewrite <- (Hsame Hcond). apply Hkeep.
        rewrite Hu1, Hp1. exact Hcond. }
      destruct Hcases as [(text & Hrun & Hm1 & Hlast & Hbefore)
                         | (Hrun & -> & Hall)].
      - left. exists text. split; [ exact Hrun | ]. split; [ lia | ].
        split.
        + rewrite <- Hreply, <- Hlast. f_equal. lia.
        + intros j Hj. destruct j as [ | j ].
          * now rewrite Nat.add_0_r.
          * rewrite <- Hreply, <- (Hbefore j) by lia. do 2 f_equal. lia.
      - right. split; [ exact Hrun | ]. split; trivial.
        intros j Hj. destruct j as [ | j ].
        + now rewrite Nat.add_0_r.
        + rewrite <- Hreply, <- (Hall j) by lia. do 2 f_equal. lia. }
    cbn [retry_loop]. fold target. fold req.
    destruct (http (List.length log) s target) as [ code text | ] eqn:Hhttp.
    + destruct (code =? 200) eqn:Hcode.
      * apply Z.eqb_eq in Hcode. subst code.
        exists 1%nat, t. split; [ lia | ]. repeat split; trivial.
        left. exists text. repeat split; trivial.
        -- unfold reply_to. fold target.
           replace (List.length log + 1 - 1)%nat with (List.length log) by lia.
           exact Hhttp.
        -- intros j Hj. lia.
      * assert (Hfail : is_ok (reply_to scraperapi_key http t s url
                                        (List.length log)) = false).
        { unfold reply_to. fold target. rewrite Hhttp. exact Hcode. }
        destruct (blocked code); [ | now apply Hnext ].
        destruct (attempt <? max_retries - 1); [ | now apply Hnext ].
        destruct (use_scraperapi t) eqn:Huse; simpl; [ now apply Hnext | ].
        destruct (_rotate_proxy t) as [ t1 | ] eqn:Hrot; [ | now apply Hnext ].
        destruct (rotate_proxy_keeps _ _ Hrot) as [Hp1 Hu1].
        apply Hnext; trivial; [ congruence | ].
        intros [Hyes | Hnil]; [ discriminate | ].
        rewrite rotate_without_proxies in Hrot by exact Hnil. congruence.
    + apply Hnext; trivial. unfold reply_to. fold target. now rewrite Hhttp.
Qed.

(** [fetch_with_retry] makes at most [max_retries] requests, every one of
    them through the session chosen on entry and to the same address, even
    when the proxy is rotated in between; it returns the text of the first
    reply with status 200 and stops there, and returns [None] when none of
    the [max_retries] replies has status 200.  The proxy list and the mode
    are never changed, and with ScraperAPI or without proxies nothing is. *)
Theorem fetch_with_retry_outcome (url : string) (max_retries : Z)
        (session_arg : option Session) t :
  exists (m : nat) t',
    (m <= Z.to_nat max_retries)%nat
    /\ proxy_list t' = proxy_list t
    /\ use_scraperapi t' = use_scraperapi t
    /\ ((use_scraperapi t = true \/ proxy_list t = []) -> t' = t)
    /\ ((exists text,
            fetch_with_retry scraperapi_key http url max_retries session_arg t
            = (Some text, t',
               repeat (mkRequest
                         (match session_arg with
                          | Some s => s
                          | None => session t
                          end)
                         (if use_scraperapi t
                          then scraper_url scraperapi_key url else url)) m)
            /\ (1 <= m)%nat
            /\ reply_to scraperapi_key http t
                        (match session_arg with
                         | Some s => s
                         | None => session t
                         end) url (m - 1)
               = Response 200 text
            /\ forall j, (j < m - 1)%nat ->
                         is_ok (reply_to scraperapi_key http t
                                         (match session_arg with
                                          | Some s => s
                                          | None => session t
                                          end) url j) = false)
        \/ (fetch_with_retry scraperapi_key http url max_retries session_arg t
            = (None, t',
               repeat (mkRequest
                         (match session_arg with
                          | Some s => s
                          | None => session t
                          end)
                         (if use_scraperapi t
                          then scraper_url scraperapi_key url else url)) m)
            /\ m = Z.to_nat max_retries
            /\ forall j, (j < m)%nat ->
                         is_ok (reply_to scraperapi_key http t
                                         (match session_arg with
                                          | Some s => s
                                          | None => session t
                                          end) url j) = false)).
Proof.
  unfold fetch_with_retry.
  destruct (retry_loop_outcome
              (Z.to_nat max_retries) 0 max_retries
              (match session_arg with Some s => s | None => session t end)
              url t [])
    as (m & t' & Hm & Hp & Hu & Hkeep & Hcases).
  exists m, t'. repeat split; trivial.
Qed.

End FetchWithRetryFacts.

(** * Search addresses *)

Section Urls.

Local Open Scope string_scope.

Lemma append_cancel (s a b : string) :
  s ++ a = s ++ b -> a = b.
Proof.
  induction s as [ | c s IH ]; simpl; intros H; trivial.
  injection H as H. now apply IH.
Qed.

Lemma append_empty_r (s : string) : s ++ EmptyString = s.
Proof.
  induction s as [ | c s IH ]; simpl; trivial. now rewrite IH.
Qed.

Lemma to_int_proper (n : Z) :
  Z.to_int n <> Decimal.Pos Decimal.Nil
  /\ Z.to_int n <> Decimal.Neg Decimal.Nil.
Proof.
  destruct n as [ | p | p ]; simpl; split; try discriminate;
    intros H; injection H as H;
    now apply DecimalPos.Unsigned.to_uint_nonnil in H.
Qed.

(** The decimal text of an integer reads back as that integer. *)
Lemma str_of_int_reads_back (n : Z) :
  option_map Z.of_int (DecimalString.NilZero.int_of_string (str_of_int n))
  = Some n.
Proof.
  unfold str_of_int. destruct (to_int_proper n) as [Hp Hn].
  rewrite DecimalString.NilZero.isi by trivial. simpl.
  now rewrite DecimalZ.of_to.
Qed.

Lemma str_of_int_inj (n m : Z) :
  str_of_int n = str_of_int m -> n = m.
Proof.
  intros H. pose proof (str_of_int_reads_back n) as Hn.
  rewrite H, str_of_int_reads_back in Hn. congruence.
Qed.

(** Two pages of a search have the same address exactly when both are at
    most 1 or they are the same page: every page from 2 on has an address
    of its own, and page 0 or a negative page is fetched as page 1. *)
Theorem search_url_per_page (city_id : string) (property_type p q : Z) :
  build_search_url city_id property_type p
  = build_search_url city_id property_type q
  <-> Z.max p 1 = Z.max q 1.
Proof.
  unfold build_search_url.
  set (base_url := if is_in property_type [1; 2]%Z then _ else _).
  destruct (p >? 1)%Z eqn:Hp; destruct (q >? 1)%Z eqn:Hq;
    rewrite Z.gtb_ltb in Hp, Hq;
    try apply Z.ltb_lt in Hp; try apply Z.ltb_ge in Hp;
    try apply Z.ltb_lt in Hq; try apply Z.ltb_ge in Hq.
  - split; intros H.
    + apply append_cancel in H. apply (append_cancel "&page=") in H.
      apply str_of_int_inj in H. lia.
    + replace q with p by lia. reflexivity.
  - split; intros H; [ | lia ].
    rewrite <- (append_empty_r base_url) in H at 2.
    apply append_cancel in H. discriminate.
  - split; intros H; [ | lia ].
    rewrite <- (append_empty_r base_url) in H at 1.
    apply append_cancel in H. discriminate.
  - split; intros H; [ lia | reflexivity ].
Qed.

End Urls.

(** * More on the extraction *)

Section PaginationFacts.

Variable re_search : string -> option string.
Variable json_loads : string -> option pyval.

(** The extraction never makes up records: what it returns is the default
    triple or carries the value found under srp.pageData.properties,
    untouched. *)
Theorem extraction_returns_payload_properties
        (html : string) (props cur tot : pyval) :
  extract_properties_from_html re_search json_loads html
  = Ok (props, cur, tot) ->
  (props, cur, tot) = (PList [], PInt 1, PInt 1)
  \/ payload_properties re_search json_loads html = Some props.
Proof.
  unfold extract_properties_from_html, payload_properties.
  destruct (re_search html) as [data_str|];
    [ | simpl; intros H; left; congruence ].
  destruct (json_loads data_str) as [data|];
    [ | simpl; intros H; left; congruence ].
  simpl.
  destruct (extract_from_data data) as [[r|]|e] eqn:Hret; simpl; intros H;
    try (left; congruence).
  apply extract_from_data_returns in Hret.
  destruct Hret as (d & srp & pd & p & -> & Hsrp & Hpd & Hp & Hfst).
  right. rewrite Hsrp, Hpd, Hp. injection H as ->. simpl in Hfst. congruence.
Qed.

Lemma extract_through_payload
      (html data_str : string) (d srp pd : list (string * pyval))
      (props : pyval) :
  re_search html = Some data_str ->
  json_loads data_str = Some (PDict d) ->
  Py.dict_lookup "srp" d = Some (PDict srp) ->
  Py.dict_lookup "pageData" srp = Some (PDict pd) ->
  Py.dict_lookup "properties" pd = Some props ->
  extract_properties_from_html re_search json_loads html
  = try_except
      (pagination <- Py.get "pagination" (PDict []) (PDict pd) ;;
       total_pages <- Py.get "totalPages" PNone pagination ;;
       current_page <- Py.get "currentPage" (PInt 1) pagination ;;
       total_pages <-
         (if Py.is_None total_pages then
            alt_pagination <- Py.get "pagination" (PDict []) (PDict srp) ;;
            total_pages <- Py.get "totalPages" PNone alt_pagination ;;
            if Py.is_None total_pages
            then Py.get "total_pages" PNone alt_pagination
            else Ok total_pages
          else Ok total_pages) ;;
       total_pages <-
         (if Py.is_None total_pages then
            n <- Py.len props ;;
            if n >=? 25 then Ok (PInt 999) else Ok (PInt 1)
          else Ok total_pages) ;;
       Ok (Some (props, current_page, total_pages)))
      (Ok (PList [], PInt 1, PInt 1)).
Proof.
  intros Hre Hjs Hsrp Hpd Hp.
  unfold extract_properties_from_html. rewrite Hre, Hjs. simpl.
  unfold extract_from_data. simpl.
  rewrite Hsrp. simpl. rewrite Hpd. simpl. rewrite Hp. simpl. reflexivity.
Qed.

Lemma present_some (o : option pyval) (v : pyval) :
  present o = Some v -> o = Some v /\ Py.is_None v = false.
Proof.
  destruct o as [[ | | | | | | ]|]; simpl; intros H; try discriminate;
    injection H as <-; now split.
Qed.

Lemma present_none (o : option pyval) :
  present o = None ->
  Py.is_None (match o with Some x => x | None => PNone end) = true.
Proof.
  destruct o as [[ | | | | | | ]|]; simpl; intros H; try discriminate;
    reflexivity.
Qed.

(** Where the total page count is taken from: the entry [totalPages] of
    srp.pageData.pagination when it is there and not null, whatever
    srp.pagination says; otherwise the first of [totalPages] and
    [total_pages] of srp.pagination that is there and not null.  The
    current page is [currentPage] of srp.pageData.pagination, 1 when
    absent. *)
Theorem total_pages_precedence
        (html data_str : string) (d srp pd pg : list (string * pyval))
        (props total : pyval) :
  re_search html = Some data_str ->
  json_loads data_str = Some (PDict d) ->
  Py.dict_lookup "srp" d = Some (PDict srp) ->
  Py.dict_lookup "pageData" srp = Some (PDict pd) ->
  Py.dict_lookup "properties" pd = Some props ->
  dict_or_empty (Py.dict_lookup "pagination" pd) = Some pg ->
  (present (Py.dict_lookup "totalPages" pg) = Some total ->
   extract_properties_from_html re_search json_loads html
   = Ok (props, current_page_of pg, total))
  /\ (forall alt,
         present (Py.dict_lookup "totalPages" pg) = None ->
         dict_or_empty (Py.dict_lookup "pagination" srp) = Some alt ->
         alternative_total alt = Some total ->
         extract_properties_from_html re_search json_loads html
         = Ok (props, current_page_of pg, total)).
Proof.
  intros Hre Hjs Hsrp Hpd Hp Hpg.
  rewrite (extract_through_payload _ _ _ _ _ _ Hre Hjs Hsrp Hpd Hp).
  assert (Hpagination :
            Py.get "pagination" (PDict []) (PDict pd) = Ok (PDict pg)).
  { simpl. destruct (Py.dict_lookup "pagination" pd) as [[ | | | | | | ]|];
      simpl in Hpg; try discriminate; congruence. }
  rewrite Hpagination. cbn [bind]. unfold current_page_of.
  split.
  - intros Htotal. apply present_some in Htotal.
    destruct Htotal as [Hlook Hnot]. simpl. rewrite Hlook, Hnot.
    simpl. rewrite Hnot. reflexivity.
  - intros alt Hnone Halt Htotal.
    assert (Halternative :
              match Py.dict_lookup "pagination" srp with
              | Some x => x
              | None => PDict []
              end = PDict alt).
    { destruct (Py.dict_lookup "pagination" srp) as [[ | | | | | | ]|];
        simpl in Halt; try discriminate; congruence. }
    apply present_none in Hnone. cbn [Py.get bind]. rewrite Hnone.
    rewrite Halternative. cbn [Py.get bind].
    unfold alternative_total in Htotal.
    destruct (present (Py.dict_lookup "totalPages" alt)) as [ v | ] eqn:Hfirst.
    + injection Htotal as ->. apply present_some in Hfirst.
      destruct Hfirst as [Hlook Hnot]. rewrite Hlook, Hnot. simpl.
      rewrite Hnot. reflexivity.
    + apply present_none in Hfirst. rewrite Hfirst.
      apply present_some in Htotal. destruct Htotal as [Hlook Hnot].
      rewrite Hlook. simpl. rewrite Hnot. reflexivity.
Qed.

(** A payload whose srp.pageData.pagination is there but is not an object
    is given up as a whole: the default triple is returned and the
    properties it carries are lost. *)
Theorem malformed_pagination_drops_page
        (html data_str : string) (d srp pd : list (string * pyval))
        (props pagination : pyval) :
  re_search html = Some data_str ->
  json_loads data_str = Some (PDict d) ->
  Py.dict_lookup "srp" d = Some (PDict srp) ->
  Py.dict_lookup "pageData" srp = Some (PDict pd) ->
  Py.dict_lookup "properties" pd = Some props ->
  Py.dict_lookup "pagination" pd = Some pagination ->
  dict_or_empty (Some pagination) = None ->
  extract_properties_from_html re_search json_loads html
  = Ok (PList [], PInt 1, PInt 1).
Proof.
  intros Hre Hjs Hsrp Hpd Hp Hpag Hbad.
  rewrite (extract_through_payload _ _ _ _ _ _ Hre Hjs Hsrp Hpd Hp).
  simpl. rewrite Hpag.
  destruct pagination; simpl in Hbad; try discriminate; reflexivity.
Qed.

End PaginationFacts.

(** * The summary report *)

Section SummaryFacts.

Implicit Types (d totals : list (string * Z)).

Lemma dict_add_returns (k : string) (n : Z) d d' :
  dict_add k n d = Returned d' ->
  sum_values d' = sum_values d + n /\ map fst d' = map fst d.
Proof.
  revert d'. induction d as [ | [k' v'] rest IH ]; intros d' H; simpl in H;
    [ discriminate | ].
  destruct (String.eqb k k').
  - injection H as <-. simpl. split; [ lia | reflexivity ].
  - destruct (dict_add k n rest) as [ rest' | ]; [ | discriminate ].
    injection H as <-. destruct (IH rest' eq_refl) as [Hsum Hkeys].
    simpl. split; [ lia | now f_equal ].
Qed.

Lemma dict_add_raises (k : string) (n : Z) d :
  dict_add k n d = Raised <-> ~ In k (map fst d).
Proof.
  induction d as [ | [k' v'] rest IH ]; simpl.
  - split; [ tauto | reflexivity ].
  - destruct (String.eqb_spec k k') as [-> | Hne].
    + split; [ discriminate | intros H; exfalso; apply H; now left ].
    + destruct (dict_add k n rest) as [ rest' | ].
      * split; [ discriminate | ].
        intros H. exfalso. apply H. right.
        destruct (in_dec string_dec k (map fst rest)) as [Hin | Hout];
          trivial.
        apply IH in Hout. discriminate.
      * split; [ | reflexivity ].
        intros _ [Heq | Hin]; [ congruence | ].
        now apply (proj1 IH eq_refl).
Qed.

Lemma summarize_types_returns (data : list (Z * TypeData)) :
  forall property_types totals city_total property_types' totals' city_total',
    summarize_types data property_types totals city_total
    = Returned (property_types', totals', city_total') ->
    city_total' = city_total + sum_counts data
    /\ sum_values totals' = sum_values totals + sum_counts data
    /\ map fst totals' = map fst totals
    /\ Forall (fun e => In (data_property_type (snd e)) (map fst totals)) data.
Proof.
  induction data as [ | [key entry] rest IH ];
    intros pts totals ct pts' totals' ct' H; simpl in H.
  - injection H as _ <- <-. simpl. repeat split; trivial; try lia.
  - destruct (dict_add (data_property_type entry) (data_count entry) totals)
      as [ totals1 | ] eqn:Hadd; [ | discriminate ].
    apply IH in H. destruct H as (Hct & Hsum & Hkeys & Hnames).
    destruct (dict_add_returns _ _ _ _ Hadd) as [Hsum1 Hkeys1].
    simpl. repeat split; try lia; try congruence.
    constructor.
    + simpl. destruct (in_dec string_dec (data_property_type entry)
                              (map fst totals)) as [Hin | Hout]; trivial.
      apply dict_add_raises with (n := data_count entry) in Hout. congruence.
    + now rewrite <- Hkeys1.
Qed.

Lemma summarize_cities_returns (all_results : list (string * CityResult)) :
  forall summary summary',
    summarize_cities all_results summary = Returned summary' ->
    grand_total summary' = grand_total summary + sum_results all_results
    /\ sum_values (property_type_totals summary')
       = sum_values (property_type_totals summary) + sum_results all_results
    /\ map fst (property_type_totals summary')
       = map fst (property_type_totals summary)
    /\ total_cities_processed summary' = total_cities_processed summary
    /\ Forall (fun name => In name (map fst (property_type_totals summary)))
              (result_names all_results).
Proof.
  induction all_results as [ | [city_id city_data] rest IH ];
    intros summary summary' H; simpl in H.
  - injection H as <-. simpl. repeat split; trivial; lia.
  - destruct (summarize_types (result_data city_data) []
                              (property_type_totals summary) 0)
      as [[[pts totals] ct]|] eqn:Htypes; [ | discriminate ].
    apply summarize_types_returns in Htypes.
    destruct Htypes as (Hct & Hsum & Hkeys & Hnames).
    apply IH in H. simpl in H.
    destruct H as (Hgrand & Hsums & Hkeys' & Hcount & Hnames').
    unfold result_names, sum_results. simpl.
    fold (sum_results rest). fold (result_names rest).
    repeat split; try lia; try congruence.
    apply Forall_app. split.
    + apply Forall_forall. intros name Hin. apply in_map_iff in Hin.
      destruct Hin as (e & <- & He). rewrite Forall_forall in Hnames.
      now apply Hnames.
    + now rewrite <- Hkeys.
Qed.

Lemma summarize_types_known (data : list (Z * TypeData)) :
  forall property_types totals city_total,
    Forall (fun e => In (data_property_type (snd e)) (map fst totals)) data ->
    exists r, summarize_types data property_types totals city_total
              = Returned r.
Proof.
  induction data as [ | [key entry] rest IH ]; intros pts totals ct Hknown;
    simpl.
  - now eexists.
  - inversion Hknown as [ | ? ? Hhead Htail ]; subst. simpl in Hhead.
    destruct (dict_add (data_property_type entry) (data_count entry) totals)
      as [ totals1 | ] eqn:Hadd.
    + apply IH. destruct (dict_add_returns _ _ _ _ Hadd) as [_ Hkeys].
      now rewrite Hkeys.
    + apply dict_add_raises in Hadd. contradiction.
Qed.

Lemma summarize_cities_known (all_results : list (string * CityResult)) :
  forall summary,
    Forall (fun name => In name (map fst (property_type_totals summary)))
           (result_names all_results) ->
    exists summary', summarize_cities all_results summary = Returned summary'.
Proof.
  induction all_results as [ | [city_id city_data] rest IH ];
    intros summary Hknown; simpl.
  - now eexists.
  - unfold result_names in Hknown. simpl in Hknown.
    apply Forall_app in Hknown. destruct Hknown as [Hhere Hrest].
    destruct (summarize_types_known
                (result_data city_data) [] (property_type_totals summary) 0)
      as [[[pts totals] ct] Htypes].
    { apply Forall_forall. intros e He. rewrite Forall_forall in Hhere.
      apply Hhere. apply in_map_iff. now exists e. }
    rewrite Htypes. apply IH. simpl.
    apply summarize_types_returns in Htypes.
    destruct Htypes as (_ & _ & Hkeys & _). now rewrite Hkeys.
Qed.

(** The totals of a summary agree: the grand total is the sum of the
    counts of all entries of all cities, and so is the sum of the totals
    per property type, which are kept for the five type names. *)
Theorem summary_totals_agree (all_results : list (string * CityResult))
        (summary : Summary) :
  create_summary_report all_results = Returned summary ->
  grand_total summary = sum_results all_results
  /\ sum_values (property_type_totals summary) = grand_total summary
  /\ map fst (property_type_totals summary) = property_type_names
  /\ total_cities_processed summary = Z.of_nat (List.length all_results).
Proof.
  unfold create_summary_report. intros H.
  apply summarize_cities_returns in H. simpl in H.
  destruct H as (Hgrand & Hsum & Hkeys & Hcount & _).
  repeat split; trivial; lia.
Qed.

(** The report is produced exactly when every entry carries one of the
    five type names; any other name makes it fail with [KeyError]. *)
Theorem summary_needs_known_names (all_results : list (string * CityResult)) :
  (exists summary, create_summary_report all_results = Returned summary)
  <-> Forall (fun name => In name property_type_names)
             (result_names all_results).
Proof.
  unfold create_summary_report. split.
  - intros [summary H]. apply summarize_cities_returns in H.
    destruct H as (_ & _ & _ & _ & Hnames). exact Hnames.
  - intros Hknown. apply summarize_cities_known. exact Hknown.
Qed.

End SummaryFacts.

(** * The cities of a run *)

Section CityFacts.

Variable int_of_str : string -> option Z.

Lemma filter_cities_kept (specific_cities : list Z) :
  forall items kept,
    filter_cities int_of_str specific_cities items = Returned kept ->
    incl kept items
    /\ Forall (fun item => exists n, int_of_str (fst item) = Some n
                                     /\ In n specific_cities) kept.
Proof.
  induction items as [ | [cid cname] rest IH ]; intros kept H; simpl in H.
  - injection H as <-. split; [ apply incl_refl | constructor ].
  - destruct (int_of_str cid) as [ n | ] eqn:Hint; [ | discriminate ].
    destruct (filter_cities int_of_str specific_cities rest) as [ kept' | ];
      [ | discriminate ].
    destruct (IH kept' eq_refl) as [Hincl Hall].
    injection H as <-.
    destruct (is_in n specific_cities) eqn:Hin.
    + split.
      * apply incl_cons; [ now left | now apply incl_tl ].
      * constructor; trivial. exists n. split; trivial.
        unfold is_in in Hin. apply existsb_exists in Hin.
        destruct Hin as (x & Hx & Heq). apply Z.eqb_eq in Heq. now subst.
    + split; [ now apply incl_tl | exact Hall ].
Qed.

Lemma firstn_incl (A : Type) (k : nat) (l : list A) :
  incl (firstn k l) l.
Proof.
  intros x Hx. rewrite <- (firstn_skipn k l). apply in_or_app. now left.
Qed.

Lemma slice_to_incl (A : Type) (n : Z) (l : list A) :
  incl (slice_to n l) l.
Proof.
  unfold slice_to. destruct (n <? 0); apply firstn_incl.
Qed.

(** The cities of a run are cities of the map; with specific cities
    given, each has its id among them; a positive [max_cities] bounds
    their number, 0 does not limit it, and a negative one drops that many
    cities from the end of the list. *)
Theorem cities_to_process_selection
        (cities : list (string * string)) (specific_cities : option (list Z))
        (max_cities : option Z) (l : list (string * string)) :
  cities_to_process int_of_str cities specific_cities max_cities = Returned l ->
  incl l cities
  /\ (forall c cs,
         specific_cities = Some (c :: cs) ->
         Forall (fun item => exists n, int_of_str (fst item) = Some n
                                       /\ In n (c :: cs)) l)
  /\ (forall n, max_cities = Some n -> 0 < n ->
                Z.of_nat (List.length l) <= n)
  /\ (max_cities = Some 0 ->
      cities_to_process int_of_str cities specific_cities None = Returned l)
  /\ (forall n, max_cities = Some n -> n < 0 -> specific_cities = None ->
                l = firstn (Z.to_nat (Z.of_nat (List.length cities) + n))
                           cities).
Proof.
  unfold cities_to_process. intros H.
  set (selected := match specific_cities with
                   | Some (c :: cs) => filter_cities int_of_str (c :: cs) cities
                   | _ => Returned cities
                   end) in *.
  destruct selected as [ sel | ] eqn:Hsel; [ | discriminate ].
  assert (Hincl : incl sel cities).
  { unfold selected in Hsel. destruct specific_cities as [[ | c cs]|];
      try (injection Hsel as <-; apply incl_refl).
    now apply filter_cities_kept in Hsel. }
  assert (Hids : forall c cs,
             specific_cities = Some (c :: cs) ->
             Forall (fun item => exists n, int_of_str (fst item) = Some n
                                           /\ In n (c :: cs)) sel).
  { intros c cs ->. unfold selected in Hsel.
    now apply filter_cities_kept in Hsel. }
  assert (Hl : l = match max_cities with
                   | Some n => if n =? 0 then sel else slice_to n sel
                   | None => sel
                   end).
  { destruct max_cities as [ n | ]; [ destruct (n =? 0) | ]; congruence. }
  clear H. split; [ | split; [ | split; [ | split ] ] ].
  - subst l. destruct max_cities as [ n | ]; [ destruct (n =? 0) | ]; trivial.
    eapply incl_tran; [ apply slice_to_incl | exact Hincl ].
  - intros c cs Hspec. specialize (Hids c cs Hspec). subst l.
    destruct max_cities as [ n | ]; [ destruct (n =? 0) | ]; trivial.
    rewrite Forall_forall in *. intros item Hitem. apply Hids.
    now apply slice_to_incl in Hitem.
  - intros n -> Hpos. subst l.
    replace (n =? 0) with false by (symmetry; apply Z.eqb_neq; lia).
    unfold slice_to.
    replace (n <? 0) with false by (symmetry; apply Z.ltb_ge; lia).
    rewrite length_firstn. lia.
  - intros ->. subst l. reflexivity.
  - intros n -> Hneg ->. subst l. unfold selected in Hsel.
    injection Hsel as <-.
    replace (n =? 0) with false by (symmetry; apply Z.eqb_neq; lia).
    unfold slice_to.
    replace (n <? 0) with true by (symmetry; apply Z.ltb_lt; lia).
    reflexivity.
Qed.

End CityFacts.

(** * File names *)

Section FileNameFacts.

Variable isalnum : ascii -> bool.
Variable isspace : ascii -> bool.

Implicit Types (l : list ascii).

Lemma lstrip_suffix l :
  exists spaces, l = spaces ++ lstrip isspace l
                 /\ Forall (fun c => isspace c = true) spaces.
Proof.
  induction l as [ | c l (spaces & Heq & Hall) ]; simpl.
  - exists []. split; [ reflexivity | constructor ].
  - destruct (isspace c) eqn:Hc.
    + exists (c :: spaces). split; [ simpl; now f_equal | now constructor ].
    + exists []. split; [ reflexivity | constructor ].
Qed.

Lemma lstrip_head l c rest :
  lstrip isspace l = c :: rest -> isspace c = false.
Proof.
  induction l as [ | x l IH ]; simpl; [ discriminate | ].
  destruct (isspace x) eqn:Hx; trivial.
  intros H. injection H as <- _. exact Hx.
Qed.

Lemma lstrip_again l :
  lstrip isspace (lstrip isspace l) = lstrip isspace l.
Proof.
  destruct (lstrip isspace l) as [ | c rest ] eqn:Hl; trivial.
  apply lstrip_head in Hl. simpl. now rewrite Hl.
Qed.

Lemma rstrip_prefix l :
  exists spaces, l = rstrip isspace l ++ spaces.
Proof.
  unfold rstrip. destruct (lstrip_suffix (List.rev l)) as (spaces & Heq & _).
  exists (List.rev spaces).
  rewrite <- rev_app_distr, <- Heq. now rewrite rev_involutive.
Qed.

Lemma rstrip_again l :
  rstrip isspace (rstrip isspace l) = rstrip isspace l.
Proof.
  unfold rstrip. now rewrite rev_involutive, lstrip_again.
Qed.

Lemma rstrip_last l pre c :
  rstrip isspace l = pre ++ [c] -> isspace c = false.
Proof.
  unfold rstrip. intros H.
  apply (f_equal (@List.rev ascii)) in H.
  rewrite rev_involutive, rev_app_distr in H. simpl in H.
  now apply lstrip_head in H.
Qed.

Lemma filter_all (A : Type) (f : A -> bool) (l : list A) :
  Forall (fun x => f x = true) l -> filter f l = l.
Proof.
  induction 1 as [ | x l Hx Hl IH ]; simpl; trivial.
  now rewrite Hx, IH.
Qed.

Lemma safe_name_chars (city_name : string) :
  Forall (fun c => kept_in_name isalnum c = true)
         (rstrip isspace (filter (kept_in_name isalnum)
                                 (list_ascii_of_string city_name))).
Proof.
  destruct (rstrip_prefix (filter (kept_in_name isalnum)
                                  (list_ascii_of_string city_name)))
    as (spaces & Heq).
  assert (Hall : Forall (fun c => kept_in_name isalnum c = true)
                        (filter (kept_in_name isalnum)
                                (list_ascii_of_string city_name))).
  { apply Forall_forall. intros c Hc. now apply filter_In in Hc. }
  rewrite Heq in Hall. now apply Forall_app in Hall.
Qed.

(** The city name used in file names holds only alphanumeric characters,
    spaces, hyphens and underscores, does not end in whitespace, and is
    left as it is when it is cleaned again. *)
Theorem safe_city_name_is_clean (city_name : string) :
  Forall (fun c => kept_in_name isalnum c = true)
         (list_ascii_of_string (safe_city_name isalnum isspace city_name))
  /\ (forall pre c,
         list_ascii_of_string (safe_city_name isalnum isspace city_name)
         = pre ++ [c] ->
         isspace c = false)
  /\ safe_city_name isalnum isspace
                    (safe_city_name isalnum isspace city_name)
     = safe_city_name isalnum isspace city_name.
Proof.
  unfold safe_city_name. rewrite !list_ascii_of_string_of_list_ascii.
  split; [ apply safe_name_chars | split ].
  - intros pre c H. now apply rstrip_last in H.
  - f_equal. rewrite filter_all by apply safe_name_chars.
    apply rstrip_again.
Qed.

End FileNameFacts.

(** * The further properties on sample inputs *)

Lemma test_mode_single_batch_witness :
  exists (records : list Z) (st : State Z unit) (n : nat),
    scrape_city_property_type Sample.every_page Sample.reversed 1
                              Cases.test_config tt false
    = Some (records, st)
    /\ (1 <= n <= 3)%nat
    /\ dispatched (trace st) = repeat [1; 2; 3; 4; 5] n
    /\ page st = 1
    /\ checkpoint_counts (trace st)
       = (if is_empty records then [] else [len records]).
Proof.
  destruct (test_mode_single_batch Z unit Sample.every_page Sample.reversed
                                   Cases.test_config 0 tt)
    as (records & st & n & Hrun & _ & _ & Hn & Hd & Hpage & Hcounts);
    [ reflexivity | ].
  exists records, st, n. repeat split; trivial; apply Hn; discriminate.
Defined.

Lemma harvest_fetches_allowed_pages_witness :
  exists (records : list Z) (st : State Z unit),
    scrape_city_property_type Sample.every_page Sample.reversed 3
                              Cases.ceiling_config tt false
    = Some (records, st)
    /\ Forall (Forall (fun p => 1 <= p
                                /\ forall m, Some 7 = Some m -> m <> 0 ->
                                             p <= m))
              (dispatched (trace st)).
Proof.
  eexists. eexists. split; [ vm_compute; reflexivity | ].
  eapply (harvest_fetches_allowed_pages
            Z unit Sample.every_page Sample.reversed Cases.ceiling_config
            3 tt false).
  vm_compute. reflexivity.
Defined.

Lemma harvest_dispatches_in_page_order_witness :
  exists (records : list Z) (st : State Z unit),
    scrape_city_property_type Sample.seven_pages Sample.reversed 4
                              default_config tt false
    = Some (records, st)
    /\ StronglySorted batch_before (dispatched (trace st))
    /\ Forall (fun b => StronglySorted Z.lt b /\ (List.length b <= 5)%nat)
              (dispatched (trace st)).
Proof.
  eexists. eexists. split; [ vm_compute; reflexivity | ].
  eapply (harvest_dispatches_in_page_order
            Z unit Sample.seven_pages Sample.reversed default_config
            4 tt false).
  vm_compute. reflexivity.
Defined.

Lemma harvest_with_ceiling_terminates_witness :
  exists (records : list Z) (st : State Z unit),
    scrape_city_property_type Sample.every_page Sample.reversed 2
                              Cases.ceiling_config tt false
    = Some (records, st).
Proof.
  apply (harvest_with_ceiling_terminates
           Z unit Sample.every_page Sample.reversed Cases.ceiling_config
           7 1 tt false).
  - reflexivity.
  - discriminate.
  - vm_compute. reflexivity.
Defined.

Lemma loop_with_known_total_terminates_witness :
  exists st' : State Z unit,
    scrape_loop Sample.conflicting_totals Sample.reversed 3 default_config
                Sample.after_conflict = Some st'.
Proof.
  apply (loop_with_known_total_terminates
           Z unit Sample.conflicting_totals Sample.reversed default_config
           2 Sample.after_conflict).
  - vm_compute. reflexivity.
  - vm_compute. reflexivity.
Defined.

Lemma harvest_writes_what_it_returns_witness :
  exists (st : State Z unit),
    scrape_city_property_type Sample.every_page Sample.reversed 3
                              Cases.ceiling_config tt false
    = Some ([1; 2; 3; 4; 5; 6; 7], st)
    /\ written_files (trace st) = [[1; 2; 3; 4; 5; 6; 7]]
    /\ exists log,
        trace st
        = log ++ [EvSaveIntermediate (Some tt) [1; 2; 3; 4; 5; 6; 7] 1 10;
                  EvSaveProgress (Some tt) 10 7].
Proof.
  eexists. split; [ vm_compute; reflexivity | ].
  match goal with
  | |- context [trace ?s] =>
      destruct (harvest_writes_what_it_returns
                  Z unit Sample.every_page Sample.reversed
                  Cases.ceiling_config 3 tt false [1; 2; 3; 4; 5; 6; 7] s)
        as (_ & Hfiles & Hlast); [ vm_compute; reflexivity | ]
  end.
  split; [ exact Hfiles | ]. apply Hlast. discriminate.
Defined.

Lemma checkpoint_counts_grow_witness :
  exists (records : list Z) (st : State Z unit),
    scrape_city_property_type Sample.seven_pages Sample.reversed 4
                              default_config tt false
    = Some (records, st)
    /\ StronglySorted Z.le (checkpoint_counts (trace st))
    /\ Forall (fun n => n <= len records) (checkpoint_counts (trace st)).
Proof.
  eexists. eexists. split; [ vm_compute; reflexivity | ].
  eapply (checkpoint_counts_grow
            Z unit Sample.seven_pages Sample.reversed default_config
            4 tt false).
  vm_compute. reflexivity.
Defined.

Lemma interrupt_saves_everything_collected_witness :
  current_properties Sample.after_first_batch
  = all_properties Sample.after_first_batch
  /\ written_files (trace (signal_handler default_config
                                          Sample.after_first_batch))
     = [[1; 2; 3; 4; 5]]
  /\ checkpoint_counts (trace (signal_handler default_config
                                              Sample.after_first_batch))
     = [5; 5].
Proof.
  apply (interrupt_saves_everything_collected
           Z unit Sample.every_page Sample.reversed default_config tt false
           Sample.after_first_batch).
  eapply runs_on; [ vm_compute; reflexivity | apply runs_here ].
Defined.

Lemma proxies_rotate_witness :
  next_proxies 3 Cases.three_proxies
  = Returned ([Some "p1"; Some "p2"; Some "p0"]%string, Cases.three_proxies).
Proof.
  apply (proxies_rotate Cases.three_proxies 1).
  - reflexivity.
  - vm_compute. lia.
Defined.

Lemma next_proxy_index_in_range_witness :
  exists proxy t',
    _get_next_proxy Cases.three_proxies = Returned (proxy, t')
    /\ 0 <= current_proxy_index t' < 3
    /\ proxy = Some "p1"%string.
Proof.
  eexists. eexists. split; [ vm_compute; reflexivity | ].
  match goal with
  | |- context [current_proxy_index ?t'] =>
      destruct (next_proxy_index_in_range
                  Cases.three_proxies (Some "p1"%string) t')
        as (Hrange & _ & _); [ discriminate | vm_compute; reflexivity | ]
  end.
  split; [ exact Hrange | reflexivity ].
Defined.

Lemma fetch_with_retry_outcome_witness :
  exists (m : nat) t',
    (m <= 3)%nat
    /\ proxy_list t' = proxy_list Cases.three_proxies
    /\ (fst (fetch_with_retry "key" Cases.blocked_twice "u" 3 None
                              Cases.three_proxies)
        = (Some "page"%string, t')
        \/ fst (fetch_with_retry "key" Cases.blocked_twice "u" 3 None
                                 Cases.three_proxies)
           = (None, t'))
    /\ snd (fetch_with_retry "key" Cases.blocked_twice "u" 3 None
                             Cases.three_proxies)
       = repeat (mkRequest (mkSession (Some "p0"%string)) "u") m.
Proof.
  destruct (fetch_with_retry_outcome
              "key" Cases.blocked_twice "u" 3 None Cases.three_proxies)
    as (m & t' & Hm & Hp & _ & _ & Hcases).
  exists m, t'. split; [ exact Hm | ]. split; [ exact Hp | ].
  destruct Hcases as [(text & Hrun & _ & Hlast & _) | (Hrun & _ & _)];
    rewrite Hrun; simpl.
  - split; [ left | reflexivity ].
    assert (Htext : text = "page"%string).
    { destruct m as [ | [ | [ | m ] ] ]; try (vm_compute in Hm; lia);
        vm_compute in Hlast; congruence. }
    now rewrite Htext.
  - split; [ now right | reflexivity ].
Defined.

Lemma search_url_per_page_witness :
  build_search_url "12" 3 0 = build_search_url "12" 3 1
  /\ build_search_url "12" 3 6 <> build_search_url "12" 3 7.
Proof.
  split.
  - apply (search_url_per_page "12" 3 0 1). reflexivity.
  - intros H. apply (search_url_per_page "12" 3 6 7) in H. discriminate.
Defined.

Lemma extraction_returns_payload_properties_witness :
  payload_properties Sample.whole_text (Cases.parses_to Cases.two_totals) "x"
  = Some (PList [PDict [("id"%string, PInt 1)]]).
Proof.
  destruct (extraction_returns_payload_properties
              Sample.whole_text (Cases.parses_to Cases.two_totals) "x"
              (PList [PDict [("id"%string, PInt 1)]]) (PInt 3) (PInt 12))
    as [Hdefault | Hpayload]; [ reflexivity | discriminate | exact Hpayload ].
Defined.

Lemma total_pages_precedence_witness :
  extract_properties_from_html Sample.whole_text
                               (Cases.parses_to Cases.two_totals) "x"
  = Ok (PList [PDict [("id"%string, PInt 1)]], PInt 3, PInt 12).
Proof.
  eapply (proj1 (total_pages_precedence
                   Sample.whole_text (Cases.parses_to Cases.two_totals)
                   "x" "x" _ _ _
                   [("totalPages"%string, PInt 12);
                    ("currentPage"%string, PInt 3)]
                   _ (PInt 12)
                   eq_refl eq_refl eq_refl eq_refl eq_refl eq_refl)).
  reflexivity.
Defined.

Lemma malformed_pagination_drops_page_witness :
  extract_properties_from_html Sample.whole_text
                               (Cases.parses_to Cases.bad_pagination) "x"
  = Ok (PList [], PInt 1, PInt 1).
Proof.
  eapply (malformed_pagination_drops_page
            Sample.whole_text (Cases.parses_to Cases.bad_pagination)
            "x" "x" _ _ _ _ (PList [])
            eq_refl eq_refl eq_refl eq_refl eq_refl eq_refl).
  reflexivity.
Defined.

Lemma summary_totals_agree_witness :
  exists summary,
    create_summary_report Cases.two_cities = Returned summary
    /\ grand_total summary = 42
    /\ sum_values (property_type_totals summary) = 42.
Proof.
  eexists. split; [ vm_compute; reflexivity | ].
  match goal with
  | |- grand_total ?s = _ /\ _ =>
      destruct (summary_totals_agree Cases.two_cities s)
        as (Hgrand & Hsum & _); [ vm_compute; reflexivity | ]
  end.
  split; [ exact Hgrand | exact Hsum ].
Defined.

Lemma summary_needs_known_names_witness :
  create_summary_report
    [("1"%string,
      mkCityResult None [(1, mkTypeData "Penthouse" 3)])] = Raised.
Proof.
  destruct (create_summary_report
              [("1"%string,
                mkCityResult None [(1, mkTypeData "Penthouse" 3)])])
    as [ summary | ] eqn:Hrun; [ | reflexivity ].
  exfalso.
  assert (Hknown : Forall (fun name => In name property_type_names)
                          (result_names
                             [("1"%string,
                               mkCityResult
                                 None [(1, mkTypeData "Penthouse" 3)])])).
  { apply (proj1 (summary_needs_known_names _)). now exists summary. }
  inversion Hknown as [ | ? ? Hin _ ]; subst. simpl in Hin.
  repeat (destruct Hin as [Hin | Hin]; [ discriminate | ]). exact Hin.
Defined.

Lemma cities_to_process_selection_witness :
  cities_to_process Cases.int_of_key Cases.city_map (Some [12; 25; 99])
                    (Some 1)
  = Returned [("12", "Mumbai")]%string
  /\ Z.of_nat (List.length [("12", "Mumbai")]%string) <= 1.
Proof.
  split; [ reflexivity | ].
  destruct (cities_to_process_selection
              Cases.int_of_key Cases.city_map (Some [12; 25; 99]) (Some 1)
              [("12", "Mumbai")]%string eq_refl)
    as (_ & _ & Hbound & _).
  apply Hbound; [ reflexivity | lia ].
Defined.

Lemma safe_city_name_is_clean_witness :
  safe_city_name Cases.ascii_isalnum Cases.ascii_isspace "New/Delhi (NCR)  "
  = "NewDelhi NCR"%string
  /\ safe_city_name Cases.ascii_isalnum Cases.ascii_isspace "NewDelhi NCR"
     = "NewDelhi NCR"%string.
Proof.
  split; [ reflexivity | ].
  destruct (safe_city_name_is_clean
              Cases.ascii_isalnum Cases.ascii_isspace "New/Delhi (NCR)  ")
    as (_ & _ & Hagain).
  exact Hagain.
Defined.

(** * The property types of a city *)

Section CityTypes.

Variable Rec : Type.
Variable harvest : nat -> Z -> outcome (list Rec).

Implicit Types (city_data : list (Z * TypeResult Rec)).

Lemma dict_set_int_sound (k : Z) (v : TypeResult Rec) city_data :
  sound_entry (k, v) -> Forall sound_entry city_data ->
  NoDup (map fst city_data) ->
  Forall sound_entry (dict_set_int k v city_data)
  /\ NoDup (map fst (dict_set_int k v city_data))
  /\ (forall x, In x (map fst (dict_set_int k v city_data)) ->
                x = k \/ In x (map fst city_data)).
Proof.
  intros Hv. induction city_data as [ | [k' v'] rest IH ];
    intros Hall Hnodup; simpl.
  - repeat split.
    + now constructor.
    + repeat constructor. intros [].
    + intros x [<- | []]. now left.
  - inversion Hall as [ | ? ? Hhead Htail ]; subst.
    inversion Hnodup as [ | ? ? Hnotin Hnodup' ]; subst.
    destruct (k =? k') eqn:Hk.
    + apply Z.eqb_eq in Hk. subst k'. simpl. repeat split.
      * now constructor.
      * now constructor.
      * intros x [<- | Hx]; [ now left | right; now right ].
    + destruct (IH Htail Hnodup') as (Hsound & Hnd & Hkeys).
      simpl. repeat split.
      * now constructor.
      * constructor; trivial. intros Hin. apply Hkeys in Hin.
        apply Z.eqb_neq in Hk. destruct Hin as [-> | Hin]; [ lia | ].
        now apply Hnotin.
      * intros x [<- | Hx]; [ right; now left | ].
        apply Hkeys in Hx. destruct Hx as [-> | Hx];
          [ now left | right; now right ].
Qed.

Lemma scrape_types_sound (city_id city_name : string) (types : list Z) :
  forall (calls : nat) city_data,
    Forall sound_entry city_data ->
    NoDup (map fst city_data) ->
    Forall sound_entry
           (scrape_types harvest city_id city_name types calls city_data)
    /\ NoDup (map fst (scrape_types harvest city_id city_name types calls
                                    city_data))
    /\ (forall x,
           In x (map fst (scrape_types harvest city_id city_name types calls
                                       city_data)) ->
           In x types \/ In x (map fst city_data)).
Proof.
  induction types as [ | pt rest IH ]; intros calls city_data Hall Hnodup;
    cbn [scrape_types].
  - repeat split; trivial. intros x Hx. now right.
  - destruct (type_name pt property_types) as [ name | ] eqn:Hname.
    + destruct (harvest calls pt) as [ [ | r props ] | ]; cbv iota beta.
      * destruct (IH (S calls) city_data Hall Hnodup) as (H1 & H2 & H3).
        repeat split; trivial. intros x Hx. apply H3 in Hx.
        destruct Hx as [Hx | Hx]; [ left; now right | now right ].
      * destruct (dict_set_int_sound
                    pt (mkTypeResult name city_name city_id (r :: props)
                                     (Z.of_nat (List.length (r :: props))))
                    city_data)
          as (Hs & Hn & Hk); trivial.
        { repeat split; trivial. discriminate. }
        destruct (IH (S calls) _ Hs Hn) as (H1 & H2 & H3).
        repeat split; trivial. intros x Hx. apply H3 in Hx.
        destruct Hx as [Hx | Hx]; [ left; now right | ].
        apply Hk in Hx. destruct Hx as [-> | Hx];
          [ left; now left | now right ].
      * destruct (IH (S calls) city_data Hall Hnodup) as (H1 & H2 & H3).
        repeat split; trivial. intros x Hx. apply H3 in Hx.
        destruct Hx as [Hx | Hx]; [ left; now right | now right ].
    + destruct (IH calls city_data Hall Hnodup) as (H1 & H2 & H3).
      repeat split; trivial. intros x Hx. apply H3 in Hx.
      destruct Hx as [Hx | Hx]; [ left; now right | now right ].
Qed.

Lemma type_name_known (property_type : Z) (name : string) :
  type_name property_type property_types = Some name ->
  In name property_type_names /\ 1 <= property_type <= 5.
Proof.
  unfold property_types, property_type_names. simpl.
  repeat match goal with
         | |- context [property_type =? ?k] =>
             destruct (Z.eqb_spec property_type k);
             [ intros H; injection H as <-; subst; simpl; split;
               [ tauto | lia ] | ]
         end.
  discriminate.
Qed.

Lemma sound_data_counts (city_name : string) city_data :
  Forall sound_entry city_data ->
  sum_counts (result_data (city_result city_name city_data))
  = records_held city_data
  /\ Forall (fun name => In name property_type_names)
            (map (fun e => data_property_type (snd e))
                 (result_data (city_result city_name city_data))).
Proof.
  induction 1 as [ | [k v] rest (Hname & _ & Hcount) Hrest [IH1 IH2] ];
    simpl.
  - split; [ reflexivity | constructor ].
  - simpl in *. split; [ unfold sum_counts in *; simpl in *; lia | ].
    constructor; trivial. now apply type_name_known in Hname.
Qed.

Lemma dict_get_set_int (V : Type) (k k' : Z) (v : V) (d : list (Z * V)) :
  dict_get_int k' (dict_set_int k v d)
  = if k' =? k then Some v else dict_get_int k' d.
Proof.
  induction d as [ | [k0 v0] rest IH ]; simpl; trivial.
  destruct (Z.eqb_spec k k0) as [ <- | Hk ]; simpl.
  - destruct (k' =? k); trivial.
  - rewrite IH. destruct (Z.eqb_spec k' k0) as [ -> | ]; trivial.
    destruct (Z.eqb_spec k0 k); [ congruence | trivial ].
Qed.

Lemma dict_get_int_in (V : Type) (k : Z) (v : V) (d : list (Z * V)) :
  dict_get_int k d = Some v -> In (k, v) d.
Proof.
  induction d as [ | [k0 v0] rest IH ]; simpl; [ discriminate | ].
  destruct (Z.eqb_spec k k0) as [ <- | ]; intros H.
  - injection H as <-. now left.
  - right. now apply IH.
Qed.

Lemma in_dict_get_int (V : Type) (k : Z) (v : V) (d : list (Z * V)) :
  NoDup (map fst d) -> In (k, v) d -> dict_get_int k d = Some v.
Proof.
  induction d as [ | [k0 v0] rest IH ]; simpl; intros Hnodup Hin;
    [ contradiction | ].
  inversion Hnodup as [ | ? ? Hnotin Hrest ]; subst.
  destruct Hin as [Heq | Hin].
  - injection Heq as -> ->. now rewrite Z.eqb_refl.
  - destruct (Z.eqb_spec k k0) as [ -> | ]; [ | now apply IH ].
    exfalso. apply Hnotin. apply (in_map fst) in Hin. exact Hin.
Qed.

Lemma harvests_made_from (types : list Z) :
  forall (calls n : nat) (k : Z),
    In (n, k) (harvests_made types calls) ->
    (calls <= n)%nat /\ In k types
    /\ exists name, type_name k property_types = Some name.
Proof.
  induction types as [ | pt rest IH ]; intros calls n k Hin;
    cbn [harvests_made] in Hin; [ contradiction | ].
  destruct (type_name pt property_types) as [ name | ] eqn:Hname.
  - destruct Hin as [Heq | Hin].
    + injection Heq as <- <-. repeat split; [ lia | now left | now exists name ].
    + apply IH in Hin. destruct Hin as (Hn & Hk & Hvalid).
      repeat split; [ lia | now right | exact Hvalid ].
  - apply IH in Hin. destruct Hin as (Hn & Hk & Hvalid).
    repeat split; [ lia | now right | exact Hvalid ].
Qed.

(** The entry of the data for a property type: that of the last harvest
    of the type that returned records, the one it had before when no
    harvest of the type did. *)
Lemma scrape_types_lookup (city_id city_name : string) (types : list Z) :
  forall (calls : nat) city_data (k : Z),
    (exists (n : nat) (props : list Rec) (name : string),
        In (n, k) (harvests_made types calls)
        /\ harvest n k = Returned props
        /\ props <> []
        /\ type_name k property_types = Some name
        /\ dict_get_int k (scrape_types harvest city_id city_name types calls
                                        city_data)
           = Some (mkTypeResult name city_name city_id props
                                (Z.of_nat (List.length props)))
        /\ (forall n', In (n', k) (harvests_made types calls) ->
                       (n < n')%nat -> fruitless (harvest n' k)))
    \/ (dict_get_int k (scrape_types harvest city_id city_name types calls
                                     city_data)
        = dict_get_int k city_data
        /\ (forall n, In (n, k) (harvests_made types calls) ->
                      fruitless (harvest n k))).
Proof.
  induction types as [ | pt rest IH ]; intros calls city_data k;
    cbn [scrape_types harvests_made].
  { right. split; [ reflexivity | intros n [] ]. }
  destruct (type_name pt property_types) as [ name | ] eqn:Hname;
    [ | apply IH ].
  assert (Hlater :
            forall d,
              (exists (n : nat) (props : list Rec) (name0 : string),
                  In (n, k) (harvests_made rest (S calls))
                  /\ harvest n k = Returned props
                  /\ props <> []
                  /\ type_name k property_types = Some name0
                  /\ dict_get_int k (scrape_types harvest city_id city_name
                                                  rest (S calls) d)
                     = Some (mkTypeResult name0 city_name city_id props
                                          (Z.of_nat (List.length props)))
                  /\ (forall n', In (n', k) (harvests_made rest (S calls)) ->
                                 (n < n')%nat -> fruitless (harvest n' k))) ->
              exists (n : nat) (props : list Rec) (name0 : string),
                In (n, k) ((calls, pt) :: harvests_made rest (S calls))
                /\ harvest n k = Returned props
                /\ props <> []
                /\ type_name k property_types = Some name0
                /\ dict_get_int k (scrape_types harvest city_id city_name
                                                rest (S calls) d)
                   = Some (mkTypeResult name0 city_name city_id props
                                        (Z.of_nat (List.length props)))
                /\ (forall n',
                       In (n', k) ((calls, pt) :: harvests_made rest (S calls)) ->
                       (n < n')%nat -> fruitless (harvest n' k))).
  { intros d (n & props & name0 & Hin & Hret & Hne & Hn0 & Hget & Hlast).
    exists n, props, name0. repeat split; trivial; [ now right | ].
    intros n' [Heq | Hin'] Hlt; [ | now apply Hlast ].
    injection Heq as <- _. apply harvests_made_from in Hin. lia. }
  assert (Hskip :
            forall d,
              fruitless (harvest calls pt) ->
              dict_get_int k (scrape_types harvest city_id city_name
                                           rest (S calls) d)
              = dict_get_int k d
              /\ (forall n, In (n, k) (harvests_made rest (S calls)) ->
                            fruitless (harvest n k)) ->
              dict_get_int k (scrape_types harvest city_id city_name
                                           rest (S calls) d)
              = dict_get_int k d
              /\ (forall n,
                     In (n, k) ((calls, pt) :: harvests_made rest (S calls)) ->
                     fruitless (harvest n k))).
  { intros d Hnow (Hget & Hall). split; trivial.
    intros n [Heq | Hin]; [ | now apply Hall ].
    now injection Heq as <- <-. }
  destruct (harvest calls pt) as [ [ | r props ] | ] eqn:Hcall; cbv iota beta.
  - destruct (IH (S calls) city_data k) as [Hfound | Hnone].
    + left. now apply Hlater.
    + right. apply Hskip; trivial. now right.
  - destruct (IH (S calls)
                 (dict_set_int pt
                    (mkTypeResult name city_name city_id (r :: props)
                                  (Z.of_nat (List.length (r :: props))))
                    city_data) k) as [Hfound | (Hget & Hall)].
    + left. now apply Hlater.
    + rewrite dict_get_set_int in Hget.
      destruct (Z.eqb_spec k pt) as [ -> | Hk ].
      * left. exists calls, (r :: props), name.
        repeat split; trivial; [ now left | discriminate | ].
        intros n' [Heq | Hin] Hlt; [ | now apply Hall ].
        injection Heq as <-. lia.
      * right. split; trivial.
        intros n [Heq | Hin]; [ | now apply Hall ].
        injection Heq as _ <-. congruence.
  - destruct (IH (S calls) city_data k) as [Hfound | Hnone].
    + left. now apply Hlater.
    + right. apply Hskip; trivial. now left.
Qed.

(** The data of a city holds only property types 1 to 5 that were asked
    for, each once; the entry of a type is named after the type, carries
    the city, and holds the records, at least one, of the last harvest of
    the type that returned records, with their number as count; and every
    type one of whose harvests returned records has an entry. *)
Theorem scrape_city_data_is_sound
        (specific_property_types : option (list Z))
        (city_id city_name : string) :
  let types := property_types_to_scrape specific_property_types in
  let city_data :=
    scrape_city harvest specific_property_types city_id city_name in
  NoDup (map fst city_data)
  /\ Forall (fun kv =>
               1 <= fst kv <= 5
               /\ In (fst kv) types
               /\ type_name (fst kv) property_types
                  = Some (type_result_property_type (snd kv))
               /\ type_result_city_name (snd kv) = city_name
               /\ type_result_city_id (snd kv) = city_id
               /\ type_result_properties (snd kv) <> []
               /\ type_result_count (snd kv)
                  = Z.of_nat (List.length (type_result_properties (snd kv)))
               /\ exists n : nat,
                   In (n, fst kv) (harvests_made types 0)
                   /\ harvest n (fst kv)
                      = Returned (type_result_properties (snd kv))
                   /\ (forall n', In (n', fst kv) (harvests_made types 0) ->
                                  (n < n')%nat ->
                                  fruitless (harvest n' (fst kv))))
            city_data
  /\ (forall (n : nat) (k : Z),
         In (n, k) (harvests_made types 0) ->
         ~ fruitless (harvest n k) ->
         In k (map fst city_data)).
Proof.
  cbv zeta. unfold scrape_city. fold (property_types_to_scrape
                                        specific_property_types).
  set (types := property_types_to_scrape specific_property_types).
  destruct (scrape_types_sound city_id city_name types 0 [])
    as (Hsound & Hnodup & Hkeys); [ constructor | constructor | ].
  split; [ exact Hnodup | split ].
  - apply Forall_forall. intros [k v] Hin.
    apply in_dict_get_int in Hin; trivial. cbn [fst snd].
    destruct (scrape_types_lookup city_id city_name types 0 [] k)
      as [(n & props & name & Hmade & Hret & Hne & Hname & Hget & Hlast)
         | (Hget & _)];
      [ | simpl in Hget; congruence ].
    rewrite Hin in Hget. injection Hget as ->. cbn.
    split; [ now apply type_name_known in Hname | ].
    split; [ now apply harvests_made_from in Hmade | ].
    repeat split; trivial.
    exists n. now repeat split.
  - intros n k Hmade Hfruit.
    destruct (scrape_types_lookup city_id city_name types 0 [] k)
      as [(m & props & name & _ & _ & _ & _ & Hget & _) | (_ & Hall)].
    + apply dict_get_int_in in Hget. apply (in_map fst) in Hget. exact Hget.
    + exfalso. apply Hfruit. now apply Hall.
Qed.

(** The report on the data of a city never fails, and its grand total is
    the number of records that the data holds. *)
Theorem report_counts_the_records
        (specific_property_types : option (list Z))
        (city_id city_name : string) :
  exists summary,
    create_summary_report
      [(city_id,
        city_result city_name
                    (scrape_city harvest specific_property_types
                                 city_id city_name))]
    = Returned summary
    /\ grand_total summary
       = records_held (scrape_city harvest specific_property_types
                                   city_id city_name).
Proof.
  unfold scrape_city.
  set (types := match specific_property_types with
                | Some (t :: ts) => t :: ts
                | _ => map fst property_types
                end).
  destruct (scrape_types_sound city_id city_name types 0 [])
    as (Hsound & _ & _); [ constructor | constructor | ].
  destruct (sound_data_counts city_name _ Hsound) as [Hcounts Hnames].
  unfold create_summary_report.
  destruct (summarize_cities_known
              [(city_id,
                city_result city_name
                            (scrape_types harvest city_id city_name
                                          types 0 []))]
              (mkSummary 1 [] (map (fun pt => (pt, 0)) property_type_names) 0))
    as [summary Hrun].
  { unfold result_names. simpl. rewrite app_nil_r. exact Hnames. }
  exists summary. split; trivial.
  apply summarize_cities_returns in Hrun. destruct Hrun as (Hgrand & _).
  rewrite Hgrand. unfold sum_results. cbn [fold_right snd grand_total].
  rewrite Hcounts. lia.
Qed.

End CityTypes.

Lemma scrape_city_data_is_sound_witness :
  In 3 (map fst (scrape_city Cases.first_call_only (Some [3; 3])
                             "1" "Delhi")).
Proof.
  apply (proj2 (proj2 (scrape_city_data_is_sound
                         Z Cases.first_call_only (Some [3; 3]) "1" "Delhi"))
               0%nat 3).
  - vm_compute. now left.
  - vm_compute. intros [H | H]; discriminate.
Defined.
